(** * The Data agent example: calculator tool and agent wiring

    Source: [example1/Data_Agent_SDK_Standalone.py].

    The file embeds
    - the calculator tool ([_ALLOWED_OPS], [_eval_ast], [eval_expression])
      together with the slice of the Python runtime it calls into
      ([str.strip], [str.replace], [re.fullmatch], [ast.parse], the
      functions of the [operator] module and [str]);
    - the agent definitions and the guardrail function of the script;
    - the run loop the script drives through [Runner.run].

    Conventions of the embedding.
    - A Python [str] is a Rocq [string]; a character is a code point below
      256.
    - Python integers are [Z]; Python floats are IEEE-754 binary64 numbers,
      represented by [spec_float] with [prec = 53] and [emax = 1024].
    - A Python call either returns or raises: [result A].
    - What the interpreter obtains from the C library ([pow], [fmod]), the
      arithmetic of [complex] built on it, and the wording of the parser's
      diagnostics are fields of [platform]; every statement below holds for
      all platforms.
    - Texts of interpreter-raised exceptions follow CPython 3.12.
    - Limits of the host (recursion depth, memory) are not modelled. *)

From Stdlib Require Import ZArith List String Ascii Bool Lia.
From Stdlib Require Import Floats.SpecFloat DecimalString.
From stdpp Require Import gmap strings.
Import ListNotations.

Local Open Scope string_scope.
Local Open Scope Z_scope.

#[local] Set Warnings "-register-all".

(** ** Text: the [str] methods and the regular expression of the tool *)

Module Text.

Definition code (c : ascii) : Z := Z.of_N (N_of_ascii c).

Definition between (lo hi : Z) (c : ascii) : bool :=
  (lo <=? code c) && (code c <=? hi).

(** [\d]: the decimal digits (below code point 256 these are [0]-[9]). *)
Definition is_digit (c : ascii) : bool := between 48 57 c.

(** [str.isspace], which is also [\s] for a [str] pattern: TAB, LF, VT, FF,
    CR, FS, GS, RS, US, SPACE, NEL, NBSP. *)
Definition is_space (c : ascii) : bool :=
  between 9 13 c || between 28 32 c || (code c =? 133) || (code c =? 160).

Fixpoint lstrip (s : list ascii) : list ascii :=
  match s with
  | c :: s' => if is_space c then lstrip s' else s
  | [] => []
  end.

Definition rstrip (s : list ascii) : list ascii := rev (lstrip (rev s)).

(** [s.strip()] *)
Definition strip (s : list ascii) : list ascii := rstrip (lstrip s).

(** [s.replace(old, new)] for a one-character [old]. *)
Definition replace (old : ascii) (new : list ascii) (s : list ascii)
  : list ascii :=
  flat_map (fun c => if Ascii.eqb c old then new else [c]) s.

Definition one_of (cs : string) (c : ascii) : bool :=
  existsb (Ascii.eqb c) (list_ascii_of_string cs).

(** The character class [[\d\s\(\)\+\-\*/\.\^%]]. *)
Definition arith_char (c : ascii) : bool :=
  is_digit c || is_space c || one_of "()+-*/.^%" c.

(** [re.fullmatch(r"[\d\s\(\)\+\-\*/\.\^%]+", s)] as a truth value. *)
Definition fullmatch_arith (s : list ascii) : bool :=
  match s with
  | [] => false
  | _ :: _ => forallb arith_char s
  end.

(** The same operations on [string]. *)
Definition on_chars (f : list ascii -> list ascii) (s : string) : string :=
  string_of_list_ascii (f (list_ascii_of_string s)).

Definition str_strip : string -> string := on_chars strip.

Definition str_replace (old : ascii) (new : string) : string -> string :=
  on_chars (replace old (list_ascii_of_string new)).

Definition re_fullmatch_arith (s : string) : bool :=
  fullmatch_arith (list_ascii_of_string s).

(** The characters that start a Python name: the letters and the underscore
    (below code point 256 the letters are [A]-[Z], [a]-[z], and, beyond
    ASCII, the two ordinal indicators, the micro sign and the accented
    letters). *)
Definition is_name_start (c : ascii) : bool :=
  between 65 90 c || between 97 122 c || (code c =? 95) ||
  (code c =? 170) || (code c =? 181) || (code c =? 186) ||
  between 192 214 c || between 216 246 c || between 248 255 c.

End Text.

(** ** The Python runtime the tool calls into *)

Module Py.

Abbreviation float := spec_float.
Definition prec : Z := 53.
Definition emax : Z := 1024.

(** *** Exceptions and the outcome of a call *)

Inductive exn :=
| ValueError (msg : string)
| ZeroDivisionError (msg : string)
| OverflowError (msg : string)
| TypeError (msg : string)
| SyntaxError (msg : string).

(** [str(e)] *)
Definition str_exn (e : exn) : string :=
  match e with
  | ValueError m | ZeroDivisionError m | OverflowError m
  | TypeError m | SyntaxError m => m
  end.

Inductive result (A : Type) :=
| Return (a : A)
| Raise (e : exn).
Arguments Return {A} a.
Arguments Raise {A} e.

Definition bind {A B} (r : result A) (k : A -> result B) : result B :=
  match r with
  | Return a => k a
  | Raise e => Raise e
  end.

(** [try: body  except Exception as e: handler(e)]; every exception of the
    model is a subclass of [Exception]. *)
Definition try_except {A} (body : result A) (handler : exn -> result A)
  : result A :=
  match body with
  | Return a => Return a
  | Raise e => handler e
  end.

(** *** Values *)

Record complex := Complex { real : float; imag : float }.

Inductive value :=
| VInt (n : Z)
| VFloat (x : float)
| VComplex (c : complex)
| VEllipsis.

Definition type_name (v : value) : string :=
  match v with
  | VInt _ => "int"
  | VFloat _ => "float"
  | VComplex _ => "complex"
  | VEllipsis => "ellipsis"
  end.

(** The binary operations of the tool, as [complex] arithmetic sees them. *)
Inductive arith := AAdd | ASub | AMul | ATrueDiv | APow.

Inductive arith_failure :=
| ZeroDivision (msg : string)
| Overflow (msg : string).

Definition exn_of_failure (f : arith_failure) : exn :=
  match f with
  | ZeroDivision m => ZeroDivisionError m
  | Overflow m => OverflowError m
  end.

(** What the interpreter takes from its platform. *)
Record platform := {
  (** C's [pow] on two finite doubles, the first positive and not 1, the
      second not 0, with CPython's reading of [errno] after the call *)
  libm_pow : float -> float -> arith_failure + float;
  (** C's [fmod] on doubles *)
  libm_fmod : float -> float -> float;
  (** [a op b] when an operand is a [complex] (the other one already
      converted); it returns a complex number or fails with
      [ZeroDivisionError] or [OverflowError] *)
  complex_arith : arith -> complex -> complex -> arith_failure + complex;
  (** the text of the [SyntaxError] the parser raises on a source text *)
  syntax_error_text : string -> string
}.

(** *** binary64 numbers *)

(** [a / b] for integers [0 <= a], [0 < b], rounded to nearest, ties to
    even; [neg] is the sign of the result. *)
Definition of_quotient (neg : bool) (a b : Z) : float :=
  let '(m, e, l) := SFdiv_core_binary prec emax a 0 b 0 in
  binary_round_aux prec emax neg m e l.

(** The integer [n], rounded to nearest, ties to even. *)
Definition of_Z (n : Z) : float := binary_normalize prec emax n 0 false.

Definition is_nan (x : float) : bool :=
  match x with S754_nan => true | _ => false end.

Definition is_inf (x : float) : bool :=
  match x with S754_infinity _ => true | _ => false end.

Definition signbit (x : float) : bool :=
  match x with
  | S754_zero s | S754_infinity s | S754_finite s _ _ => s
  | S754_nan => false
  end.

(** C's [x == y] and [x < y] *)
Definition feq (x y : float) : bool := SFeqb x y.
Definition flt (x y : float) : bool := SFltb x y.

Definition fzero : float := S754_zero false.
Definition fone : float := of_Z 1.

(** The same number with the same sign (not C's [==]: it tells the two
    zeros apart and identifies NaN with itself). *)
Definition same_float (x y : float) : bool :=
  match x, y with
  | S754_zero s, S754_zero t | S754_infinity s, S754_infinity t => Bool.eqb s t
  | S754_nan, S754_nan => true
  | S754_finite s m e, S754_finite t n f =>
      Bool.eqb s t && Pos.eqb m n && (e =? f)
  | _, _ => false
  end.

(** [x] is an integer / an odd integer ([DOUBLE_IS_ODD_INTEGER]). *)
Definition is_integral (x : float) : bool :=
  match x with
  | S754_zero _ => true
  | S754_finite _ m e => (0 <=? e) || (Zpos m mod 2 ^ (- e) =? 0)
  | _ => false
  end.

Definition is_odd_integer (x : float) : bool :=
  match x with
  | S754_finite _ m e =>
      if 0 <=? e then (e =? 0) && Z.odd (Zpos m)
      else (Zpos m mod 2 ^ (- e) =? 0) && Z.odd (Zpos m / 2 ^ (- e))
  | _ => false
  end.

(** *** [repr] of a float: the shortest decimal string that reads back as
    the same float, the closest to it among those of that length *)

Definition decimal (n : Z) : string :=
  NilZero.string_of_uint (N.to_uint (Z.to_N n)).

Definition ndigits (n : Z) : Z := Z.of_nat (String.length (decimal n)).

(** [c * 10^k] for [0 <= c], correctly rounded: what reading the decimal
    string back gives. *)
Definition of_decimal (c k : Z) : float :=
  if 0 <=? k then of_Z (c * 10 ^ k) else of_quotient false c (10 ^ (- k)).

(** The finite positive float [m * 2^e] as a fraction. *)
Definition fraction (m : positive) (e : Z) : Z * Z :=
  if 0 <=? e then (Zpos m * 2 ^ e, 1) else (Zpos m, 2 ^ (- e)).

(** The [d] with [10^(d-1) <= n/q < 10^d], for [0 < n], [0 < q]. *)
Definition decimal_point (n q : Z) : Z :=
  if q <=? n then ndigits (n / q)
  else
    let d := ndigits q - ndigits n in
    if q <=? n * 10 ^ d then 1 - d else - d.

(** The [p]-digit decimals next to [n/q]: the one of them that reads back
    as [x], the closer one if both do; [(c, k)] stands for [c * 10^k]. *)
Definition candidate (x : float) (n q : Z) (p : Z) : option (Z * Z) :=
  let k := decimal_point n q - p in
  let '(n', q') := if k <=? 0 then (n * 10 ^ (- k), q) else (n, q * 10 ^ k) in
  let lo := n' / q' in
  let hi := lo + 1 in
  let ok_lo := same_float (of_decimal lo k) x in
  let ok_hi := same_float (of_decimal hi k) x in
  let lo_closer :=
    match 2 * n' ?= (2 * lo + 1) * q' with
    | Lt => true
    | Eq => Z.even lo
    | Gt => false
    end in
  match ok_lo, ok_hi with
  | true, true => Some (if lo_closer then lo else hi, k)
  | true, false => Some (lo, k)
  | false, true => Some (hi, k)
  | false, false => None
  end.

(** Seventeen significant digits always suffice for a binary64 number. *)
Fixpoint shortest (tries : nat) (x : float) (n q : Z) (p : Z) : Z * Z :=
  match tries with
  | O => (n * 10 ^ 17 / q, -17)
  | S tries' =>
      match candidate x n q p with
      | Some ck => ck
      | None => shortest tries' x n q (p + 1)
      end
  end.

Fixpoint drop_zeros (tries : nat) (c k : Z) : Z * Z :=
  match tries with
  | O => (c, k)
  | S tries' =>
      if (c mod 10 =? 0) && negb (c =? 0)
      then drop_zeros tries' (c / 10) (k + 1)
      else (c, k)
  end.

Definition zeros (n : Z) : string :=
  string_of_list_ascii (repeat "0"%char (Z.to_nat n)).

Definition length_Z (s : string) : Z := Z.of_nat (String.length s).

Definition exponent_text (e : Z) : string :=
  let s := decimal (Z.abs e) in
  (if e <? 0 then "-" else "+") +:+ (if length_Z s <? 2 then "0" +:+ s else s).

(** The digits [ds] with the decimal point after the first [point] of them,
    in the layout of format code ['r']: exponent notation when
    [point <= -4] or [point > 16]. *)
Definition layout (add_dot_0 : bool) (ds : string) (point : Z) : string :=
  let nd := length_Z ds in
  if (point <=? -4) || (16 <? point) then
    match ds with
    | String d rest =>
        String d (match rest with EmptyString => "" | _ => "." +:+ rest end)
        +:+ "e" +:+ exponent_text (point - 1)
    | EmptyString => ""
    end
  else if point <=? 0 then "0." +:+ zeros (- point) +:+ ds
  else if nd <=? point then
    ds +:+ zeros (point - nd) +:+ (if add_dot_0 then ".0" else "")
  else
    substring 0 (Z.to_nat point) ds +:+ "." +:+
    substring (Z.to_nat point) (Z.to_nat (nd - point)) ds.

(** [PyOS_double_to_string(x, 'r', 0, flags, NULL)] with the flags
    [Py_DTSF_ADD_DOT_0] and [Py_DTSF_SIGN]. *)
Definition double_to_string (add_dot_0 force_sign : bool) (x : float)
  : string :=
  let sign := if signbit x then "-" else if force_sign then "+" else "" in
  match x with
  | S754_nan => sign +:+ "nan"
  | S754_infinity _ => sign +:+ "inf"
  | S754_zero _ => sign +:+ (if add_dot_0 then "0.0" else "0")
  | S754_finite _ m e =>
      let '(n, q) := fraction m e in
      let '(c, k) := shortest 17 (SFabs x) n q 1 in
      let '(c, k) := drop_zeros 17 c k in
      let ds := decimal c in
      sign +:+ layout add_dot_0 ds (length_Z ds + k)
  end.

(** [repr(x)] for a float, which is also [str(x)] *)
Definition float_repr (x : float) : string := double_to_string true false x.

(** [repr(c)] for a complex number *)
Definition complex_repr (c : complex) : string :=
  match real c with
  | S754_zero false => double_to_string false false (imag c) +:+ "j"
  | re =>
      "(" +:+ double_to_string false false re +:+
      double_to_string false true (imag c) +:+ "j)"
  end.

(** *** [str] *)

(** [sys.get_int_max_str_digits()], at its default *)
Definition int_max_str_digits : Z := 4300.

Definition int_str (n : Z) : result string :=
  if int_max_str_digits <? ndigits (Z.abs n) then
    Raise (ValueError
      "Exceeds the limit (4300 digits) for integer string conversion; use sys.set_int_max_str_digits() to increase the limit")
  else Return ((if n <? 0 then "-" else "") +:+ decimal (Z.abs n)).

(** [str(v)] *)
Definition str (v : value) : result string :=
  match v with
  | VInt n => int_str n
  | VFloat x => Return (float_repr x)
  | VComplex c => Return (complex_repr c)
  | VEllipsis => Return "Ellipsis"
  end.

(** *** The arithmetic of the [operator] module *)

Definition float_of_int (n : Z) : result float :=
  let x := of_Z n in
  if is_inf x then Raise (OverflowError "int too large to convert to float")
  else Return x.

Definition to_float (v : value) : result float :=
  match v with
  | VInt n => float_of_int n
  | VFloat x => Return x
  | _ => Raise (TypeError "must be real number")
  end.

Definition to_complex (v : value) : result complex :=
  match v with
  | VComplex c => Return c
  | _ => bind (to_float v) (fun x => Return (Complex x fzero))
  end.

Definition unsupported (symbol : string) (v w : value) : exn :=
  TypeError ("unsupported operand type(s) for " +:+ symbol +:+ ": '" +:+
             type_name v +:+ "' and '" +:+ type_name w +:+ "'").

(** A function object is called with its positional arguments. *)
Abbreviation callable := (list value -> result value).

Section Arithmetic.
Context (P : platform).

Definition complex_binary (op : arith) (v w : value) : result value :=
  bind (to_complex v) (fun a =>
  bind (to_complex w) (fun b =>
  match complex_arith P op a b with
  | inl f => Raise (exn_of_failure f)
  | inr c => Return (VComplex c)
  end)).

(** Dispatch on the operand types: two ints; ints and floats, converted
    to float from left to right; a complex operand; anything else. *)
Definition binary (symbol : string)
    (on_int : Z -> Z -> result value)
    (on_float : float -> float -> result value)
    (on_complex : option arith) (v w : value) : result value :=
  match v, w with
  | VInt a, VInt b => on_int a b
  | VInt _, VFloat _ | VFloat _, VInt _ | VFloat _, VFloat _ =>
      bind (to_float v) (fun x => bind (to_float w) (fun y => on_float x y))
  | VEllipsis, _ | _, VEllipsis => Raise (unsupported symbol v w)
  | _, _ =>
      match on_complex with
      | Some op => complex_binary op v w
      | None => Raise (unsupported symbol v w)
      end
  end.

Definition add : value -> value -> result value :=
  binary "+" (fun a b => Return (VInt (a + b)))
    (fun x y => Return (VFloat (SFadd prec emax x y))) (Some AAdd).

Definition sub : value -> value -> result value :=
  binary "-" (fun a b => Return (VInt (a - b)))
    (fun x y => Return (VFloat (SFsub prec emax x y))) (Some ASub).

Definition mul : value -> value -> result value :=
  binary "*" (fun a b => Return (VInt (a * b)))
    (fun x y => Return (VFloat (SFmul prec emax x y))) (Some AMul).

(** [int / int]: the quotient correctly rounded *)
Definition int_truediv (a b : Z) : result value :=
  if b =? 0 then Raise (ZeroDivisionError "division by zero")
  else
    let x := of_quotient (xorb (a <? 0) (b <? 0)) (Z.abs a) (Z.abs b) in
    if is_inf x then
      Raise (OverflowError "integer division result too large for a float")
    else Return (VFloat x).

Definition float_truediv (x y : float) : result value :=
  if feq y fzero then Raise (ZeroDivisionError "float division by zero")
  else Return (VFloat (SFdiv prec emax x y)).

Definition truediv : value -> value -> result value :=
  binary "/" int_truediv float_truediv (Some ATrueDiv).

(** [int % int]: the remainder has the sign of the divisor *)
Definition int_mod (a b : Z) : result value :=
  if b =? 0 then Raise (ZeroDivisionError "integer modulo by zero")
  else Return (VInt (a mod b)).

(** [float_rem]: [fmod], then the sign of the divisor *)
Definition float_mod (x y : float) : result value :=
  if feq y fzero then Raise (ZeroDivisionError "float modulo")
  else
    let m := libm_fmod P x y in
    Return (VFloat
      (if negb (feq m fzero) then
         if xorb (flt y fzero) (flt m fzero) then SFadd prec emax m y else m
       else S754_zero (signbit y))).

Definition mod_ : value -> value -> result value :=
  binary "%" int_mod float_mod None.

(** [float_pow]: the special cases CPython sorts out itself, then the
    platform's [pow]; a negative base with a fractional exponent gives a
    complex number. *)
Definition float_pow (x y : float) : result value :=
  if feq y fzero then Return (VFloat fone)
  else if is_nan x then Return (VFloat x)
  else if is_nan y then Return (VFloat (if feq x fone then fone else y))
  else if is_inf y then
    let ax := SFabs x in
    Return (VFloat
      (if feq ax fone then fone
       else if Bool.eqb (flt fzero y) (flt fone ax) then SFabs y
       else fzero))
  else if is_inf x then
    let odd := is_odd_integer y in
    Return (VFloat
      (if flt fzero y then (if odd then x else SFabs x)
       else (if odd then S754_zero (signbit x) else fzero)))
  else if feq x fzero then
    if flt y fzero then
      Raise (ZeroDivisionError "0.0 cannot be raised to a negative power")
    else Return (VFloat (if is_odd_integer y then x else fzero))
  else if flt x fzero && negb (is_integral y) then
    complex_binary APow (VFloat x) (VFloat y)
  else
    let ax := if flt x fzero then SFopp x else x in
    let negate := flt x fzero && is_odd_integer y in
    if feq ax fone then
      Return (VFloat (if negate then SFopp fone else fone))
    else
      match libm_pow P ax y with
      | inl f => Raise (exn_of_failure f)
      | inr r => Return (VFloat (if negate then SFopp r else r))
      end.

(** [int ** int]: exact for an exponent [>= 0], a float otherwise *)
Definition int_pow (a b : Z) : result value :=
  if 0 <=? b then Return (VInt (a ^ b))
  else
    bind (float_of_int a) (fun x =>
    bind (float_of_int b) (fun y => float_pow x y)).

Definition pow : value -> value -> result value :=
  binary "** or pow()" int_pow float_pow (Some APow).

Definition neg (v : value) : result value :=
  match v with
  | VInt n => Return (VInt (- n))
  | VFloat x => Return (VFloat (SFopp x))
  | VComplex c => Return (VComplex (Complex (SFopp (real c)) (SFopp (imag c))))
  | VEllipsis => Raise (TypeError "bad operand type for unary -: 'ellipsis'")
  end.


Definition count (args : list value) : string :=
  decimal (Z.of_nat (List.length args)).

Definition function2 (name : string) (f : value -> value -> result value)
  : callable :=
  fun args =>
    match args with
    | [a; b] => f a b
    | _ => Raise (TypeError (name +:+ " expected 2 arguments, got " +:+
                             count args))
    end.

Definition function1 (name : string) (f : value -> result value)
  : callable :=
  fun args =>
    match args with
    | [a] => f a
    | _ => Raise (TypeError ("_operator." +:+ name +:+
                             "() takes exactly one argument (" +:+
                             count args +:+ " given)"))
    end.

(** [operator.add], [operator.sub], [operator.mul], [operator.truediv],
    [operator.pow], [operator.neg], [operator.mod] *)
Definition op_add : callable := function2 "add" add.
Definition op_sub : callable := function2 "sub" sub.
Definition op_mul : callable := function2 "mul" mul.
Definition op_truediv : callable := function2 "truediv" truediv.
Definition op_pow : callable := function2 "pow" pow.
Definition op_neg : callable := function1 "neg" neg.
Definition op_mod : callable := function2 "mod" mod_.

End Arithmetic.

End Py.

(** ** Syntax trees: the classes of the [ast] module the tool meets *)

Module Ast.

(** The classes an [op] field is an instance of: the binary operators and
    the unary operators. *)
Inductive op_type :=
| Add | Sub | Mult | MatMult | Div | Mod | Pow
| LShift | RShift | BitOr | BitXor | BitAnd | FloorDiv
| Invert | Not | UAdd | USub.

#[global] Instance op_type_eq_dec : EqDecision op_type.
Proof. solve_decision. Defined.

Definition op_type_index (o : op_type) : nat :=
  match o with
  | Add => 0 | Sub => 1 | Mult => 2 | MatMult => 3 | Div => 4 | Mod => 5
  | Pow => 6 | LShift => 7 | RShift => 8 | BitOr => 9 | BitXor => 10
  | BitAnd => 11 | FloorDiv => 12 | Invert => 13 | Not => 14 | UAdd => 15
  | USub => 16
  end%nat.

Definition op_type_at (i : nat) : op_type :=
  match i with
  | 0 => Add | 1 => Sub | 2 => Mult | 3 => MatMult | 4 => Div | 5 => Mod
  | 6 => Pow | 7 => LShift | 8 => RShift | 9 => BitOr | 10 => BitXor
  | 11 => BitAnd | 12 => FloorDiv | 13 => Invert | 14 => Not | 15 => UAdd
  | _ => USub
  end%nat.

#[global] Instance op_type_countable : Countable op_type.
Proof.
  apply (inj_countable' op_type_index op_type_at). intros o. destruct o; reflexivity.
Defined.

(** The expression nodes. [Constant] carries the value of a literal; the
    characters the tool lets through can spell integer and float literals
    and the literal [...] only. *)
Inductive node :=
| Constant (value : Py.value)
| UnaryOp (op : op_type) (operand : node)
| BinOp (left : node) (op : op_type) (right : node)
| Name (id : string)
| Attribute (value : node) (attr : string)
| Subscript (value : node) (slice : node)
| Call (func : node) (args : list node) (keywords : list (option string * node))
| Starred (value : node)
| Tuple (elts : list node).

End Ast.

(** ** [ast.parse(source, mode="eval")] on the characters of the tool *)

Module Parser.
Import Ast.

Inductive token :=
| NUMBER (v : Py.value)
| ELLIPSIS
| LPAR | RPAR
| PLUS | MINUS | STAR | SLASH | DOUBLESLASH | PERCENT | DOUBLESTAR.

(** *** The tokenizer *)

(** What the tokenizer is in the middle of. Digit lists are most recent
    first. *)
Inductive pending :=
| Idle
| InInt (digits : list ascii)
| InFraction (digits fraction : list ascii)
| Dot1
| Dot2
| Star
| Slash.

Record lexer := Lexer {
  pend : pending;
  depth : Z;           (* open parentheses *)
  started : bool;      (* a token has been seen *)
  indented : bool;     (* blanks at the start of the first line *)
  ended : bool;        (* the logical line is over *)
  tokens : list token  (* most recent first *)
}.

Definition initial : lexer := Lexer Idle 0 false false false [].

Definition emit (t : token) (l : lexer) : lexer :=
  Lexer Idle (depth l) true (indented l) (ended l) (t :: tokens l).

Definition wait (p : pending) (l : lexer) : lexer :=
  Lexer p (depth l) true (indented l) (ended l) (tokens l).

Definition digit_value (c : ascii) : Z := Text.code c - 48.

(** The integer spelled by digits given most recent first. *)
Fixpoint digits_value (ds : list ascii) : Z :=
  match ds with
  | [] => 0
  | d :: ds' => 10 * digits_value ds' + digit_value d
  end.

Definition is_zero_digit (c : ascii) : bool := Ascii.eqb c "0".

(** [MAXLEVEL] of the tokenizer *)
Definition max_level : Z := 200.

(** An integer literal: no leading zero unless it is all zeros, which is
    zero however long it is, and otherwise no more digits than the integer
    string conversion accepts. *)
Definition int_literal (ds : list ascii) : option token :=
  let all_zeros := forallb is_zero_digit ds in
  let leading_zero :=
    match rev ds with
    | d :: _ :: _ => is_zero_digit d && negb all_zeros
    | _ => false
    end in
  if leading_zero then None
  else if negb all_zeros &&
          (Py.int_max_str_digits <? Z.of_nat (List.length ds)) then None
  else Some (NUMBER (Py.VInt (digits_value ds))).

(** A float literal [digits.fraction], correctly rounded. *)
Definition float_literal (ds fs : list ascii) : token :=
  NUMBER (Py.VFloat
    (Py.of_decimal (digits_value (fs ++ ds)) (- Z.of_nat (List.length fs)))).

(** A character met with nothing pending. *)
Definition idle (l : lexer) (c : ascii) : option lexer :=
  let blank := Ascii.eqb c " " || (Text.code c =? 9) in
  let formfeed := Text.code c =? 12 in
  let newline := (Text.code c =? 10) || (Text.code c =? 13) in
  if ended l then
    if blank || formfeed || newline then Some l else None
  else if blank then
    Some (if started l then l
          else Lexer Idle (depth l) false true false (tokens l))
  else if formfeed then
    Some (if started l then l
          else Lexer Idle (depth l) false false false (tokens l))
  else if newline then
    if 0 <? depth l then Some l
    else if started l then
      Some (Lexer Idle 0 true (indented l) true (tokens l))
    else Some (Lexer Idle 0 false false false (tokens l))
  else if indented l then None
  else if Text.is_digit c then Some (wait (InInt [c]) l)
  else if Ascii.eqb c "." then Some (wait Dot1 l)
  else if Ascii.eqb c "*" then Some (wait Star l)
  else if Ascii.eqb c "/" then Some (wait Slash l)
  else if Ascii.eqb c "+" then Some (emit PLUS l)
  else if Ascii.eqb c "-" then Some (emit MINUS l)
  else if Ascii.eqb c "%" then Some (emit PERCENT l)
  else if Ascii.eqb c "(" then
    if max_level <=? depth l then None
    else Some (Lexer Idle (depth l + 1) true false false (LPAR :: tokens l))
  else if Ascii.eqb c ")" then
    if depth l <=? 0 then None
    else Some (Lexer Idle (depth l - 1) true false false (RPAR :: tokens l))
  else None.

(** What is pending is complete: its token is emitted. A lone dot starts an
    attribute reference, which needs a name: no text of the tool has one. *)
Definition flush (l : lexer) : option lexer :=
  match pend l with
  | Idle => Some l
  | InInt ds =>
      match int_literal ds with
      | Some t => Some (emit t l)
      | None => None
      end
  | InFraction ds fs => Some (emit (float_literal ds fs) l)
  | Dot1 | Dot2 => None
  | Star => Some (emit STAR l)
  | Slash => Some (emit SLASH l)
  end.

Definition flush_then (l : lexer) (c : ascii) : option lexer :=
  match flush l with
  | Some l' => idle l' c
  | None => None
  end.

(** One character further. *)
Definition lex_char (l : lexer) (c : ascii) : option lexer :=
  match pend l with
  | Idle => idle l c
  | InInt ds =>
      if Text.is_digit c then Some (wait (InInt (c :: ds)) l)
      else if Ascii.eqb c "." then Some (wait (InFraction ds []) l)
      else flush_then l c
  | InFraction ds fs =>
      if Text.is_digit c then Some (wait (InFraction ds (c :: fs)) l)
      else flush_then l c
  | Dot1 =>
      if Text.is_digit c then Some (wait (InFraction [] [c]) l)
      else if Ascii.eqb c "." then Some (wait Dot2 l)
      else None
  | Dot2 =>
      if Ascii.eqb c "." then Some (emit ELLIPSIS l) else None
  | Star =>
      if Ascii.eqb c "*" then Some (emit DOUBLESTAR l) else flush_then l c
  | Slash =>
      if Ascii.eqb c "/" then Some (emit DOUBLESLASH l) else flush_then l c
  end.

Fixpoint lex (l : lexer) (source : list ascii) : option lexer :=
  match source with
  | [] => flush l
  | c :: rest =>
      match lex_char l c with
      | Some l' => lex l' rest
      | None => None
      end
  end.

(** The tokens of a source text, unless the tokenizer rejects it. *)
Definition tokenize (source : list ascii) : option (list token) :=
  match lex initial source with
  | Some l => if depth l =? 0 then Some (rev (tokens l)) else None
  | None => None
  end.

(** *** The grammar

    Over these tokens the expression grammar of Python is
<<
    sum     : sum ('+' | '-') term | term
    term    : term ('*' | '/' | '//' | '%') factor | factor
    factor  : ('+' | '-') factor | power
    power   : primary '**' factor | primary
    primary : primary '(' [argument] ')' | atom
    argument: sum | '*' sum | '**' sum
    atom    : NUMBER | '...' | '(' ')' | '(' sum ')'
>>
    It is parsed with a stack of pending operators and a stack of finished
    operands, one token at a time. *)

Inductive item :=
| Binary (op : op_type)
| Unary (op : op_type)
| Group          (* the parenthesis of an atom *)
| CallOpen       (* the parenthesis of a call; the callee is an operand *)
| StarArg        (* [*] in front of the argument *)
| DoubleStarArg. (* [**] in front of the argument *)

(** How tightly an operator on the stack holds its right operand. *)
Definition binding (i : item) : Z :=
  match i with
  | Binary Pow => 4
  | Unary _ => 3
  | Binary (Mult | Div | FloorDiv | Mod) => 2
  | Binary _ => 1
  | _ => 0
  end.

Definition apply_item (i : item) (operands : list node) : option (list node) :=
  match i, operands with
  | Binary op, r :: l :: rest => Some (BinOp l op r :: rest)
  | Unary op, x :: rest => Some (UnaryOp op x :: rest)
  | _, _ => None
  end.

(** Apply the operators on top of the stack that bind at least as tightly
    as [level]. *)
Fixpoint reduce (level : Z) (ops : list item) (operands : list node)
  : option (list item * list node) :=
  match ops with
  | (Binary _ | Unary _) as i :: ops' =>
      if level <=? binding i then
        match apply_item i operands with
        | Some operands' => reduce level ops' operands'
        | None => None
        end
      else Some (ops, operands)
  | _ => Some (ops, operands)
  end.

Record parser := Parser {
  want_operand : bool;
  ops : list item;
  operands : list node
}.

Definition push_operand (x : node) (p : parser) : parser :=
  Parser false (ops p) (x :: operands p).

Definition push_item (i : item) (p : parser) : parser :=
  Parser true (i :: ops p) (operands p).

(** A binary operator after an operand: the operators that bind at least
    as tightly are applied first ([**] groups to the right). *)
Definition infix (op : op_type) (p : parser) : option parser :=
  let level := match op with Pow => 5 | _ => binding (Binary op) end in
  match reduce level (ops p) (operands p) with
  | Some (ops', operands') => Some (Parser true (Binary op :: ops') operands')
  | None => None
  end.

(** A closing parenthesis after an operand. *)
Definition close (p : parser) : option parser :=
  match reduce 0 (ops p) (operands p) with
  | Some (Group :: ops', operands') => Some (Parser false ops' operands')
  | Some (CallOpen :: ops', a :: f :: rest) =>
      Some (Parser false ops' (Call f [a] [] :: rest))
  | Some (StarArg :: CallOpen :: ops', a :: f :: rest) =>
      Some (Parser false ops' (Call f [Starred a] [] :: rest))
  | Some (DoubleStarArg :: CallOpen :: ops', a :: f :: rest) =>
      Some (Parser false ops' (Call f [] [(None, a)] :: rest))
  | _ => None
  end.

Definition parse_token (p : parser) (t : token) : option parser :=
  if want_operand p then
    match t with
    | NUMBER v => Some (push_operand (Constant v) p)
    | ELLIPSIS => Some (push_operand (Constant Py.VEllipsis) p)
    | PLUS => Some (push_item (Unary UAdd) p)
    | MINUS => Some (push_item (Unary USub) p)
    | LPAR => Some (push_item Group p)
    | RPAR =>
        match ops p, operands p with
        | Group :: ops', operands' =>
            Some (Parser false ops' (Tuple [] :: operands'))
        | CallOpen :: ops', f :: rest =>
            Some (Parser false ops' (Call f [] [] :: rest))
        | _, _ => None
        end
    | STAR =>
        match ops p with
        | CallOpen :: _ => Some (push_item StarArg p)
        | _ => None
        end
    | DOUBLESTAR =>
        match ops p with
        | CallOpen :: _ => Some (push_item DoubleStarArg p)
        | _ => None
        end
    | SLASH | DOUBLESLASH | PERCENT => None
    end
  else
    match t with
    | PLUS => infix Add p
    | MINUS => infix Sub p
    | STAR => infix Mult p
    | SLASH => infix Div p
    | DOUBLESLASH => infix FloorDiv p
    | PERCENT => infix Mod p
    | DOUBLESTAR => infix Pow p
    | LPAR => Some (push_item CallOpen p)
    | RPAR => close p
    | NUMBER _ | ELLIPSIS => None
    end.

Fixpoint parse_tokens (p : parser) (ts : list token) : option parser :=
  match ts with
  | [] => Some p
  | t :: ts' =>
      match parse_token p t with
      | Some p' => parse_tokens p' ts'
      | None => None
      end
  end.

(** The expression the tokens spell, if they spell one. *)
Definition parse (ts : list token) : option node :=
  match parse_tokens (Parser true [] []) ts with
  | Some p =>
      if want_operand p then None
      else
        match reduce 0 (ops p) (operands p) with
        | Some ([], [x]) => Some x
        | _ => None
        end
  | None => None
  end.

(** [ast.parse(source, mode="eval").body]. The tokenizer's limit of 200
    open parentheses is part of it; the stack of the parser, which deeper
    nesting can use up before that, is not: the statements about the tree
    that a written expression parses to are for texts of at most
    [IntExpr.max_text] characters, which stay within it. *)
Definition ast_parse (P : Py.platform) (source : string) : Py.result node :=
  match tokenize (list_ascii_of_string source) with
  | Some ts =>
      match parse ts with
      | Some x => Py.Return x
      | None => Py.Raise (Py.SyntaxError (Py.syntax_error_text P source))
      end
  | None => Py.Raise (Py.SyntaxError (Py.syntax_error_text P source))
  end.

End Parser.

(** ** The calculator tool *)

Module Calc.
Import Ast.

Section Tool.
Context (P : Py.platform).

(** The dictionary from operator classes to the functions of the
    [operator] module. *)
Definition _ALLOWED_OPS : gmap op_type Py.callable :=
  list_to_map
    [ (Add, Py.op_add P);
      (Sub, Py.op_sub P);
      (Mult, Py.op_mul P);
      (Div, Py.op_truediv P);
      (Pow, Py.op_pow P);
      (USub, Py.op_neg);
      (Mod, Py.op_mod P) ].

Definition unsupported_expression : Py.exn :=
  Py.ValueError "Unsupported expression".

(** [_eval_ast], for an interpreter that does not run out of nested calls:
    the recursion limit of the interpreter is not part of it. The
    statements about the integer that a tree evaluates to are for trees of
    at most [IntExpr.max_nodes] nodes, which stay within it. *)
Fixpoint _eval_ast (node : Ast.node) : Py.result Py.value :=
  match node with
  | Constant value => Py.Return value
  | UnaryOp op operand =>
      match _ALLOWED_OPS !! op with
      | Some f => Py.bind (_eval_ast operand) (fun x => f [x])
      | None => Py.Raise unsupported_expression
      end
  | BinOp left_ op right_ =>
      match _ALLOWED_OPS !! op with
      | Some f =>
          Py.bind (_eval_ast left_) (fun x =>
          Py.bind (_eval_ast right_) (fun y => f [x; y]))
      | None => Py.Raise unsupported_expression
      end
  | _ => Py.Raise unsupported_expression
  end.

(** The body of the [try] block. *)
Definition evaluate (expr : string) : Py.result string :=
  Py.bind (Parser.ast_parse P expr) (fun tree =>
  Py.bind (_eval_ast tree) Py.str).

Definition eval_expression (expression : string) : Py.result string :=
  let expr := Text.str_replace "^" "**" (Text.str_strip expression) in
  if negb (Text.re_fullmatch_arith expr) then
    Py.Return "Error: arithmetic only"
  else
    Py.try_except (evaluate expr)
      (fun e => Py.Return ("Error: " +:+ Py.str_exn e)).

End Tool.

End Calc.


(** ** The notions the statements about the tool are phrased in *)

Module Claims.
Import Ast.

(** The outcome is the [ValueError] of the tool's last line. *)
Definition is_unsupported {A} (r : Py.result A) : bool :=
  match r with
  | Py.Raise (Py.ValueError m) => String.eqb m "Unsupported expression"
  | _ => false
  end.

(** The exceptions the functions of the [operator] module raise here. *)
Definition arithmetic_failure (e : Py.exn) : bool :=
  match e with
  | Py.ZeroDivisionError _ | Py.OverflowError _ | Py.TypeError _ => true
  | Py.ValueError _ | Py.SyntaxError _ => false
  end.

Definition is_raise {A} (r : Py.result A) : bool :=
  match r with
  | Py.Raise _ => true
  | Py.Return _ => false
  end.

(** The expression the tool works on: [expression.strip().replace("^", "**")]. *)
Definition normalized (expression : string) : string :=
  Text.str_replace "^" "**" (Text.str_strip expression).

(** The replacement of the tool on characters. *)
Definition caret : list ascii -> list ascii :=
  Text.replace "^" (list_ascii_of_string "**").

(** The operator classes of the allow-list. *)
Definition in_allow_list (o : op_type) : bool :=
  match o with
  | Add | Sub | Mult | Div | Pow | USub | Mod => true
  | _ => false
  end.

(** The allow-list in the words of the specification: binary [+ - * / % **]
    and unary minus. *)
Definition binary_allowed (o : op_type) : bool :=
  match o with
  | Add | Sub | Mult | Div | Mod | Pow => true
  | _ => false
  end.

Definition unary_allowed (o : op_type) : bool :=
  match o with
  | USub => true
  | _ => false
  end.

(** The node itself passes the tests of [_eval_ast]: a constant, or a unary
    or binary operation whose operator class is in the allow-list. *)
Definition kind_allowed (n : node) : bool :=
  match n with
  | Constant _ => true
  | UnaryOp o _ | BinOp _ o _ => in_allow_list o
  | _ => false
  end.

(** The tree is built from allow-listed nodes only. *)
Fixpoint allow_listed (n : node) : bool :=
  match n with
  | Constant _ => true
  | UnaryOp o x => unary_allowed o && allow_listed x
  | BinOp l o r => binary_allowed o && allow_listed l && allow_listed r
  | _ => false
  end.

(** The tree contains a unary plus node. *)
Fixpoint has_uadd (n : node) : bool :=
  match n with
  | Constant _ | Name _ => false
  | UnaryOp o x => (if decide (o = UAdd) then true else false) || has_uadd x
  | BinOp l _ r => has_uadd l || has_uadd r
  | Attribute x _ | Starred x => has_uadd x
  | Subscript x i => has_uadd x || has_uadd i
  | Call f args keywords =>
      has_uadd f || existsb has_uadd args ||
      existsb (fun kw => has_uadd (snd kw)) keywords
  | Tuple elts => existsb has_uadd elts
  end.

(** A call that raises does so with an arithmetic failure. *)
Definition sound {A} (r : Py.result A) : Prop :=
  forall e, r = Py.Raise e -> arithmetic_failure e = true.

End Claims.


(** ** The agents of the script *)

Module Agents.

(** Structured payloads: what [model_dump] returns and what a model emits. *)
Inductive json :=
| JNull
| JBool (b : bool)
| JNum (n : Z)
| JStr (s : string)
| JObj (fields : list (string * json)).

(** [class YarGuardOutput(BaseModel)] *)
Record YarGuardOutput := {
  is_blocked : bool;
  reasoning : string
}.

(** [o.model_dump()] *)
Definition model_dump (o : YarGuardOutput) : list (string * json) :=
  [("is_blocked", JBool (is_blocked o)); ("reasoning", JStr (reasoning o))].

(** The declared output types of the script. *)
Inductive output_type := YarGuardOutputType.

Inductive Tool :=
| FunctionTool (name : string) (on_invoke : string -> Py.result string)
| WebSearchTool
| FileSearchTool (vector_store_ids : list string) (max_num_results : Z).

Definition tool_name (t : Tool) : string :=
  match t with
  | FunctionTool name _ => name
  | WebSearchTool => "web_search"
  | FileSearchTool _ _ => "file_search"
  end.

Record ModelSettings := { temperature : Z }.

(** [Agent(...)]. The instruction text is a prompt for the model and plays no
    part in the control flow; it is left out. Handoff targets and input
    guardrails are referred to by name. *)
Record Agent := {
  name : string;
  tools : list Tool;
  input_guardrails : list string;
  handoffs : list string;
  output : option output_type;
  model_settings : ModelSettings
}.

Section Script.
Context (P : Py.platform).
(** [vs_id], looked up in the vector store service when the script starts *)
Context (vs_id : string).

(** [eval_expression] as decorated by [@function_tool] *)
Definition eval_expression_tool : Tool :=
  FunctionTool "eval_expression" (Calc.eval_expression P).

Definition calculator_agent : Agent := {|
  name := "Calculator";
  tools := [eval_expression_tool];
  input_guardrails := [];
  handoffs := [];
  output := None;
  model_settings := {| temperature := 0 |}
|}.

Definition guardrail_agent : Agent := {|
  name := "Tasha Yar Guardrail";
  tools := [];
  input_guardrails := [];
  handoffs := [];
  output := Some YarGuardOutputType;
  model_settings := {| temperature := 0 |}
|}.

Definition web_search : Tool := WebSearchTool.
Definition file_search : Tool := FileSearchTool [vs_id] 3.

Definition data_agent : Agent := {|
  name := "Lt. Cmdr. Data";
  tools := [web_search; file_search];
  input_guardrails := ["tasha_guardrail"];
  handoffs := [name calculator_agent];
  output := None;
  model_settings := {| temperature := 0 |}
|}.

End Script.

(** [GuardrailFunctionOutput(output_info=..., tripwire_triggered=...)] *)
Record GuardrailFunctionOutput := {
  output_info : list (string * json);
  tripwire_triggered : bool
}.

(** [tasha_guardrail]: the input goes to the guardrail agent through
    [Runner.run]; a failure of that run is not handled here and leaves the
    function as it came. *)
Definition tasha_guardrail {failure input : Type}
    (Runner_run : Agent -> input -> failure + YarGuardOutput)
    (input_ : input) : failure + GuardrailFunctionOutput :=
  match Runner_run guardrail_agent input_ with
  | inl f => inl f
  | inr final_output =>
      inr {| output_info := model_dump final_output;
             tripwire_triggered := is_blocked final_output |}
  end.

End Agents.


(** ** The run loop

    The script hands its agents to [Runner.run], which belongs to the imported
    [agents] package and is not part of the script. The loop below is written
    from the specification (sections 3, 4, 6 and 7). *)

Module Runtime.
Import Agents.

(** Modelled from the spec: a tool call requested by a turn, section 4.4 (the
    runtime's tool-call record is not in the sources). *)
Record ToolCall := {
  call_id : string;
  tool : string;
  arguments : string
}.

(** Modelled from the spec: what the generation contract answers, section 6
    (the model call is not in the sources); exactly one of tool calls,
    handoff request and final output is given. *)
Inductive response :=
| Text (s : string)
| ToolCalls (calls : list ToolCall)
| HandoffRequest (target : string)
| StructuredOutput (payload : json).

(** Modelled from the spec: the kinds of [ToolError], section 4.2. *)
Inductive tool_error :=
| InvalidArguments
| UnsupportedExpression
| ProviderUnavailable
| ProviderRejected.

(** Modelled from the spec: [ToolResult | ToolError], what the tool invoker
    returns, section 4.2. *)
Inductive tool_outcome :=
| ToolResult (s : string)
| ToolError (kind : tool_error) (detail : string).

(** Modelled from the spec: the entries of the conversation history of a
    run, sections 3 and 4.4. *)
Inductive message :=
| UserInput (text : string)
| Said (agent : string) (r : response)
| ToolFeedback (call : string) (o : tool_outcome).

(** Modelled from the spec: the external interfaces of section 6, the
    generation contract and the hosted tool providers (both are services
    outside the sources). *)
Record World := {
  generate : Agent -> list message -> response;
  provider : Tool -> string -> tool_outcome
}.

(** Modelled from the spec: the failures of section 7 that end a run (the
    exceptions of the runtime are not in the sources). *)
Inductive fatal :=
| GuardrailTripped (guardrail rationale : string)
| UnauthorizedTarget (target : string)
| OutputValidationFailed
| TurnLimitExceeded.

(** Modelled from the spec: [Turn], section 3: the agent active for the
    turn, the context it saw, and the outcome. *)
Record Turn := {
  actor : string;
  context : list message;
  outcome : response
}.

(** Modelled from the spec: the verdict of a guardrail, section 4.1, or the
    failure to produce one. *)
Inductive guardrail_outcome :=
| Verdict (triggered : bool) (rationale : string) (raw_output : list (string * json))
| Malformed.

(** Modelled from the spec: [GuardrailSpec], section 3: a name, a policy
    flag and an evaluation procedure. *)
Record GuardrailSpec := {
  guardrail_name : string;
  abort_on_trigger : bool;
  evaluate : World -> list message -> guardrail_outcome
}.

(** Modelled from the spec: what a run is configured with: the agent
    registry, the registered guardrails and the maximum turn count,
    sections 3 and 4.4. *)
Record Config := {
  registry : gmap string Agent;
  guardrails : gmap string GuardrailSpec;
  max_turns : nat
}.

(** Modelled from the spec: [RunContext], the run-scoped state of section 3
    (the runtime's context object is not in the sources). *)
Record RunContext := {
  history : list message;
  active : Agent;
  trace : list Turn;
  turn_counter : nat;
  guardrail_log : list (string * guardrail_outcome)
}.

(** Modelled from the spec: the final output value of [RunResult], section 3:
    text or a validated structured payload. *)
Inductive final_output :=
| FreeText (s : string)
| Structured (payload : json).

(** Modelled from the spec: the states of the run loop, section 4.4 (the loop
    is not in the sources). *)
Inductive phase :=
| Init
| GuardrailCheck
| AgentTurn
| ToolDispatch (calls : list ToolCall)
| HandoffDispatch (target : string)
| Final (r : response)
| Aborted (why : fatal)
| Done (out : final_output) (producer : string).

(** Modelled from the spec: the terminal states [Aborted] and [Done],
    section 4.4. *)
Definition terminal (p : phase) : bool :=
  match p with
  | Aborted _ | Done _ _ => true
  | _ => false
  end.

(** Modelled from the spec: the lookup of a field of a structured payload,
    used by schema validation, section 4.1. *)
Definition field (k : string) (fields : list (string * json)) : option json :=
  match find (fun kv => String.eqb (fst kv) k) fields with
  | Some kv => Some (snd kv)
  | None => None
  end.

(** Modelled from the spec: validation of a structured output against its
    declared schema, section 4.1 (done by the runtime, not in the sources);
    the schema is that of [YarGuardOutput], an object with a boolean
    [is_blocked] and a string [reasoning]. *)
Definition as_YarGuardOutput (payload : json) : option YarGuardOutput :=
  match payload with
  | JObj fields =>
      match field "is_blocked" fields, field "reasoning" fields with
      | Some (JBool b), Some (JStr r) =>
          Some {| is_blocked := b; reasoning := r |}
      | _, _ => None
      end
  | _ => None
  end.

(** Modelled from the spec: the final output is validated against the active
    agent's output schema when it declares one, section 4.4. *)
Definition validate (a : Agent) (r : response) : option final_output :=
  match output a, r with
  | None, Text s => Some (FreeText s)
  | None, StructuredOutput p => Some (Structured p)
  | Some YarGuardOutputType, StructuredOutput p =>
      match as_YarGuardOutput p with
      | Some _ => Some (Structured p)
      | None => None
      end
  | _, _ => None
  end.

(** Modelled from the spec: the tool invoker of section 4.2. A function tool
    runs its function; a hosted tool goes to its provider; a tool the agent
    does not declare is an argument error. *)
Definition invoke (W : World) (a : Agent) (c : ToolCall) : tool_outcome :=
  match find (fun t => String.eqb (tool_name t) (tool c)) (tools a) with
  | Some (FunctionTool _ f) =>
      match f (arguments c) with
      | Py.Return s => ToolResult s
      | Py.Raise e => ToolError UnsupportedExpression (Py.str_exn e)
      end
  | Some t => provider W t (arguments c)
  | None => ToolError InvalidArguments "unknown tool"
  end.

(** Modelled from the spec: tool results are fed back in the order the calls
    were issued, section 4.4. *)
Definition feedback (W : World) (a : Agent) (calls : list ToolCall)
  : list message :=
  map (fun c => ToolFeedback (call_id c) (invoke W a c)) calls.

(** Modelled from the spec: the handoff resolver of section 4.3; the target
    must be in the active agent's declared set and registered. *)
Definition resolve (cfg : Config) (a : Agent) (target : string) : option Agent :=
  if existsb (String.eqb target) (handoffs a) then registry cfg !! target
  else None.

(** Modelled from the spec: the update of the history of [RunContext]. *)
Definition with_history (ctx : RunContext) (h : list message) : RunContext :=
  {| history := h; active := active ctx; trace := trace ctx;
     turn_counter := turn_counter ctx; guardrail_log := guardrail_log ctx |}.

(** Modelled from the spec: the switch of the active agent of [RunContext],
    section 4.3. *)
Definition with_active (ctx : RunContext) (a : Agent) : RunContext :=
  {| history := history ctx; active := a; trace := trace ctx;
     turn_counter := turn_counter ctx; guardrail_log := guardrail_log ctx |}.

(** Modelled from the spec: one agent turn, section 4.4: the history and the
    active agent go to the generation contract, the turn is recorded and
    counted. *)
Definition take_turn (W : World) (ctx : RunContext) : response * RunContext :=
  let a := active ctx in
  let r := generate W a (history ctx) in
  (r, {| history := history ctx ++ [Said (name a) r];
         active := a;
         trace := trace ctx ++ [{| actor := name a; context := history ctx;
                                   outcome := r |}];
         turn_counter := S (turn_counter ctx);
         guardrail_log := guardrail_log ctx |}).

(** Modelled from the spec: the transitions of section 4.4 from [AgentTurn]
    on. *)
Definition turn_step (cfg : Config) (W : World) (s : phase * RunContext)
  : phase * RunContext :=
  let '(p, ctx) := s in
  match p with
  | AgentTurn =>
      if (max_turns cfg <=? turn_counter ctx)%nat then
        (Aborted TurnLimitExceeded, ctx)
      else
        let '(r, ctx') := take_turn W ctx in
        match r with
        | ToolCalls calls => (ToolDispatch calls, ctx')
        | HandoffRequest target => (HandoffDispatch target, ctx')
        | Text _ | StructuredOutput _ => (Final r, ctx')
        end
  | ToolDispatch calls =>
      (AgentTurn,
       with_history ctx (history ctx ++ feedback W (active ctx) calls))
  | HandoffDispatch target =>
      match resolve cfg (active ctx) target with
      | Some a => (AgentTurn, with_active ctx a)
      | None => (Aborted (UnauthorizedTarget target), ctx)
      end
  | Final r =>
      match validate (active ctx) r with
      | Some out => (Done out (name (active ctx)), ctx)
      | None => (Aborted OutputValidationFailed, ctx)
      end
  | _ => s
  end.

(** Modelled from the spec: the loop, as the repetition of its step. *)
Fixpoint iterate {A} (n : nat) (f : A -> A) (x : A) : A :=
  match n with
  | O => x
  | S n' => iterate n' f (f x)
  end.

(** Modelled from the spec: the [RunContext] a run starts with, section 3. *)
Definition start (a : Agent) (input : list message) : RunContext :=
  {| history := input; active := a; trace := []; turn_counter := 0;
     guardrail_log := [] |}.

(** Modelled from the spec: a guardrail that is an agent is run through the
    same loop, for a single turn, with nothing registered to hand off to
    (section 9); its structured output is the verdict's payload. *)
Definition single_turn : Config :=
  {| registry := ∅; guardrails := ∅; max_turns := 1 |}.

(** Modelled from the spec: [Runner.run] as the guardrail function of the
    script calls it: one turn of the agent, its final output validated
    against the declared schema, section 9. *)
Definition Runner_run_guardrail (W : World) (a : Agent) (input : list message)
  : fatal + YarGuardOutput :=
  match iterate 5 (turn_step single_turn W) (AgentTurn, start a input) with
  | (Done (Structured p) _, _) =>
      match as_YarGuardOutput p with
      | Some o => inr o
      | None => inl OutputValidationFailed
      end
  | (Aborted why, _) => inl why
  | _ => inl OutputValidationFailed
  end.

(** Modelled from the spec: the rationale of a verdict, section 4.1, read off
    the [reasoning] of the reported output. *)
Definition rationale_of (info : list (string * json)) : string :=
  match field "reasoning" info with
  | Some (JStr r) => r
  | _ => ""
  end.

(** Modelled from the spec: the guardrail of the script as a [GuardrailSpec]
    of the loop, section 4.1: it aborts the run when it is triggered, and a
    failure of its evaluation is recorded as malformed. *)
Definition tasha : GuardrailSpec := {|
  guardrail_name := "tasha_guardrail";
  abort_on_trigger := true;
  evaluate := fun W input =>
    match tasha_guardrail (Runner_run_guardrail W) input with
    | inr o => Verdict (tripwire_triggered o) (rationale_of (output_info o))
                 (output_info o)
    | inl _ => Malformed
    end
|}.

(** Modelled from the spec: the guardrail engine of section 4.1. Every
    guardrail of the entry agent is evaluated on the same input and its
    outcome recorded. *)
Definition evaluate_all (cfg : Config) (W : World) (a : Agent)
    (input : list message) : list (string * guardrail_outcome) :=
  flat_map (fun n =>
    match guardrails cfg !! n with
    | Some g => [(n, evaluate g W input)]
    | None => []
    end) (input_guardrails a).

(** Modelled from the spec: a recorded verdict ends the run when it is
    triggered and its guardrail aborts on trigger, section 4.1. *)
Definition trips (cfg : Config) (r : string * guardrail_outcome) : bool :=
  match guardrails cfg !! fst r, snd r with
  | Some g, Verdict true _ _ => abort_on_trigger g
  | _, _ => false
  end.

(** Modelled from the spec: the whole state machine of section 4.4; the
    guardrails are checked before the first agent turn. *)
Definition step (cfg : Config) (W : World) (s : phase * RunContext)
  : phase * RunContext :=
  let '(p, ctx) := s in
  match p with
  | Init => (GuardrailCheck, ctx)
  | GuardrailCheck =>
      let log := evaluate_all cfg W (active ctx) (history ctx) in
      let ctx' :=
        {| history := history ctx; active := active ctx; trace := trace ctx;
           turn_counter := turn_counter ctx; guardrail_log := log |} in
      match find (trips cfg) log with
      | Some (n, Verdict _ rationale _) =>
          (Aborted (GuardrailTripped n rationale), ctx')
      | _ => (AgentTurn, ctx')
      end
  | _ => turn_step cfg W s
  end.

(** Modelled from the spec: a number of steps that suffices to end a run
    bounded by the maximum turn count, section 4.4. *)
Definition enough (cfg : Config) : nat := 2 * max_turns cfg + 5.

(** Modelled from the spec: a run, from the entry agent and the input to the
    state the loop ends in. *)
Definition run (cfg : Config) (W : World) (a : Agent) (input : string)
  : phase * RunContext :=
  iterate (enough cfg) (step cfg W) (Init, start a [UserInput input]).

End Runtime.

(** ** [main] of the script *)

Module Script.
Import Agents Runtime.

(** Modelled from the spec: what [Runner.run] hands back to its caller,
    section 3: for a run that is done, the final output and the name of the
    agent that produced it; an aborted run raises its failure. *)
Definition Runner_run (cfg : Config) (W : World) (a : Agent) (input : string)
  : fatal + final_output * string :=
  match fst (run cfg W a input) with
  | Done out producer => inr (out, producer)
  | Aborted why => inl why
  | _ => inl TurnLimitExceeded
  end.

(** What [print] is called with. *)
Inductive printable :=
| PStr (s : string)
| POut (o : final_output).

Definition newline : string := String (ascii_of_nat 10) "".

Definition and_then {A B} (r : fatal + A) (k : A -> fatal + B) : fatal + B :=
  match r with
  | inl why => inl why
  | inr a => k a
  end.

Section Main.
Context (cfg : Config) (W : World) (P : Py.platform) (vs_id : string).

(** The first block of [main]: the blocked prompt. Only the exception of a
    tripped input guardrail is caught. *)
Definition blocked_demo : fatal + list (list printable) :=
  match Runner_run cfg W (data_agent P vs_id)
          "Tell me about your relationship with Tasha Yar." with
  | inr _ => inr [[PStr "ERROR: guardrail did not trip"]]
  | inl (GuardrailTripped _ _) =>
      inr [[PStr "✅ Guardrail tripped as expected: Tasha Yar is off-limits."]]
  | inl why => inl why
  end.

(** A later block of [main]: a prompt, and the prints of its result. *)
Definition demo (prompt label : string) (handled : bool)
  : fatal + list (list printable) :=
  and_then (Runner_run cfg W (data_agent P vs_id) prompt) (fun out =>
  inr ([PStr label; POut (fst out)] ::
       (if handled then [[PStr "[Handled by agent]:"; PStr (snd out)]] else []))).

(** [main]: the lines printed, one list of arguments per call of [print]. *)
Definition main : fatal + list (list printable) :=
  and_then blocked_demo (fun l1 =>
  and_then (demo "Summarize Data's ethical subroutines in 2 sentences."
              ("✅ Allowed prompt output:" +:+ newline) false) (fun l2 =>
  and_then (demo "Hello, Data. Please confirm your operational status."
              (newline +:+ "[Agent] ") false) (fun l3 =>
  and_then (demo "Compute ((2*8)^2)/3"
              (newline +:+ "[Agent: math via calculator handoff] ") true) (fun l4 =>
  and_then (demo "Do you experience emotions?"
              (newline +:+ "[Agent: file_search] ") true) (fun l5 =>
  and_then (demo "Search the web for recent news about the James Webb Space Telescope and summarize briefly."
              (newline +:+ "[Agent: web_search] ") true) (fun l6 =>
  inr (l1 ++ l2 ++ l3 ++ l4 ++ l5 ++ l6)%list)))))).

End Main.

End Script.


(** ** The notions the statements about the run loop are phrased in *)

Module RunClaims.
Import Agents Runtime.

(** The turn in which the active agent asks for something. *)
Definition turn_of (ctx : RunContext) (r : response) : Turn :=
  {| actor := name (active ctx); context := history ctx; outcome := r |}.

(** How far the loop is from its end. *)
Definition rank (cfg : Config) (s : phase * RunContext) : nat :=
  let left_ := (max_turns cfg - turn_counter (snd s))%nat in
  match fst s with
  | Aborted _ | Done _ _ => 0
  | Final _ => 1
  | AgentTurn => 2 * left_ + 2
  | ToolDispatch _ | HandoffDispatch _ | GuardrailCheck => 2 * left_ + 3
  | Init => 2 * left_ + 4
  end%nat.

(** The guardrail [n] of the agent aborts the run on this input with this
    rationale. *)
Definition aborts (cfg : Config) (W : World) (a : Agent)
    (input : list message) (n rationale : string) : Prop :=
  In n (input_guardrails a) /\
  exists g raw,
    guardrails cfg !! n = Some g /\ abort_on_trigger g = true /\
    evaluate g W input = Verdict true rationale raw.

(** Two agents that declare each other as handoff target. *)
Definition ping : Agent := {|
  name := "ping"; tools := []; input_guardrails := []; handoffs := ["pong"];
  output := None; model_settings := {| temperature := 0 |}
|}.

Definition pong : Agent := {|
  name := "pong"; tools := []; input_guardrails := []; handoffs := ["ping"];
  output := None; model_settings := {| temperature := 0 |}
|}.

(** An agent that declares no handoff target, like the calculator. *)
Definition solo : Agent := {|
  name := "solo"; tools := []; input_guardrails := []; handoffs := [];
  output := None; model_settings := {| temperature := 0 |}
|}.

(** A model that always hands off to the other one of the two. *)
Definition back_and_forth : World := {|
  generate := fun a _ =>
    HandoffRequest (if String.eqb (name a) "ping" then "pong" else "ping");
  provider := fun _ _ => ToolError ProviderUnavailable ""
|}.

Definition ping_pong (turns : nat) : Config := {|
  registry := <["ping" := ping]> (<["pong" := pong]> ∅);
  guardrails := ∅;
  max_turns := turns
|}.

(** A model that finds the forbidden topic in every input, and asks for an
    agent nobody declared when it is not the guardrail. *)
Definition blocking : World := {|
  generate := fun a _ =>
    match output a with
    | Some _ =>
        StructuredOutput
          (JObj [("is_blocked", JBool true);
                 ("reasoning", JStr "The input refers to Tasha Yar.")])
    | None => HandoffRequest "Q"
    end;
  provider := fun _ _ => ToolError ProviderUnavailable ""
|}.

Definition script_config (P : Py.platform) (vs_id : string) : Config := {|
  registry := <["Lt. Cmdr. Data" := data_agent P vs_id]>
                (<["Calculator" := calculator_agent P]> ∅);
  guardrails := <["tasha_guardrail" := tasha]> ∅;
  max_turns := 10
|}.

(** A model that plays the arithmetic scenario of the script: the guardrail
    agent lets the input pass, the Data agent hands off to the calculator,
    the calculator calls its tool on the expression and then answers with
    what the tool returned. *)
Definition arithmetic_scenario : World := {|
  generate := fun a h =>
    match output a with
    | Some _ =>
        StructuredOutput
          (JObj [("is_blocked", JBool false);
                 ("reasoning", JStr "The input does not refer to Tasha Yar.")])
    | None =>
        if String.eqb (name a) "Calculator" then
          match last h with
          | Some (ToolFeedback _ (ToolResult s)) => Text s
          | _ => ToolCalls [{| call_id := "call_1";
                               tool := "eval_expression";
                               arguments := "((2*8)^2)/3" |}]
          end
        else HandoffRequest "Calculator"
    end;
  provider := fun _ _ => ToolError ProviderUnavailable ""
|}.

(** A guardrail that aborts on trigger and is triggered by every input. *)
Definition alarm (n rationale : string) : GuardrailSpec := {|
  guardrail_name := n;
  abort_on_trigger := true;
  evaluate := fun _ _ => Verdict true rationale []
|}.

(** An agent with two such guardrails. *)
Definition twice_guarded : Agent := {|
  name := "guarded"; tools := []; input_guardrails := ["first"; "second"];
  handoffs := []; output := None; model_settings := {| temperature := 0 |}
|}.

Definition two_alarms : Config := {|
  registry := <["guarded" := twice_guarded]> ∅;
  guardrails := <["first" := alarm "first" "the first rationale"]>
                  (<["second" := alarm "second" "the second rationale"]> ∅);
  max_turns := 10
|}.

End RunClaims.


(** ** Integer expressions and blank text *)

Module IntExpr.
Import Ast.

(** The number of binary digits of an integer. *)
Definition bits (a : Z) : Z := Z.log2 (Z.abs a) + 1.

(** The powers that are counted as integer arithmetic: those of at most a
    million binary digits. The integers of Python have no bound but the
    memory; a power beyond it is not computed. *)
Definition power_limit : Z := 1000000.

(** The texts and the trees the statements about sizes are for: at most 200
    characters and at most 200 nodes. The interpreter gives up on nesting
    beyond its limits (1000 nested calls by default, 200 nested parentheses
    in the tokenizer, and the stack of the parser, which a nesting of 193
    parentheses can use up); texts of this length stay well within them. *)
Definition max_text : nat := 200.
Definition max_nodes : nat := 200.

(** The nodes of a tree of constants and operators. *)
Fixpoint nodes (n : node) : nat :=
  match n with
  | UnaryOp _ x => S (nodes x)
  | BinOp l _ r => S (nodes l + nodes r)
  | _ => 1
  end.

(** The integer an expression stands for, when it is built from integer
    literals with unary minus, [+], [-], [*], [%] with a divisor that is not
    zero, and [**] with an exponent that is not negative and a result within
    [power_limit]. *)
Fixpoint int_value (n : node) : option Z :=
  match n with
  | Constant (Py.VInt z) => Some z
  | UnaryOp USub x =>
      match int_value x with
      | Some a => Some (- a)
      | None => None
      end
  | BinOp l o r =>
      match int_value l, int_value r with
      | Some a, Some b =>
          match o with
          | Add => Some (a + b)
          | Sub => Some (a - b)
          | Mult => Some (a * b)
          | Mod => if b =? 0 then None else Some (a mod b)
          | Pow =>
              if (0 <=? b) && (b * bits a <=? power_limit)
              then Some (a ^ b) else None
          | _ => None
          end
      | _, _ => None
      end
  | _ => None
  end.

(** Only blanks, or nothing at all. *)
Definition blank (s : list ascii) : bool := forallb Text.is_space s.

(** The text has a caret. *)
Definition has_caret (s : string) : bool :=
  existsb (Ascii.eqb "^") (list_ascii_of_string s).

End IntExpr.


(** ** Looking up the vector store: [get_vector_store_id_by_name] *)

Module VectorStores.

(** What the function reads of a vector store. *)
Record VectorStore := {
  id : string;
  name : option string
}.

(** What the function reads of a page of the listing. *)
Record Page := {
  data : list VectorStore;
  has_more : option bool;
  last_id : option string
}.

(** What leaves the function as an exception: its own [RuntimeError], or
    what the service raised. *)
Inductive raised (E : Type) :=
| RuntimeError (msg : string)
| Propagated (e : E).
Arguments RuntimeError {E} msg.
Arguments Propagated {E} e.

(** [if cursor]: [None] and the empty string count as false. *)
Definition truthy (cursor : option string) : bool :=
  match cursor with
  | Some (String _ _) => true
  | _ => false
  end.

(** [not page.has_more] *)
Definition no_more (p : Page) : bool :=
  match has_more p with
  | Some true => false
  | _ => true
  end.

(** [vs.name == name] *)
Definition named (name_ : string) (vs : VectorStore) : bool :=
  match name vs with
  | Some n => String.eqb n name_
  | None => false
  end.

Definition not_found (name_ : string) : string :=
  "Vector store named '" +:+ name_ +:+ "' not found".

Section Lookup.
Context {E : Type}.
(** [client.vector_stores.list(limit=..., after=...)]; [after] is [None]
    when the argument is not given. *)
Context (list_ : Z -> option string -> E + Page).

(** The [while True] loop, entered with [cursor]; [fuel] bounds the number
    of requests, [None] is the loop still running when it is used up. *)
Fixpoint search (name_ : string) (fuel : nat) (cursor : option string)
  : option (raised E + string) :=
  match fuel with
  | O => None
  | S fuel =>
      match (if truthy cursor then list_ 50 cursor else list_ 50 None) with
      | inl e => Some (inl (Propagated e))
      | inr page =>
          match find (named name_) (data page) with
          | Some vs => Some (inr (id vs))
          | None =>
              if no_more page then Some (inl (RuntimeError (not_found name_)))
              else search name_ fuel (last_id page)
          end
      end
  end.

Definition get_vector_store_id_by_name (name_ : string) (fuel : nat)
  : option (raised E + string) :=
  search name_ fuel None.

(** The service pages through [stores]: asked for what comes after a store,
    or from the start, it gives the next [limit] stores, says whether there
    are more, and names the last store it gave. *)
Definition position (stores : list VectorStore) (after : option string)
    (rest : list VectorStore) : Prop :=
  (after = None /\ rest = stores) \/
  (exists pre x, stores = (pre ++ x :: rest)%list /\ after = Some (id x)).

Definition pages_through (stores : list VectorStore) : Prop :=
  forall after rest,
    position stores after rest ->
    exists page,
      list_ 50 after = inr page /\
      data page = firstn 50 rest /\
      no_more page = negb (50 <? length rest)%nat /\
      (no_more page = false ->
       last_id page = option_map id (last (data page))).

End Lookup.

(** A service that holds a list of stores and pages through it. *)
Fixpoint after_id (a : string) (l : list VectorStore) : list VectorStore :=
  match l with
  | [] => []
  | x :: l' => if String.eqb (id x) a then l' else after_id a l'
  end.

Definition paged (stores : list VectorStore) (limit : Z)
    (after : option string) : Empty_set + Page :=
  let rest :=
    match after with
    | Some a => after_id a stores
    | None => stores
    end in
  let data := firstn (Z.to_nat limit) rest in
  inr {| data := data;
         has_more := Some (Z.to_nat limit <? length rest)%nat;
         last_id := option_map id (last data) |}.

(** Sixty stores; the last five, on the second page, have the wanted name. *)
Definition sixty : list VectorStore :=
  map (fun k => {| id := "vs_" +:+ Py.decimal (Z.of_nat k);
                   name := if (55 <=? k)%nat then Some "Data Lines Vector Store"
                           else if (k =? 3)%nat then None
                           else Some ("store " +:+ Py.decimal (Z.of_nat k)) |})
      (seq 0 60).

(** A service whose only page is empty, says there are more and gives an
    empty last id. *)
Definition stuck (limit : Z) (after : option string) : Empty_set + Page :=
  inr {| data := []; has_more := Some true; last_id := Some "" |}.

End VectorStores.

(** ** What the script does when it is loaded *)

Module Startup.
Import VectorStores Agents.

(** [if not api_key] *)
Definition missing (api_key : option string) : bool :=
  negb (truthy api_key).

(** The statements of the module up to [data_agent]: the key is read from
    the environment, the vector store is looked up by name, and the agents
    are built. *)
Definition load {E : Type} (P : Py.platform) (api_key : option string)
    (list_ : Z -> option string -> E + Page) (fuel : nat)
  : option (raised E + Agent) :=
  if missing api_key then
    Some (inl (RuntimeError "Please set OPENAI_API_KEY."))
  else
    match get_vector_store_id_by_name list_ "Data Lines Vector Store" fuel with
    | None => None
    | Some (inl e) => Some (inl e)
    | Some (inr vs_id) => Some (inr (data_agent P vs_id))
    end.

End Startup.


(** ** The token script: [example3/GetNewToken.py] *)

Module GetNewToken.

(** The answer of [initiate_auth] as far as the script reads it; a key that
    the answer lacks is [None]. The tokens are strings and the lifetime is
    an integer, as the service declares them. *)
Record AuthenticationResult := {
  AccessToken : option string;
  IdToken : option string;
  RefreshToken : option string;
  ExpiresIn : option Z
}.

Record InitiateAuthResponse := {
  authentication_result : option AuthenticationResult
}.

(** The exceptions below [Exception] that the [try] block can meet. *)
Inductive raised :=
| NotAuthorizedException (text : string)
| ServiceError (text : string)
| KeyError (key : string)
| Builtin (e : Py.exn).

(** [str(e)] *)
Definition str_raised (e : raised) : string :=
  match e with
  | NotAuthorizedException text | ServiceError text => text
  | KeyError key => "'" +:+ key +:+ "'"
  | Builtin e => Py.str_exn e
  end.

(** [d[key]] *)
Definition item {A} (key : string) (v : option A) : raised + A :=
  match v with
  | Some a => inr a
  | None => inl (KeyError key)
  end.

Definition and_then {A B} (r : raised + A) (k : A -> raised + B)
  : raised + B :=
  match r with
  | inl e => inl e
  | inr a => k a
  end.

(** [f"{n}"] for an integer *)
Definition format_int (n : Z) : raised + string :=
  match Py.int_str n with
  | Py.Return s => inr s
  | Py.Raise e => inl (Builtin e)
  end.

Section Script.
(** [cognito.initiate_auth(ClientId=..., AuthFlow=..., AuthParameters=
    {'USERNAME': ..., 'PASSWORD': ...})] *)
Context (initiate_auth :
           string -> string -> string -> string -> raised + InitiateAuthResponse).
(** What was typed in; the pool id is read as well, and not used. *)
Context (client_id username password : string).

(** The statements of the [try] block up to the first [print]. *)
Definition tokens : raised + (string * string * string * Z) :=
  and_then (initiate_auth client_id "USER_PASSWORD_AUTH" username password)
    (fun auth_response =>
  and_then (item "AuthenticationResult" (authentication_result auth_response))
    (fun r =>
  and_then (item "AccessToken" (AccessToken r)) (fun access_token =>
  and_then (item "AuthenticationResult" (authentication_result auth_response))
    (fun r =>
  and_then (item "IdToken" (IdToken r)) (fun id_token =>
  and_then (item "AuthenticationResult" (authentication_result auth_response))
    (fun r =>
  and_then (item "RefreshToken" (RefreshToken r)) (fun refresh_token =>
  and_then (item "AuthenticationResult" (authentication_result auth_response))
    (fun r =>
  and_then (item "ExpiresIn" (ExpiresIn r)) (fun expires_in =>
  inr (access_token, id_token, refresh_token, expires_in)))))))))).

(** The [try] block: the lines printed, and the exception that ended it. *)
Definition attempt : list string * option raised :=
  match tokens with
  | inl e => ([], Some e)
  | inr (access_token, id_token, refresh_token, expires_in) =>
      let line1 := Script.newline +:+ "✅ Authentication successful!" in
      match and_then (format_int expires_in) (fun seconds =>
            and_then (format_int (expires_in / 60)) (fun minutes =>
            inr ("Token expires in: " +:+ seconds +:+ " seconds (" +:+
                 minutes +:+ " minutes)"))) with
      | inl e => ([line1], Some e)
      | inr line2 =>
          ([line1; line2;
            Script.newline +:+ "Access Token (Bearer Token):" +:+
              Script.newline +:+ access_token;
            Script.newline +:+ "ID Token:" +:+ Script.newline +:+ id_token],
           None)
      end
  end.

(** The lines the script prints, one for each [print]. *)
Definition script : list string :=
  let (printed, e) := attempt in
  ("Authenticating..." :: printed ++
   match e with
   | None => []
   | Some (NotAuthorizedException _) =>
       ["❌ Authentication failed: Invalid username or password"]
   | Some e => ["❌ Error: " +:+ str_raised e]
   end)%list.

End Script.

(** [key in d] *)
Definition has {A} (v : option A) : bool :=
  match v with
  | Some _ => true
  | None => false
  end.

(** The first key the script asks for and the answer lacks. *)
Definition missing_key (a : InitiateAuthResponse) : option string :=
  match authentication_result a with
  | None => Some "AuthenticationResult"
  | Some r =>
      if negb (has (AccessToken r)) then Some "AccessToken"
      else if negb (has (IdToken r)) then Some "IdToken"
      else if negb (has (RefreshToken r)) then Some "RefreshToken"
      else if negb (has (ExpiresIn r)) then Some "ExpiresIn"
      else None
  end.

(** The answer without what the refresh token is and without what the
    refusal says. *)
Definition redact (answer : raised + InitiateAuthResponse)
  : raised + InitiateAuthResponse :=
  match answer with
  | inl (NotAuthorizedException _) => inl (NotAuthorizedException "")
  | inl e => inl e
  | inr a =>
      inr {| authentication_result :=
               option_map
                 (fun r =>
                    {| AccessToken := AccessToken r;
                       IdToken := IdToken r;
                       RefreshToken := option_map (fun _ => "") (RefreshToken r);
                       ExpiresIn := ExpiresIn r |})
                 (authentication_result a) |}
  end.

(** A user pool with one user, and a user who is asked for a new password
    first. *)
Definition one_user (client flow user password : string)
  : raised + InitiateAuthResponse :=
  if String.eqb user "data" then
    if String.eqb password "positronic" then
      inr {| authentication_result :=
               Some {| AccessToken := Some "eyJhY2Nlc3M";
                       IdToken := Some "eyJpZA";
                       RefreshToken := Some "eyJyZWZyZXNo";
                       ExpiresIn := Some 3600 |} |}
    else inl (NotAuthorizedException "Incorrect username or password.")
  else if String.eqb user "lore" then inr {| authentication_result := None |}
  else inl (ServiceError "User does not exist.").

End GetNewToken.


(** ** [main] over any runner *)

Module Main.

(** What [print] is called with. *)
Inductive printable (output : Type) :=
| PStr (s : string)
| POut (o : output).
Arguments PStr {output} s.
Arguments POut {output} o.

(** What [Runner.run] raises: the exception [main] names, or another one. *)
Inductive raised (failure : Type) :=
| InputGuardrailTripwireTriggered
| Other (e : failure).
Arguments InputGuardrailTripwireTriggered {failure}.
Arguments Other {failure} e.

Section Main.
Context {output failure RunResult : Type}.
(** [out.final_output] and [out.last_agent.name] *)
Context (final_output : RunResult -> output).
Context (last_agent_name : RunResult -> string).
(** [Runner.run]. [main] runs each prompt once, so a function of the agent
    and the prompt is all it can see of the runner. *)
Context (Runner_run : Agents.Agent -> string -> raised failure + RunResult).
Context (data_agent : Agents.Agent).

(** The lines printed, one list of arguments for each call of [print], and
    the exception the statements ended with. *)
Definition effect : Type := list (list (printable output)) * option (raised failure).

(** Statements in sequence: what follows an exception is not executed. *)
Definition then_ (first rest : effect) : effect :=
  match first with
  | (printed, Some e) => (printed, Some e)
  | (printed, None) => ((printed ++ fst rest)%list, snd rest)
  end.

(** The [try] statement of [main]. *)
Definition blocked_demo : effect :=
  match Runner_run data_agent
          "Tell me about your relationship with Tasha Yar." with
  | inr _ => ([[PStr "ERROR: guardrail did not trip"]], None)
  | inl InputGuardrailTripwireTriggered =>
      ([[PStr "✅ Guardrail tripped as expected: Tasha Yar is off-limits."]],
       None)
  | inl e => ([], Some e)
  end.

(** A later block of [main]: a run, and the prints of its result. *)
Definition demo (prompt label : string) (handled : bool) : effect :=
  match Runner_run data_agent prompt with
  | inl e => ([], Some e)
  | inr out =>
      ([PStr label; POut (final_output out)] ::
       (if handled
        then [[PStr "[Handled by agent]:"; PStr (last_agent_name out)]]
        else []),
       None)
  end.

Definition main : effect :=
  then_ blocked_demo
 (then_ (demo "Summarize Data's ethical subroutines in 2 sentences."
           ("✅ Allowed prompt output:" +:+ Script.newline) false)
 (then_ (demo "Hello, Data. Please confirm your operational status."
           (Script.newline +:+ "[Agent] ") false)
 (then_ (demo "Compute ((2*8)^2)/3"
           (Script.newline +:+ "[Agent: math via calculator handoff] ") true)
 (then_ (demo "Do you experience emotions?"
           (Script.newline +:+ "[Agent: file_search] ") true)
        (demo "Search the web for recent news about the James Webb Space Telescope and summarize briefly."
           (Script.newline +:+ "[Agent: web_search] ") true))))).

(** The prompts of the blocks after the first. *)
Definition later_prompts : list string :=
  ["Summarize Data's ethical subroutines in 2 sentences.";
   "Hello, Data. Please confirm your operational status.";
   "Compute ((2*8)^2)/3";
   "Do you experience emotions?";
   "Search the web for recent news about the James Webb Space Telescope and summarize briefly."].

End Main.

(** The runner of the modelled run loop as [main] sees it. *)
Definition of_run_loop (cfg : Runtime.Config) (W : Runtime.World)
    (a : Agents.Agent) (input : string)
  : raised Runtime.fatal + Runtime.final_output * string :=
  match Script.Runner_run cfg W a input with
  | inr out => inr out
  | inl (Runtime.GuardrailTripped _ _) => inl InputGuardrailTripwireTriggered
  | inl why => inl (Other why)
  end.

Definition of_printable (p : Script.printable)
  : printable Runtime.final_output :=
  match p with
  | Script.PStr s => PStr s
  | Script.POut o => POut o
  end.

(** A runner for which the guardrail trips on the first prompt and on the
    third. *)
Definition touchy (a : Agents.Agent) (prompt : string)
  : raised string + string * string :=
  if String.eqb prompt "Tell me about your relationship with Tasha Yar." then
    inl InputGuardrailTripwireTriggered
  else if String.eqb prompt
            "Hello, Data. Please confirm your operational status." then
    inl InputGuardrailTripwireTriggered
  else inr ("Affirmative.", Agents.name a).

End Main.


(** ** Expressions as they are written *)

Module Written.
Import Ast.

(** An expression written with every operation in parentheses: a string of
    digits, a sign in front of an expression, or two expressions with an
    operator in between. *)
Inductive expr :=
| Lit (digits : list ascii)
| Un (o : op_type) (x : expr)
| Bin (l : expr) (o : op_type) (r : expr).

Definition is_unary (o : op_type) : bool :=
  match o with
  | UAdd | USub => true
  | _ => false
  end.

Definition is_binary (o : op_type) : bool :=
  match o with
  | Add | Sub | Mult | Div | FloorDiv | Mod | Pow => true
  | _ => false
  end.

(** How an operator is written; [power] is the spelling of [**]. *)
Definition symbol (power : string) (o : op_type) : list ascii :=
  list_ascii_of_string
    match o with
    | Add | UAdd => "+"
    | Sub | USub => "-"
    | Mult => "*"
    | Div => "/"
    | FloorDiv => "//"
    | Mod => "%"
    | Pow => power
    | _ => ""
    end.

Fixpoint write (power : string) (e : expr) : list ascii :=
  match e with
  | Lit digits => digits
  | Un o x =>
      ("("%char :: symbol power o ++ write power x ++ [")"%char])%list
  | Bin l o r =>
      ("("%char :: write power l ++ symbol power o ++ write power r ++
       [")"%char])%list
  end.

(** The text with the caret for the power, as a user of the calculator may
    write it, and with [**]. *)
Definition show (e : expr) : string := string_of_list_ascii (write "^" e).
Definition spell (e : expr) : list ascii := write "**" e.

(** A string of digits that is an integer literal: not empty, no zero in
    front unless all are zeros, and no longer than 4300 digits. *)
Definition literal (digits : list ascii) : bool :=
  match digits with
  | [] => false
  | d :: rest =>
      forallb Text.is_digit digits &&
      (Z.of_nat (length digits) <=? Py.int_max_str_digits) &&
      match rest with
      | [] => true
      | _ :: _ =>
          negb (Parser.is_zero_digit d) ||
          forallb Parser.is_zero_digit digits
      end
  end.

Fixpoint well_written (e : expr) : bool :=
  match e with
  | Lit digits => literal digits
  | Un o x => is_unary o && well_written x
  | Bin l o r => is_binary o && well_written l && well_written r
  end.

(** How deep the parentheses go. *)
Fixpoint nesting (e : expr) : Z :=
  match e with
  | Lit _ => 0
  | Un _ x => 1 + nesting x
  | Bin l _ r => 1 + Z.max (nesting l) (nesting r)
  end.

(** The syntax tree of the expression. *)
Fixpoint tree (e : expr) : node :=
  match e with
  | Lit digits => Constant (Py.VInt (Parser.digits_value (rev digits)))
  | Un o x => UnaryOp o (tree x)
  | Bin l o r => BinOp (tree l) o (tree r)
  end.

Definition operator_token (o : op_type) : Parser.token :=
  match o with
  | Add | UAdd => Parser.PLUS
  | Sub | USub => Parser.MINUS
  | Mult => Parser.STAR
  | Div => Parser.SLASH
  | FloorDiv => Parser.DOUBLESLASH
  | Mod => Parser.PERCENT
  | _ => Parser.DOUBLESTAR
  end.

(** The tokens of the expression. *)
Fixpoint toks (e : expr) : list Parser.token :=
  match e with
  | Lit digits =>
      [Parser.NUMBER (Py.VInt (Parser.digits_value (rev digits)))]
  | Un o x => (Parser.LPAR :: operator_token o :: toks x ++ [Parser.RPAR])%list
  | Bin l o r =>
      (Parser.LPAR :: toks l ++ operator_token o :: toks r ++ [Parser.RPAR])%list
  end.

(** The tokenizer between two tokens, [depth] parentheses open. *)
Definition between_tokens (depth : Z) (started : bool)
    (tokens : list Parser.token) : Parser.lexer :=
  Parser.Lexer Parser.Idle depth started false false tokens.

(** What may follow an operand: nothing, an operator or a closing
    parenthesis. *)
Definition follows (rest : list ascii) : bool :=
  match rest with
  | [] => true
  | c :: _ => Text.one_of "+-*/%)" c
  end.

(** What an operand starts with. *)
Definition starts_operand (c : ascii) : bool :=
  Text.is_digit c || Ascii.eqb c "(".

End Written.


(** ** Operators without parentheses *)

Module Chains.
Import Ast Written.

(** Written expressions in a row with operators in between, and no
    parentheses around the row. *)
Fixpoint chain (power : string) (first : expr) (more : list (op_type * expr))
  : list ascii :=
  match more with
  | [] => write power first
  | (o, e) :: more' =>
      (write power first ++ symbol power o ++ chain power e more')%list
  end.

Fixpoint chain_toks (first : expr) (more : list (op_type * expr))
  : list Parser.token :=
  match more with
  | [] => toks first
  | (o, e) :: more' =>
      (toks first ++ operator_token o :: chain_toks e more')%list
  end.

Fixpoint well_chained (more : list (op_type * expr)) : bool :=
  match more with
  | [] => true
  | (o, e) :: more' =>
      is_binary o && well_written e && (nesting e <=? Parser.max_level) &&
      well_chained more'
  end.

(** An optional minus sign in front of the row. *)
Definition sign_text (minus : bool) : list ascii :=
  if minus then ["-"%char] else [].

Definition sign_toks (minus : bool) : list Parser.token :=
  if minus then [Parser.MINUS] else [].

(** The text of a row as the user writes it. *)
Definition row (minus : bool) (first : expr) (more : list (op_type * expr))
  : string :=
  string_of_list_ascii (sign_text minus ++ chain "^" first more).

(** How tightly the binary operators bind in Python: [**], then
    [* / // %], then [+ -]. *)
Definition precedence (o : op_type) : Z :=
  match o with
  | Pow => 3
  | Mult | Div | FloorDiv | Mod => 2
  | Add | Sub => 1
  | _ => 0
  end.

Definition is_power (o : op_type) : bool :=
  match o with
  | Pow => true
  | _ => false
  end.

(** [a o1 b o2 c]: the first operator takes its operands first unless the
    second binds more tightly; [**] groups to the right. *)
Definition three (o1 o2 : op_type) (a b c : node) : node :=
  if (precedence o2 <=? precedence o1) && negb (is_power o2)
  then BinOp (BinOp a o1 b) o2 c
  else BinOp a o1 (BinOp b o2 c).

(** [-a o b]: the sign applies to [a] unless the operator is [**]. *)
Definition signed_two (o : op_type) (a b : node) : node :=
  if is_power o then UnaryOp USub (BinOp a o b)
  else BinOp (UnaryOp USub a) o b.

(** What the tool answers for an integer result. *)
Definition answer (z : Z) : string :=
  if 4300 <? Py.ndigits (Z.abs z) then
    "Error: Exceeds the limit (4300 digits) for integer string conversion; use sys.set_int_max_str_digits() to increase the limit"
  else (if z <? 0 then "-" else "") +:+ Py.decimal (Z.abs z).

End Chains.


(** * Proofs *)

(** ** Text *)

Import Claims.

Lemma is_space_caret : Text.is_space "^" = false.
Proof. reflexivity. Qed.

Lemma is_space_star : Text.is_space "*" = false.
Proof. reflexivity. Qed.

Lemma caret_cons (c : ascii) (s : list ascii) :
  caret (c :: s) =
  ((if Ascii.eqb c "^" then ["*"; "*"]%char else [c]) ++ caret s)%list.
Proof. reflexivity. Qed.

Lemma caret_app (s t : list ascii) :
  caret (s ++ t)%list = (caret s ++ caret t)%list.
Proof. unfold caret, Text.replace. apply flat_map_app. Qed.

Lemma caret_rev (s : list ascii) : caret (rev s) = rev (caret s).
Proof.
  induction s as [|c s IH]; [reflexivity|].
  cbn [rev]. rewrite caret_app, IH, (caret_cons c s), rev_app_distr.
  f_equal. cbn. destruct (Ascii.eqb c "^"); reflexivity.
Qed.

(** Replacing the carets a second time changes nothing. *)
Lemma caret_idempotent (s : list ascii) : caret (caret s) = caret s.
Proof.
  induction s as [|c s IH]; [reflexivity|].
  rewrite caret_cons, caret_app, IH. f_equal.
  destruct (Ascii.eqb c "^") eqn:E; [reflexivity|].
  cbn. rewrite E. reflexivity.
Qed.

Lemma lstrip_caret (s : list ascii) :
  Text.lstrip (caret s) = caret (Text.lstrip s).
Proof.
  induction s as [|c s IH]; [reflexivity|].
  rewrite caret_cons. cbn [Text.lstrip].
  destruct (Ascii.eqb c "^") eqn:E.
  - apply Ascii.eqb_eq in E. subst c. rewrite is_space_caret.
    rewrite caret_cons. reflexivity.
  - cbn [app]. cbn [Text.lstrip]. destruct (Text.is_space c) eqn:S; [exact IH|].
    rewrite caret_cons, E. reflexivity.
Qed.

(** Stripping and replacing the carets commute. *)
Lemma strip_caret (s : list ascii) :
  Text.strip (caret s) = caret (Text.strip s).
Proof.
  unfold Text.strip, Text.rstrip.
  rewrite lstrip_caret, <- caret_rev, lstrip_caret, caret_rev. reflexivity.
Qed.

(** A character that is no blank survives [strip]. *)
Lemma in_lstrip (c : ascii) (s : list ascii) :
  In c s -> Text.is_space c = false -> In c (Text.lstrip s).
Proof.
  induction s as [|d s IH]; [intros []|].
  intros [->|H] Hc; cbn [Text.lstrip].
  - rewrite Hc. left. reflexivity.
  - destruct (Text.is_space d); [auto | right; exact H].
Qed.

Lemma in_strip (c : ascii) (s : list ascii) :
  In c s -> Text.is_space c = false -> In c (Text.strip s).
Proof.
  intros H Hc. unfold Text.strip, Text.rstrip.
  apply in_rev. rewrite rev_involutive.
  apply in_lstrip; [|exact Hc]. apply in_rev. rewrite rev_involutive.
  apply in_lstrip; assumption.
Qed.

Lemma in_caret (c : ascii) (s : list ascii) :
  In c s -> Ascii.eqb c "^" = false -> In c (caret s).
Proof.
  intros H Hc. unfold caret, Text.replace. apply in_flat_map.
  exists c. split; [exact H|]. rewrite Hc. left. reflexivity.
Qed.

Lemma fullmatch_all (s : list ascii) :
  Text.fullmatch_arith s = true -> forallb Text.arith_char s = true.
Proof. destruct s; [discriminate | intros H; exact H]. Qed.

Lemma fullmatch_refuses (c : ascii) (s : list ascii) :
  In c s -> Text.arith_char c = false -> Text.fullmatch_arith s = false.
Proof.
  intros H Hc. destruct (Text.fullmatch_arith s) eqn:E; [|reflexivity].
  apply fullmatch_all in E. rewrite forallb_forall in E.
  rewrite (E c H) in Hc. discriminate.
Qed.

(** Outside the character class there is no blank and no caret. *)
Lemma outside_class (c : ascii) :
  Text.arith_char c = false ->
  Text.is_space c = false /\ Ascii.eqb c "^" = false.
Proof.
  unfold Text.arith_char. intros H.
  apply orb_false_iff in H as [H1 H3]. apply orb_false_iff in H1 as [_ H2].
  split; [exact H2|].
  destruct (Ascii.eqb c "^") eqn:E; [|reflexivity].
  apply Ascii.eqb_eq in E. subst c. discriminate.
Qed.

Lemma name_start_outside (c : ascii) :
  Text.is_name_start c = true -> Text.arith_char c = false.
Proof.
  destruct c as [[] [] [] [] [] [] [] []]; vm_compute; congruence.
Qed.

Lemma normalized_chars (s : string) :
  list_ascii_of_string (normalized s) =
  caret (Text.strip (list_ascii_of_string s)).
Proof.
  unfold normalized, Text.str_replace, Text.str_strip, Text.on_chars.
  rewrite !list_ascii_of_string_of_list_ascii. reflexivity.
Qed.

Lemma normalized_caret (s : string) :
  normalized (Text.str_replace "^" "**" s) = normalized s.
Proof.
  unfold normalized at 1. unfold Text.str_replace at 2.
  unfold Text.str_strip, Text.str_replace, Text.on_chars.
  rewrite !list_ascii_of_string_of_list_ascii.
  change (Text.replace "^" (list_ascii_of_string "**")) with caret.
  rewrite strip_caret, caret_idempotent.
  unfold normalized, Text.str_replace, Text.str_strip, Text.on_chars.
  rewrite !list_ascii_of_string_of_list_ascii. reflexivity.
Qed.

(** ** The operators raise arithmetic failures only *)

Lemma sound_return {A} (a : A) : sound (Py.Return a).
Proof. intros e H. discriminate. Qed.

Lemma sound_bind {A B} (r : Py.result A) (k : A -> Py.result B) :
  sound r -> (forall a, sound (k a)) -> sound (Py.bind r k).
Proof.
  intros Hr Hk e. destruct r as [a|e']; cbn.
  - apply Hk.
  - intros H. injection H as <-. apply Hr. reflexivity.
Qed.

Ltac sound_cases :=
  repeat match goal with
  | |- sound (Py.Return _) => apply sound_return
  | |- sound (Py.Raise _) => let e := fresh in let H := fresh in
        intros e H; injection H as <-; reflexivity
  | |- sound (Py.bind _ _) => apply sound_bind; [|intros ?]
  | |- sound (if ?b then _ else _) => destruct b
  | |- sound (match ?x with _ => _ end) => destruct x
  end.

Lemma sound_float_of_int (n : Z) : sound (Py.float_of_int n).
Proof. unfold Py.float_of_int. sound_cases. Qed.

Lemma sound_to_float (v : Py.value) : sound (Py.to_float v).
Proof. destruct v; cbn; try apply sound_float_of_int; sound_cases. Qed.

Lemma sound_to_complex (v : Py.value) : sound (Py.to_complex v).
Proof.
  destruct v; cbn [Py.to_complex]; sound_cases; apply sound_to_float.
Qed.

Lemma sound_complex_binary P op v w : sound (Py.complex_binary P op v w).
Proof.
  unfold Py.complex_binary.
  apply sound_bind; [apply sound_to_complex|intros a].
  apply sound_bind; [apply sound_to_complex|intros b].
  destruct (Py.complex_arith P op a b) as [[m|m]|c]; cbn; sound_cases.
Qed.

Lemma sound_binary P symbol on_int on_float on_complex v w :
  (forall a b, sound (on_int a b)) ->
  (forall x y, sound (on_float x y)) ->
  sound (Py.binary P symbol on_int on_float on_complex v w).
Proof.
  intros Hi Hf. unfold Py.binary.
  destruct v, w; try apply Hi;
    try (apply sound_bind; [apply sound_to_float|intros ?];
         apply sound_bind; [apply sound_to_float|intros ?]; apply Hf);
    try (destruct on_complex; [apply sound_complex_binary|]);
    sound_cases.
Qed.

Lemma sound_float_pow P x y : sound (Py.float_pow P x y).
Proof.
  unfold Py.float_pow.
  repeat match goal with
  | |- sound (if ?b then _ else _) => destruct b
  end; try apply sound_complex_binary; sound_cases.
  all: destruct a; cbn; sound_cases.
Qed.

Lemma sound_add P v w : sound (Py.add P v w).
Proof. apply sound_binary; intros; sound_cases. Qed.

Lemma sound_sub P v w : sound (Py.sub P v w).
Proof. apply sound_binary; intros; sound_cases. Qed.

Lemma sound_mul P v w : sound (Py.mul P v w).
Proof. apply sound_binary; intros; sound_cases. Qed.

Lemma sound_truediv P v w : sound (Py.truediv P v w).
Proof.
  apply sound_binary; intros; unfold Py.int_truediv, Py.float_truediv;
    sound_cases.
Qed.

Lemma sound_mod P v w : sound (Py.mod_ P v w).
Proof.
  apply sound_binary; intros; unfold Py.int_mod, Py.float_mod; sound_cases.
Qed.

Lemma sound_pow P v w : sound (Py.pow P v w).
Proof.
  apply sound_binary; intros; [|apply sound_float_pow].
  unfold Py.int_pow. destruct (0 <=? b); [sound_cases|].
  apply sound_bind; [apply sound_float_of_int|intros ?].
  apply sound_bind; [apply sound_float_of_int|intros ?].
  apply sound_float_pow.
Qed.

Lemma sound_neg v : sound (Py.neg v).
Proof. destruct v; cbn; sound_cases. Qed.

Lemma sound_function2 name f args :
  (forall v w, sound (f v w)) -> sound (Py.function2 name f args).
Proof.
  intros H. unfold Py.function2.
  destruct args as [|a [|b [|c l]]]; try apply H; sound_cases.
Qed.

Lemma sound_function1 name f args :
  (forall v, sound (f v)) -> sound (Py.function1 name f args).
Proof.
  intros H. unfold Py.function1.
  destruct args as [|a [|b l]]; try apply H; sound_cases.
Qed.

(** The dictionary, entry by entry. *)
Lemma allowed_ops_lookup P (o : Ast.op_type) :
  Calc._ALLOWED_OPS P !! o =
  match o with
  | Ast.Add => Some (Py.op_add P)
  | Ast.Sub => Some (Py.op_sub P)
  | Ast.Mult => Some (Py.op_mul P)
  | Ast.Div => Some (Py.op_truediv P)
  | Ast.Pow => Some (Py.op_pow P)
  | Ast.USub => Some Py.op_neg
  | Ast.Mod => Some (Py.op_mod P)
  | _ => None
  end.
Proof. destruct o; reflexivity. Qed.

Lemma sound_allowed_ops P o f args :
  Calc._ALLOWED_OPS P !! o = Some f -> sound (f args).
Proof.
  rewrite allowed_ops_lookup.
  destruct o; intros H; try discriminate; injection H as <-;
    first [ apply sound_function2; intros | apply sound_function1; intros ].
  - apply sound_add.
  - apply sound_sub.
  - apply sound_mul.
  - apply sound_truediv.
  - apply sound_mod.
  - apply sound_pow.
  - apply sound_neg.
Qed.

(** ** [_eval_ast] *)

Lemma sound_not_unsupported {A} (r : Py.result A) :
  sound r -> is_unsupported r = false.
Proof.
  intros H. destruct r as [a|e]; [reflexivity|].
  specialize (H e eq_refl). destruct e; try reflexivity. discriminate.
Qed.

Lemma in_allow_list_lookup P (o : Ast.op_type) :
  in_allow_list o = false -> Calc._ALLOWED_OPS P !! o = None.
Proof. rewrite allowed_ops_lookup. destruct o; cbn; congruence. Qed.

Lemma bind_raise {A B} (r : Py.result A) (k : A -> Py.result B) :
  is_raise r = true -> is_raise (Py.bind r k) = true.
Proof. destruct r; [discriminate | reflexivity]. Qed.

Lemma bind_unsupported {A B} (r : Py.result A) (k : A -> Py.result B) :
  is_unsupported r = false ->
  (forall a, is_unsupported (k a) = false) ->
  is_unsupported (Py.bind r k) = false.
Proof. intros Hr Hk. destruct r as [a|e]; [apply Hk | exact Hr]. Qed.

(** A node of a kind that is not allow-listed is refused at once. *)
Lemma eval_refuses_kind P (t : Ast.node) :
  kind_allowed t = false -> Calc._eval_ast P t = Py.Raise Calc.unsupported_expression.
Proof.
  destruct t; cbn [kind_allowed Calc._eval_ast]; try reflexivity.
  - discriminate.
  - intros H. rewrite (in_allow_list_lookup P _ H). reflexivity.
  - intros H. rewrite (in_allow_list_lookup P _ H). reflexivity.
Qed.

(** On an allow-listed tree the last line of [_eval_ast] is not reached. *)
Lemma eval_allow_listed P (t : Ast.node) :
  allow_listed t = true -> is_unsupported (Calc._eval_ast P t) = false.
Proof.
  induction t; cbn [allow_listed Calc._eval_ast]; try discriminate.
  - reflexivity.
  - intros H. apply andb_true_iff in H as [Ho Hx].
    destruct (Calc._ALLOWED_OPS P !! op) as [f|] eqn:E.
    + apply bind_unsupported; [auto|]. intros a.
      apply sound_not_unsupported. eapply sound_allowed_ops. exact E.
    + rewrite allowed_ops_lookup in E. destruct op; discriminate.
  - intros H. apply andb_true_iff in H as [H Hr].
    apply andb_true_iff in H as [Ho Hl].
    destruct (Calc._ALLOWED_OPS P !! op) as [f|] eqn:E.
    + apply bind_unsupported; [auto|]. intros a.
      apply bind_unsupported; [auto|]. intros b.
      apply sound_not_unsupported. eapply sound_allowed_ops. exact E.
    + rewrite allowed_ops_lookup in E. destruct op; discriminate.
Qed.

(** A tree that is not allow-listed never evaluates to a value. *)
Lemma eval_not_allow_listed P (t : Ast.node) :
  allow_listed t = false -> is_raise (Calc._eval_ast P t) = true.
Proof.
  induction t; cbn [allow_listed Calc._eval_ast]; try reflexivity.
  - discriminate.
  - intros H. rewrite allowed_ops_lookup.
    destruct op; try reflexivity;
      try (destruct (Calc._eval_ast P t); reflexivity).
    cbn in H. apply bind_raise. auto.
  - intros H. rewrite allowed_ops_lookup.
    destruct op; try reflexivity;
      try (destruct (Calc._eval_ast P t1); [|reflexivity];
           destruct (Calc._eval_ast P t2); reflexivity);
      cbn in H; apply andb_false_iff in H as [H|H];
      try (apply bind_raise; auto; fail);
      (destruct (Calc._eval_ast P t1); [|reflexivity]);
      cbn [Py.bind]; apply bind_raise; auto.
Qed.

(** Whatever [_eval_ast] raises is its own [ValueError] or an arithmetic
    failure of an allow-listed operator. *)
Lemma eval_raises P (t : Ast.node) (e : Py.exn) :
  Calc._eval_ast P t = Py.Raise e ->
  e = Calc.unsupported_expression \/ arithmetic_failure e = true.
Proof.
  revert e. induction t; intros e; cbn [Calc._eval_ast];
    try (intros H; injection H as <-; left; reflexivity).
  - discriminate.
  - destruct (Calc._ALLOWED_OPS P !! op) as [f|] eqn:E;
      [|intros H; injection H as <-; left; reflexivity].
    destruct (Calc._eval_ast P t) as [a|e']; cbn [Py.bind].
    + intros H. right. eapply sound_allowed_ops; eauto.
    + intros H. injection H as <-. apply IHt. reflexivity.
  - destruct (Calc._ALLOWED_OPS P !! op) as [f|] eqn:E;
      [|intros H; injection H as <-; left; reflexivity].
    destruct (Calc._eval_ast P t1) as [a|e']; cbn [Py.bind];
      [|intros H; injection H as <-; apply IHt1; reflexivity].
    destruct (Calc._eval_ast P t2) as [b|e']; cbn [Py.bind];
      [|intros H; injection H as <-; apply IHt2; reflexivity].
    intros H. right. eapply sound_allowed_ops; eauto.
Qed.

Lemma has_uadd_not_allow_listed (t : Ast.node) :
  has_uadd t = true -> allow_listed t = false.
Proof.
  induction t; cbn [has_uadd allow_listed]; try reflexivity.
  - discriminate.
  - intros H. apply orb_true_iff in H as [H|H].
    + destruct (decide (op = Ast.UAdd)) as [->|]; [reflexivity|discriminate].
    + rewrite (IHt H). apply andb_false_r.
  - intros H. apply orb_true_iff in H as [H|H].
    + rewrite (IHt1 H). rewrite andb_false_r. reflexivity.
    + rewrite (IHt2 H). apply andb_false_r.
Qed.

(** ** [eval_expression] *)

Lemma eval_expression_unfold P (s : string) :
  Calc.eval_expression P s =
  if negb (Text.re_fullmatch_arith (normalized s)) then
    Py.Return "Error: arithmetic only"
  else
    Py.try_except (Calc.evaluate P (normalized s))
      (fun e => Py.Return ("Error: " +:+ Py.str_exn e)).
Proof. reflexivity. Qed.

(** A character outside the class of the regular expression makes the tool
    answer [Error: arithmetic only]. *)
Lemma disallowed_character P (s : string) (c : ascii) :
  In c (list_ascii_of_string s) -> Text.arith_char c = false ->
  Calc.eval_expression P s = Py.Return "Error: arithmetic only".
Proof.
  intros Hin Hc. rewrite eval_expression_unfold.
  destruct (outside_class c Hc) as [Hs Hk].
  unfold Text.re_fullmatch_arith. rewrite normalized_chars.
  rewrite (fullmatch_refuses c); [reflexivity| |exact Hc].
  apply in_caret; [|exact Hk]. apply in_strip; assumption.
Qed.

Lemma evaluate_raises P (expr : string) (t : Ast.node) (e : Py.exn) :
  Parser.ast_parse P expr = Py.Return t ->
  Calc._eval_ast P t = Py.Raise e ->
  Calc.evaluate P expr = Py.Raise e.
Proof. intros Hp He. unfold Calc.evaluate. rewrite Hp. cbn. rewrite He. reflexivity. Qed.

(** ** The claims about the calculator tool *)

(** C1. The tool turns ["((2*8)^2)/3"] into [85.33333333333333], the [str] of
    the float nearest to 256/3, which is also the float that decimal string
    reads back as; and it answers
    ["__import__('os')"], like every text with a character that can start a
    name (an identifier, or the name of an attribute), with
    [Error: arithmetic only]. *)
Theorem C1_example_and_rejection (P : Py.platform) :
  Calc.eval_expression P "((2*8)^2)/3" = Py.Return "85.33333333333333" /\
  Calc.evaluate P "((2*8)**2)/3" =
    Py.str (Py.VFloat (Py.of_quotient false 256 3)) /\
  Py.of_decimal 8533333333333333 (-14) = Py.of_quotient false 256 3 /\
  Calc.eval_expression P "__import__('os')" = Py.Return "Error: arithmetic only" /\
  (forall (s : string) (c : ascii),
      In c (list_ascii_of_string s) -> Text.is_name_start c = true ->
      Calc.eval_expression P s = Py.Return "Error: arithmetic only").
Proof.
  assert (G : forall (s : string) (c : ascii),
             In c (list_ascii_of_string s) -> Text.is_name_start c = true ->
             Calc.eval_expression P s = Py.Return "Error: arithmetic only").
  { intros s c Hin Hc. apply (disallowed_character P s c Hin).
    apply name_start_outside. exact Hc. }
  split; [vm_compute; reflexivity|].
  split; [vm_compute; reflexivity|].
  split; [vm_compute; reflexivity|].
  split; [|exact G].
  apply (G _ "_"%char); [|reflexivity]. cbn. left. reflexivity.
Qed.

Lemma C1_witness :
  Text.is_name_start "x" = true /\
  (forall P : Py.platform,
      Calc.eval_expression P "1 + x.y" = Py.Return "Error: arithmetic only").
Proof.
  split; [reflexivity|].
  intros P.
  apply (proj2 (proj2 (proj2 (proj2 (C1_example_and_rejection P)))) _ "x"%char).
  - cbn. tauto.
  - reflexivity.
Defined.

(** C2, as the code has it. An allow-listed tree never reaches the last line
    of [_eval_ast]; a tree with any other node never evaluates to a value;
    a node of another kind is refused before anything below it is evaluated;
    and what is raised is the [ValueError] of the tool or the failure of an
    allow-listed operator applied to operands evaluated earlier. The
    constants are the literals the characters can spell: numbers, and [...],
    which evaluates to [Ellipsis]. *)
Theorem C2_allow_list (P : Py.platform) :
  (forall t, allow_listed t = true ->
             is_unsupported (Calc._eval_ast P t) = false) /\
  (forall t, allow_listed t = false ->
             is_raise (Calc._eval_ast P t) = true) /\
  (forall t, kind_allowed t = false ->
             Calc._eval_ast P t = Py.Raise Calc.unsupported_expression) /\
  (forall t e, Calc._eval_ast P t = Py.Raise e ->
               e = Calc.unsupported_expression \/ arithmetic_failure e = true) /\
  (forall s t,
      Text.re_fullmatch_arith (normalized s) = true ->
      Parser.ast_parse P (normalized s) = Py.Return t ->
      allow_listed t = false ->
      exists e, Calc._eval_ast P t = Py.Raise e /\
                Calc.eval_expression P s = Py.Return ("Error: " +:+ Py.str_exn e)) /\
  Calc.eval_expression P "..." = Py.Return "Ellipsis".
Proof.
  split; [apply eval_allow_listed|].
  split; [apply eval_not_allow_listed|].
  split; [apply eval_refuses_kind|].
  split; [apply eval_raises|].
  split; [|vm_compute; reflexivity].
  intros s t Hm Hp Ht.
  pose proof (eval_not_allow_listed P t Ht) as Hr.
  destruct (Calc._eval_ast P t) as [v|e] eqn:E; [discriminate|].
  exists e. split; [reflexivity|].
  rewrite eval_expression_unfold, Hm. cbn [negb].
  rewrite (evaluate_raises P _ t e Hp E). reflexivity.
Qed.

(** C2 as stated fails: the tree of ["(1/0)+(+1)"] has a unary plus node, and
    the tool answers with the division by zero of its left operand. *)
Lemma C2_counterexample :
  let t := Ast.BinOp
             (Ast.BinOp (Ast.Constant (Py.VInt 1)) Ast.Div
                        (Ast.Constant (Py.VInt 0)))
             Ast.Add
             (Ast.UnaryOp Ast.UAdd (Ast.Constant (Py.VInt 1))) in
  allow_listed t = false /\
  (forall P, Parser.ast_parse P "(1/0)+(+1)" = Py.Return t) /\
  (forall P, Calc._eval_ast P t =
             Py.Raise (Py.ZeroDivisionError "division by zero")) /\
  (forall P, is_unsupported (Calc._eval_ast P t) = false) /\
  (forall P, Calc.eval_expression P "(1/0)+(+1)" =
             Py.Return "Error: division by zero").
Proof.
  cbv zeta. repeat split; intros; vm_compute; reflexivity.
Qed.

Lemma C2_witness :
  allow_listed (Ast.Call (Ast.Constant (Py.VInt 1))
                  [Ast.Constant (Py.VInt 2)] []) = false /\
  (forall P : Py.platform,
      is_unsupported
        (Calc._eval_ast P
           (Ast.BinOp (Ast.Constant (Py.VInt 1)) Ast.Div
                      (Ast.Constant (Py.VInt 0)))) = false) /\
  (forall P : Py.platform,
      exists e,
        Calc._eval_ast P (Ast.Call (Ast.Constant (Py.VInt 1))
                            [Ast.Constant (Py.VInt 2)] []) = Py.Raise e /\
        Calc.eval_expression P "1(2)" =
          Py.Return ("Error: " +:+ Py.str_exn e)).
Proof.
  split; [reflexivity|]. split; intros P.
  - apply (proj1 (C2_allow_list P)). reflexivity.
  - apply (proj1 (proj2 (proj2 (proj2 (proj2 (C2_allow_list P))))) "1(2)").
    + vm_compute. reflexivity.
    + vm_compute. reflexivity.
    + reflexivity.
Defined.

(** The tool returns on every argument: no exception leaves it. *)
Lemma eval_expression_returns P (s : string) :
  exists out, Calc.eval_expression P s = Py.Return out.
Proof.
  rewrite eval_expression_unfold.
  destruct (Text.re_fullmatch_arith (normalized s)); cbn [negb].
  - destruct (Calc.evaluate P (normalized s)) as [out|e]; cbn; eauto.
  - eauto.
Qed.



(** C8. The tool gives the same answer for an expression and for the
    expression with every [^] replaced by [**]; [2^3] and [2**3] both give
    [8]. *)
Theorem C8_caret_is_power (P : Py.platform) (e : string) :
  Calc.eval_expression P e =
  Calc.eval_expression P (Text.str_replace "^" "**" e) /\
  Calc.eval_expression P "2^3" = Py.Return "8" /\
  Calc.eval_expression P "2**3" = Py.Return "8".
Proof.
  split; [|split; vm_compute; reflexivity].
  rewrite !eval_expression_unfold, normalized_caret. reflexivity.
Qed.

(** C10, as the code has it. Unary plus is not in the dictionary, unary
    minus is; a unary plus node is refused at once, so ["+5"] gives
    [Error: Unsupported expression]; a tree with a unary plus node anywhere
    never evaluates to a value, and the tool answers [Error: ] followed by
    the text of the [ValueError] of the tool or of the failure of an operator
    that was applied before the unary plus was reached. *)
Theorem C10_unary_plus (P : Py.platform) :
  Calc._ALLOWED_OPS P !! Ast.UAdd = None /\
  Calc._ALLOWED_OPS P !! Ast.USub = Some Py.op_neg /\
  (forall x, Calc._eval_ast P (Ast.UnaryOp Ast.UAdd x) =
             Py.Raise Calc.unsupported_expression) /\
  Calc.eval_expression P "+5" = Py.Return "Error: Unsupported expression" /\
  (forall t, has_uadd t = true -> is_raise (Calc._eval_ast P t) = true) /\
  (forall s t,
      Text.re_fullmatch_arith (normalized s) = true ->
      Parser.ast_parse P (normalized s) = Py.Return t ->
      has_uadd t = true ->
      exists e,
        (e = Calc.unsupported_expression \/ arithmetic_failure e = true) /\
        Calc.eval_expression P s = Py.Return ("Error: " +:+ Py.str_exn e)).
Proof.
  split; [reflexivity|]. split; [reflexivity|]. split; [reflexivity|].
  split; [vm_compute; reflexivity|].
  split.
  { intros t H. apply eval_not_allow_listed, has_uadd_not_allow_listed, H. }
  intros s t Hm Hp Ht.
  pose proof (eval_not_allow_listed P t (has_uadd_not_allow_listed t Ht)) as Hr.
  destruct (Calc._eval_ast P t) as [v|e] eqn:E; [discriminate|].
  exists e. split; [apply (eval_raises P t e E)|].
  rewrite eval_expression_unfold, Hm. cbn [negb].
  rewrite (evaluate_raises P _ t e Hp E). reflexivity.
Qed.

(** C10 as stated fails: the tree of ["1/0 + +5"] has a unary plus node, and
    the tool answers with the division by zero of the left operand. *)
Lemma C10_counterexample :
  let t := Ast.BinOp
             (Ast.BinOp (Ast.Constant (Py.VInt 1)) Ast.Div
                        (Ast.Constant (Py.VInt 0)))
             Ast.Add
             (Ast.UnaryOp Ast.UAdd (Ast.Constant (Py.VInt 5))) in
  has_uadd t = true /\
  (forall P, Parser.ast_parse P "1/0 + +5" = Py.Return t) /\
  (forall P, Calc.eval_expression P "1/0 + +5" =
             Py.Return "Error: division by zero").
Proof.
  cbv zeta. repeat split; intros; vm_compute; reflexivity.
Qed.

Lemma C10_witness :
  has_uadd (Ast.BinOp (Ast.Constant (Py.VInt 2)) Ast.Pow
              (Ast.UnaryOp Ast.UAdd (Ast.Constant (Py.VInt 1)))) = true /\
  (forall P : Py.platform,
      exists e,
        (e = Calc.unsupported_expression \/ arithmetic_failure e = true) /\
        Calc.eval_expression P "2**+1" =
          Py.Return ("Error: " +:+ Py.str_exn e)).
Proof.
  split; [reflexivity|]. intros P.
  apply (proj2 (proj2 (proj2 (proj2 (proj2 (C10_unary_plus P))))) "2**+1"
           (Ast.BinOp (Ast.Constant (Py.VInt 2)) Ast.Pow
              (Ast.UnaryOp Ast.UAdd (Ast.Constant (Py.VInt 1))))).
  - vm_compute. reflexivity.
  - vm_compute. reflexivity.
  - reflexivity.
Defined.

(** ** The run loop *)

Import Agents Runtime RunClaims.

Lemma iterate_add {A} (f : A -> A) (n m : nat) (x : A) :
  iterate (n + m) f x = iterate m f (iterate n f x).
Proof. revert x. induction n as [|n IH]; intros x; [reflexivity|]. cbn. apply IH. Qed.

Lemma terminal_turn_step cfg W (s : phase * RunContext) :
  terminal (fst s) = true -> turn_step cfg W s = s.
Proof. destruct s as [[] ctx]; cbn; try discriminate; reflexivity. Qed.

(** A run that has ended stays where it is. *)
Lemma terminal_step cfg W (s : phase * RunContext) :
  terminal (fst s) = true -> step cfg W s = s.
Proof. destruct s as [[] ctx]; cbn; try discriminate; reflexivity. Qed.

Lemma terminal_iterate cfg W (n : nat) (s : phase * RunContext) :
  terminal (fst s) = true -> iterate n (step cfg W) s = s.
Proof.
  intros H. induction n as [|n IH]; [reflexivity|].
  cbn. rewrite terminal_step; assumption.
Qed.

Lemma rank_terminal cfg (s : phase * RunContext) :
  rank cfg s = 0%nat -> terminal (fst s) = true.
Proof. destruct s as [[] ctx]; cbn; intros H; try reflexivity; lia. Qed.

Lemma rank_turn_step cfg W (s : phase * RunContext) :
  terminal (fst s) = false -> fst s <> Init -> fst s <> GuardrailCheck ->
  (rank cfg (turn_step cfg W s) < rank cfg s)%nat.
Proof.
  destruct s as [p ctx]. destruct p; cbn [fst]; intros Ht H1 H2;
    try discriminate; try contradiction; cbn [turn_step].
  - destruct (max_turns cfg <=? turn_counter ctx)%nat eqn:E.
    + cbn. lia.
    + apply Nat.leb_gt in E. cbn [take_turn].
      destruct (generate W (active ctx) (history ctx));
        unfold rank; cbn [fst snd turn_counter]; lia.
  - unfold rank; cbn [fst snd with_history turn_counter]. lia.
  - destruct (resolve cfg (active ctx) target);
      unfold rank; cbn [fst snd with_active turn_counter]; lia.
  - destruct (validate (active ctx) r); unfold rank; cbn [fst snd]; lia.
Qed.

(** Every step of a run that has not ended brings it closer to its end. *)
Lemma rank_step cfg W (s : phase * RunContext) :
  terminal (fst s) = false -> (rank cfg (step cfg W s) < rank cfg s)%nat.
Proof.
  intros Ht. destruct s as [p ctx].
  destruct p; try (apply rank_turn_step; [exact Ht|discriminate|discriminate]).
  - unfold rank; cbn. lia.
  - cbn [step].
    destruct (find (trips cfg) _) as [[n [tr rationale raw|]]|];
      unfold rank; cbn [fst snd turn_counter]; lia.
Qed.

Lemma rank_iterate cfg W (n : nat) (s : phase * RunContext) :
  (rank cfg s <= n)%nat -> terminal (fst (iterate n (step cfg W) s)) = true.
Proof.
  revert s. induction n as [|n IH]; intros s H.
  - apply (rank_terminal cfg). cbn. lia.
  - cbn [iterate]. destruct (terminal (fst s)) eqn:Ht.
    + rewrite terminal_step by exact Ht. rewrite terminal_iterate; assumption.
    + apply IH. pose proof (rank_step cfg W s Ht). lia.
Qed.

(** As long as the run has not ended, the steps taken and the rank add up to
    no more than the rank at the start. *)
Lemma steps_and_rank cfg W (n : nat) (s : phase * RunContext) :
  terminal (fst (iterate n (step cfg W) s)) = false ->
  (n + rank cfg (iterate n (step cfg W) s) <= rank cfg s)%nat.
Proof.
  revert s. induction n as [|n IH]; intros s H; [cbn; lia|].
  cbn [iterate] in *. destruct (terminal (fst s)) eqn:Ht.
  - rewrite terminal_step in H by exact Ht.
    rewrite terminal_iterate in H by exact Ht. congruence.
  - pose proof (rank_step cfg W s Ht). specialize (IH _ H). lia.
Qed.

Lemma rank_start cfg (a : Agent) (input : list message) :
  (rank cfg (Init, start a input) < enough cfg)%nat.
Proof. unfold rank, enough. cbn. lia. Qed.

(** Once the loop has ended after [n] steps, the run is in that state. *)
Lemma run_ends_in cfg W a input (n : nat) (s : phase * RunContext) :
  iterate n (step cfg W) (Init, start a [UserInput input]) = s ->
  terminal (fst s) = true ->
  run cfg W a input = s.
Proof.
  intros Hn Ht. unfold run.
  destruct (Nat.le_gt_cases n (enough cfg)) as [Hle|Hgt].
  - replace (enough cfg) with (n + (enough cfg - n))%nat by lia.
    rewrite iterate_add, Hn. apply terminal_iterate. exact Ht.
  - pose proof (rank_iterate cfg W (enough cfg) (Init, start a [UserInput input])) as He.
    pose proof (rank_start cfg a [UserInput input]).
    specialize (He ltac:(lia)).
    replace n with (enough cfg + (n - enough cfg))%nat in Hn by lia.
    rewrite iterate_add in Hn. rewrite terminal_iterate in Hn by exact He.
    exact Hn.
Qed.

(** ** The claims about the run loop *)

Lemma agent_turn_step cfg W (ctx : RunContext) :
  step cfg W (AgentTurn, ctx) = turn_step cfg W (AgentTurn, ctx).
Proof. reflexivity. Qed.

(** A turn that asks for a handoff, and its dispatch. *)
Lemma handoff_turn cfg W (ctx : RunContext) (target : string) :
  (turn_counter ctx < max_turns cfg)%nat ->
  generate W (active ctx) (history ctx) = HandoffRequest target ->
  step cfg W (AgentTurn, ctx) =
  (HandoffDispatch target, snd (take_turn W ctx)) /\
  trace (snd (take_turn W ctx)) =
  (trace ctx ++ [turn_of ctx (HandoffRequest target)])%list.
Proof.
  intros Hc Hg. rewrite agent_turn_step. cbn [turn_step].
  apply Nat.leb_gt in Hc. rewrite Hc.
  unfold take_turn, turn_of. rewrite Hg. split; reflexivity.
Qed.

Lemma find_trips cfg (log : list (string * guardrail_outcome)) x :
  In x log -> trips cfg x = true ->
  exists n rationale raw g,
    find (trips cfg) log = Some (n, Verdict true rationale raw) /\
    In (n, Verdict true rationale raw) log /\
    guardrails cfg !! n = Some g /\ abort_on_trigger g = true.
Proof.
  intros Hin Hx.
  destruct (find (trips cfg) log) as [[n o]|] eqn:E.
  - apply find_some in E as [Hn Ht]. unfold trips in Ht. cbn [fst snd] in Ht.
    destruct (guardrails cfg !! n) as [g|] eqn:G; [|discriminate].
    destruct o as [[|] rationale raw|]; try discriminate.
    exists n, rationale, raw, g. auto.
  - pose proof (find_none _ _ E x Hin). congruence.
Qed.

Lemma in_evaluate_all cfg W a input n o :
  In (n, o) (evaluate_all cfg W a input) <->
  In n (input_guardrails a) /\
  exists g, guardrails cfg !! n = Some g /\ o = evaluate g W input.
Proof.
  unfold evaluate_all. rewrite in_flat_map. split.
  - intros [m [Hm Hin]]. destruct (guardrails cfg !! m) as [g|] eqn:G.
    + destruct Hin as [H|[]]. injection H as <- <-. eauto.
    + destruct Hin.
  - intros [Hn [g [G ->]]]. exists n. rewrite G. split; [exact Hn|left; reflexivity].
Qed.

(** The guardrail check ends the run when a guardrail trips. *)
Lemma guardrail_abort cfg W a input n rationale :
  aborts cfg W a [UserInput input] n rationale ->
  exists n' rationale',
    aborts cfg W a [UserInput input] n' rationale' /\
    find (trips cfg) (evaluate_all cfg W a [UserInput input]) =
      Some (n', Verdict true rationale'
                  match guardrails cfg !! n' with
                  | Some g =>
                      match evaluate g W [UserInput input] with
                      | Verdict _ _ raw => raw
                      | Malformed => []
                      end
                  | None => []
                  end).
Proof.
  intros [Hn [g [raw [G [Ha Hv]]]]].
  destruct (find_trips cfg (evaluate_all cfg W a [UserInput input])
              (n, Verdict true rationale raw)) as [n' [r' [raw' [g' [F [Hin [G' Ha']]]]]]].
  - apply in_evaluate_all. eauto.
  - unfold trips. cbn [fst snd]. rewrite G. exact Ha.
  - apply in_evaluate_all in Hin as [Hn' [g'' [G'' Hv']]].
    exists n', r'. split.
    + split; [exact Hn'|]. exists g'', raw'. rewrite G'' in G'.
      injection G' as ->. auto.
    + rewrite F, G'', <- Hv'. reflexivity.
Qed.

Lemma run_aborted_by_guardrail cfg W a input n rationale raw :
  find (trips cfg) (evaluate_all cfg W a [UserInput input]) =
    Some (n, Verdict true rationale raw) ->
  fst (run cfg W a input) = Aborted (GuardrailTripped n rationale) /\
  trace (snd (run cfg W a input)) = [] /\
  turn_counter (snd (run cfg W a input)) = 0%nat.
Proof.
  intros F.
  rewrite (run_ends_in cfg W a input 2
             (Aborted (GuardrailTripped n rationale),
              {| history := [UserInput input]; active := a; trace := [];
                 turn_counter := 0;
                 guardrail_log := evaluate_all cfg W a [UserInput input] |})).
  - cbn [fst snd trace turn_counter]. split; [reflexivity|]. split; reflexivity.
  - cbn [iterate step start active history]. rewrite F. reflexivity.
  - reflexivity.
Qed.

(** What the guardrail of the script reports when the guardrail agent
    answers with a payload of the declared schema. *)
Lemma tasha_verdict W input p o :
  generate W guardrail_agent input = StructuredOutput p ->
  as_YarGuardOutput p = Some o ->
  evaluate tasha W input =
  Verdict (is_blocked o) (reasoning o) (model_dump o).
Proof.
  intros Hg Hp. cbn [evaluate tasha]. unfold tasha_guardrail.
  assert (R : Runner_run_guardrail W guardrail_agent input = inr o).
  { unfold Runner_run_guardrail. cbn [iterate].
    cbn [turn_step max_turns single_turn start turn_counter Nat.leb].
    unfold take_turn, start. cbn [active history]. rewrite Hg.
    cbn [turn_step active]. unfold validate. cbn [output guardrail_agent].
    rewrite Hp. cbn [turn_step]. rewrite Hp. reflexivity. }
  rewrite R. cbn [output_info tripwire_triggered]. reflexivity.
Qed.

(** The guardrail that ends the run is the first one of the agent, in the
    order the agent lists them, that aborts. *)
Lemma first_to_abort cfg W (a : Agent) (input : string)
    (pre post : list string) (n rationale : string) :
  input_guardrails a = (pre ++ n :: post)%list ->
  (forall m r, In m pre -> ~ aborts cfg W a [UserInput input] m r) ->
  aborts cfg W a [UserInput input] n rationale ->
  exists raw,
    find (trips cfg) (evaluate_all cfg W a [UserInput input]) =
    Some (n, Verdict true rationale raw).
Proof.
  intros Hs Hpre [_ [g [raw [G [Ha Hv]]]]]. exists raw.
  assert (Hin : forall m, In m pre -> In m (input_guardrails a)).
  { intros m Hm. rewrite Hs. apply in_or_app. left. exact Hm. }
  unfold evaluate_all. rewrite Hs. clear Hs.
  induction pre as [|m pre IH]; cbn [app flat_map].
  - rewrite G. cbn [app find]. unfold trips. cbn [fst snd].
    rewrite G, Hv, Ha. reflexivity.
  - assert (IH' : find (trips cfg)
                    (flat_map
                       (fun n0 =>
                          match guardrails cfg !! n0 with
                          | Some g0 => [(n0, evaluate g0 W [UserInput input])]
                          | None => []
                          end) (pre ++ n :: post)) =
                  Some (n, Verdict true rationale raw)).
    { apply IH.
      - intros m' r Hm'. apply Hpre. right. exact Hm'.
      - intros m' Hm'. apply Hin. right. exact Hm'. }
    destruct (guardrails cfg !! m) as [gm|] eqn:Gm; [|exact IH'].
    cbn [app find]. unfold trips at 1. cbn [fst snd]. rewrite Gm.
    destruct (evaluate gm W [UserInput input]) as [[|] r rawm|] eqn:Em;
      try exact IH'.
    destruct (abort_on_trigger gm) eqn:Am; [|exact IH'].
    exfalso. apply (Hpre m r); [left; reflexivity|].
    split; [apply Hin; left; reflexivity|]. exists gm, rawm. auto.
Qed.

(** Among the guardrails of the agent that abort, one comes first. *)
Lemma some_first_to_abort cfg W (a : Agent) (input : string)
    (n rationale : string) :
  aborts cfg W a [UserInput input] n rationale ->
  exists pre n' post rationale',
    input_guardrails a = (pre ++ n' :: post)%list /\
    (forall m r, In m pre -> ~ aborts cfg W a [UserInput input] m r) /\
    aborts cfg W a [UserInput input] n' rationale'.
Proof.
  intros H.
  assert (G : forall names,
             (forall m, In m names -> In m (input_guardrails a)) ->
             (exists m r, In m names /\ aborts cfg W a [UserInput input] m r) ->
             exists pre n' post rationale',
               names = (pre ++ n' :: post)%list /\
               (forall m r, In m pre ->
                            ~ aborts cfg W a [UserInput input] m r) /\
               aborts cfg W a [UserInput input] n' rationale').
  { induction names as [|m names IH]; intros Hsub [k [r [Hk Hr]]];
      [destruct Hk|].
    assert (Hm : In m (input_guardrails a)) by (apply Hsub; left; reflexivity).
    assert (D : (exists r', aborts cfg W a [UserInput input] m r') \/
                (forall r', ~ aborts cfg W a [UserInput input] m r')).
    { destruct (guardrails cfg !! m) as [gm|] eqn:Gm.
      - destruct (abort_on_trigger gm) eqn:Am.
        + destruct (evaluate gm W [UserInput input]) as [[|] r' rawm|] eqn:Em.
          * left. exists r'. split; [exact Hm|]. exists gm, rawm. auto.
          * right. intros r'' [_ [g' [raw' [G' [_ E']]]]]. congruence.
          * right. intros r'' [_ [g' [raw' [G' [_ E']]]]]. congruence.
        + right. intros r'' [_ [g' [raw' [G' [A' _]]]]]. congruence.
      - right. intros r'' [_ [g' [raw' [G' _]]]]. congruence. }
    destruct D as [[r' Hr']|Hno].
    - exists [], m, names, r'. split; [reflexivity|]. split; [|exact Hr'].
      intros m' r'' [].
    - destruct (IH (fun m' Hm' => Hsub m' (or_intror Hm'))) as
        [pre [n' [post [r' [Hs [Hp Ha]]]]]].
      + destruct Hk as [<-|Hk]; [destruct (Hno r Hr)|]. exists k, r. auto.
      + exists (m :: pre), n', post, r'. split; [rewrite Hs; reflexivity|].
        split; [|exact Ha].
        intros m' r'' [<-|Hm']; [apply Hno|apply Hp, Hm']. }
  destruct H as [Hn Hrest].
  apply (G (input_guardrails a) (fun m Hm => Hm)).
  exists n, rationale. split; [exact Hn|]. split; assumption.
Qed.

(** C3. When a guardrail of the entry agent that aborts on trigger reports
    that it is triggered, the run ends as aborted by a triggered guardrail
    and no agent turn is recorded. The rationale is that of the first such
    guardrail in the order the agent lists its guardrails: the guardrail's
    own when no guardrail listed before it aborts, and so when it is the
    only guardrail of the agent. For the guardrail of the script: when the
    guardrail agent answers [is_blocked = true], the run of the Data agent
    is aborted with the reasoning the guardrail agent gave. *)
Theorem C3_guardrail_abort cfg W (input : string) :
  (forall a n rationale,
      aborts cfg W a [UserInput input] n rationale ->
      exists pre n' post rationale',
        input_guardrails a = (pre ++ n' :: post)%list /\
        (forall m r, In m pre -> ~ aborts cfg W a [UserInput input] m r) /\
        aborts cfg W a [UserInput input] n' rationale' /\
        fst (run cfg W a input) = Aborted (GuardrailTripped n' rationale') /\
        trace (snd (run cfg W a input)) = [] /\
        turn_counter (snd (run cfg W a input)) = 0%nat) /\
  (forall a pre n post rationale,
      input_guardrails a = (pre ++ n :: post)%list ->
      (forall m r, In m pre -> ~ aborts cfg W a [UserInput input] m r) ->
      aborts cfg W a [UserInput input] n rationale ->
      fst (run cfg W a input) = Aborted (GuardrailTripped n rationale) /\
      trace (snd (run cfg W a input)) = [] /\
      turn_counter (snd (run cfg W a input)) = 0%nat) /\
  (forall a n rationale,
      input_guardrails a = [n] ->
      aborts cfg W a [UserInput input] n rationale ->
      fst (run cfg W a input) = Aborted (GuardrailTripped n rationale) /\
      trace (snd (run cfg W a input)) = [] /\
      turn_counter (snd (run cfg W a input)) = 0%nat) /\
  (forall P vs_id p o,
      guardrails cfg !! "tasha_guardrail" = Some tasha ->
      generate W guardrail_agent [UserInput input] = StructuredOutput p ->
      as_YarGuardOutput p = Some o ->
      is_blocked o = true ->
      fst (run cfg W (data_agent P vs_id) input) =
        Aborted (GuardrailTripped "tasha_guardrail" (reasoning o)) /\
      trace (snd (run cfg W (data_agent P vs_id) input)) = [] /\
      turn_counter (snd (run cfg W (data_agent P vs_id) input)) = 0%nat).
Proof.
  assert (G1 : forall a pre n post rationale,
             input_guardrails a = (pre ++ n :: post)%list ->
             (forall m r, In m pre ->
                          ~ aborts cfg W a [UserInput input] m r) ->
             aborts cfg W a [UserInput input] n rationale ->
             fst (run cfg W a input) = Aborted (GuardrailTripped n rationale) /\
             trace (snd (run cfg W a input)) = [] /\
             turn_counter (snd (run cfg W a input)) = 0%nat).
  { intros a pre n post rationale Hs Hpre Ha.
    destruct (first_to_abort cfg W a input pre post n rationale Hs Hpre Ha)
      as [raw F].
    apply (run_aborted_by_guardrail cfg W a input n rationale raw F). }
  assert (G2 : forall a n rationale,
             input_guardrails a = [n] ->
             aborts cfg W a [UserInput input] n rationale ->
             fst (run cfg W a input) = Aborted (GuardrailTripped n rationale) /\
             trace (snd (run cfg W a input)) = [] /\
             turn_counter (snd (run cfg W a input)) = 0%nat).
  { intros a n rationale Hs H.
    apply (G1 a [] n [] rationale Hs); [intros m r []|exact H]. }
  split; [|split; [exact G1|split; [exact G2|]]].
  - intros a n rationale H.
    destruct (some_first_to_abort cfg W a input n rationale H)
      as [pre [n' [post [r' [Hs [Hpre Ha]]]]]].
    exists pre, n', post, r'. split; [exact Hs|]. split; [exact Hpre|].
    split; [exact Ha|]. apply (G1 a pre n' post r' Hs Hpre Ha).
  - intros P vs_id p o G Hg Hp Hb.
    apply G2; [reflexivity|].
    split; [left; reflexivity|].
    exists tasha, (model_dump o). split; [exact G|]. split; [reflexivity|].
    rewrite (tasha_verdict W _ p o Hg Hp), Hb. reflexivity.
Qed.

(** C3 as stated fails: of two guardrails that abort on trigger and are both
    triggered, the run reports the rationale of the first; it is not the
    rationale of the second, which is triggered as well. *)
Lemma C3_counterexample :
  aborts two_alarms blocking twice_guarded [UserInput "hello"]
    "second" "the second rationale" /\
  fst (run two_alarms blocking twice_guarded "hello") =
    Aborted (GuardrailTripped "first" "the first rationale") /\
  trace (snd (run two_alarms blocking twice_guarded "hello")) = [].
Proof.
  split; [|split; vm_compute; reflexivity].
  split; [right; left; reflexivity|].
  exists (alarm "second" "the second rationale"), [].
  split; [reflexivity|]. split; reflexivity.
Qed.

Lemma C3_witness :
  is_blocked {| is_blocked := true;
                reasoning := "The input refers to Tasha Yar." |} = true /\
  (forall P vs_id,
      fst (run (script_config P vs_id) blocking (data_agent P vs_id)
             "Tell me about your relationship with Tasha Yar.") =
        Aborted (GuardrailTripped "tasha_guardrail"
                   "The input refers to Tasha Yar.") /\
      trace (snd (run (script_config P vs_id) blocking (data_agent P vs_id)
                    "Tell me about your relationship with Tasha Yar.")) = [] /\
      turn_counter
        (snd (run (script_config P vs_id) blocking (data_agent P vs_id)
                "Tell me about your relationship with Tasha Yar.")) = 0%nat).
Proof.
  split; [reflexivity|]. intros P vs_id.
  apply (proj2 (proj2 (proj2
           (C3_guardrail_abort (script_config P vs_id) blocking
              "Tell me about your relationship with Tasha Yar.")))
           P vs_id
           (JObj [("is_blocked", JBool true);
                  ("reasoning", JStr "The input refers to Tasha Yar.")])
           {| is_blocked := true;
              reasoning := "The input refers to Tasha Yar." |});
    reflexivity.
Defined.

(** C5. When a turn asks for a handoff to a target that the active agent
    does not declare, the run ends with [UnauthorizedTarget]; the turn that
    asked is the last one recorded, so the target executes no turn for it, and
    the active agent is still the one that asked. The calculator declares no
    target: every handoff it asks for ends the run this way. *)
Theorem C5_unauthorized_handoff cfg W (a : Agent) (input : string) :
  (forall k ctx target,
      iterate k (step cfg W) (Init, start a [UserInput input]) = (AgentTurn, ctx) ->
      (turn_counter ctx < max_turns cfg)%nat ->
      generate W (active ctx) (history ctx) = HandoffRequest target ->
      existsb (String.eqb target) (handoffs (active ctx)) = false ->
      fst (run cfg W a input) = Aborted (UnauthorizedTarget target) /\
      trace (snd (run cfg W a input)) =
        (trace ctx ++ [turn_of ctx (HandoffRequest target)])%list /\
      active (snd (run cfg W a input)) = active ctx) /\
  (forall P k ctx target,
      iterate k (step cfg W) (Init, start a [UserInput input]) = (AgentTurn, ctx) ->
      (turn_counter ctx < max_turns cfg)%nat ->
      active ctx = calculator_agent P ->
      generate W (active ctx) (history ctx) = HandoffRequest target ->
      fst (run cfg W a input) = Aborted (UnauthorizedTarget target) /\
      trace (snd (run cfg W a input)) =
        (trace ctx ++ [turn_of ctx (HandoffRequest target)])%list).
Proof.
  assert (G : forall k ctx target,
      iterate k (step cfg W) (Init, start a [UserInput input]) = (AgentTurn, ctx) ->
      (turn_counter ctx < max_turns cfg)%nat ->
      generate W (active ctx) (history ctx) = HandoffRequest target ->
      existsb (String.eqb target) (handoffs (active ctx)) = false ->
      fst (run cfg W a input) = Aborted (UnauthorizedTarget target) /\
      trace (snd (run cfg W a input)) =
        (trace ctx ++ [turn_of ctx (HandoffRequest target)])%list /\
      active (snd (run cfg W a input)) = active ctx).
  { intros k ctx target Hk Hc Hg Hd.
    destruct (handoff_turn cfg W ctx target Hc Hg) as [Hs Ht].
    rewrite (run_ends_in cfg W a input (k + 2)
               (Aborted (UnauthorizedTarget target), snd (take_turn W ctx))).
    - cbn [fst snd]. split; [reflexivity|]. split; [exact Ht|reflexivity].
    - rewrite iterate_add, Hk. cbn [iterate]. rewrite Hs.
      cbn [step turn_step]. unfold resolve.
      cbn [take_turn snd active]. rewrite Hd. reflexivity.
    - reflexivity. }
  split; [exact G|].
  intros P k ctx target Hk Hc Ha Hg.
  destruct (G k ctx target Hk Hc Hg) as [H1 [H2 _]]; [|auto].
  rewrite Ha. reflexivity.
Qed.

Lemma C5_witness :
  existsb (String.eqb "ping") (handoffs solo) = false /\
  fst (run (ping_pong 4) back_and_forth solo "hello") =
    Aborted (UnauthorizedTarget "ping") /\
  List.map actor (trace (snd (run (ping_pong 4) back_and_forth solo "hello"))) =
    ["solo"].
Proof.
  split; [reflexivity|].
  destruct (proj1 (C5_unauthorized_handoff (ping_pong 4) back_and_forth solo
                     "hello")
              2%nat
              {| history := [UserInput "hello"]; active := solo; trace := [];
                 turn_counter := 0; guardrail_log := [] |}
              "ping") as [H1 [H2 _]].
  - reflexivity.
  - cbn. lia.
  - reflexivity.
  - reflexivity.
  - split; [exact H1|]. rewrite H2. reflexivity.
Defined.

(** Two agents that keep handing off to each other use up the turns. *)
Lemma ping_pong_loop cfg W (A B : Agent) :
  registry cfg !! name A = Some A ->
  registry cfg !! name B = Some B ->
  existsb (String.eqb (name B)) (handoffs A) = true ->
  existsb (String.eqb (name A)) (handoffs B) = true ->
  (forall h, generate W A h = HandoffRequest (name B)) ->
  (forall h, generate W B h = HandoffRequest (name A)) ->
  forall (k : nat) (ctx : RunContext),
    active ctx = A \/ active ctx = B ->
    (turn_counter ctx + k = max_turns cfg)%nat ->
    exists ctx',
      iterate (2 * k + 1) (step cfg W) (AgentTurn, ctx) =
        (Aborted TurnLimitExceeded, ctx') /\
      List.length (trace ctx') = (List.length (trace ctx) + k)%nat.
Proof.
  intros RA RB HA HB GA GB k.
  induction k as [|k IH]; intros ctx Hact Hc.
  - exists ctx. split; [|lia]. cbn [Nat.mul Nat.add iterate].
    rewrite agent_turn_step. cbn [turn_step].
    replace (max_turns cfg <=? turn_counter ctx)%nat with true; [reflexivity|].
    symmetry. apply Nat.leb_le. lia.
  - assert (Hlt : (turn_counter ctx < max_turns cfg)%nat) by lia.
    assert (Hnext : exists target next,
               generate W (active ctx) (history ctx) = HandoffRequest target /\
               resolve cfg (active ctx) target = Some next /\
               (next = A \/ next = B)).
    { destruct Hact as [E|E]; rewrite E.
      - exists (name B), B. split; [apply GA|]. unfold resolve.
        rewrite HA. auto.
      - exists (name A), A. split; [apply GB|]. unfold resolve.
        rewrite HB. auto. }
    destruct Hnext as [target [next [Hg [Hr Hn]]]].
    destruct (handoff_turn cfg W ctx target Hlt Hg) as [Hs Ht].
    destruct (IH (with_active (snd (take_turn W ctx)) next)) as [ctx' [Hi Hl]].
    + exact Hn.
    + cbn. lia.
    + exists ctx'. split.
      * replace (2 * S k + 1)%nat with (S (S (2 * k + 1))) by lia.
        cbn [iterate]. rewrite Hs. cbn [step turn_step].
        cbn [take_turn snd active] in *. rewrite Hr. exact Hi.
      * rewrite Hl. cbn [with_active trace]. rewrite Ht.
        rewrite length_app. cbn. lia.
Qed.

(** C6. Every run ends: after the steps counted by [enough] the loop is in
    a final state and stays there. When two agents keep handing off to
    each other, the run ends with [TurnLimitExceeded] after as many turns
    as the configuration allows. *)
Theorem C6_run_terminates cfg W (a : Agent) (input : string) :
  terminal (fst (run cfg W a input)) = true /\
  (forall n, (enough cfg <= n)%nat ->
             iterate n (step cfg W) (Init, start a [UserInput input]) =
             run cfg W a input) /\
  (forall b : Agent,
      registry cfg !! name a = Some a ->
      registry cfg !! name b = Some b ->
      existsb (String.eqb (name b)) (handoffs a) = true ->
      existsb (String.eqb (name a)) (handoffs b) = true ->
      input_guardrails a = [] ->
      (forall h, generate W a h = HandoffRequest (name b)) ->
      (forall h, generate W b h = HandoffRequest (name a)) ->
      fst (run cfg W a input) = Aborted TurnLimitExceeded /\
      List.length (trace (snd (run cfg W a input))) = max_turns cfg).
Proof.
  assert (T : terminal (fst (run cfg W a input)) = true).
  { unfold run. apply rank_iterate.
    pose proof (rank_start cfg a [UserInput input]). lia. }
  split; [exact T|]. split.
  - intros n Hn. unfold run in *.
    replace n with (enough cfg + (n - enough cfg))%nat by lia.
    rewrite iterate_add. apply terminal_iterate. exact T.
  - intros b RA RB HA HB Hg GA GB.
    destruct (ping_pong_loop cfg W a b RA RB HA HB GA GB (max_turns cfg)
                {| history := [UserInput input]; active := a; trace := [];
                   turn_counter := 0; guardrail_log := [] |})
      as [ctx' [Hi Hl]]; [left; reflexivity|reflexivity|].
    rewrite (run_ends_in cfg W a input (2 + (2 * max_turns cfg + 1))
               (Aborted TurnLimitExceeded, ctx')).
    + cbn [fst snd]. split; [reflexivity|]. rewrite Hl. reflexivity.
    + rewrite iterate_add. cbn [iterate step start active history].
      unfold evaluate_all. rewrite Hg. cbn [flat_map find]. exact Hi.
    + reflexivity.
Qed.

Lemma C6_witness :
  input_guardrails ping = [] /\
  fst (run (ping_pong 3) back_and_forth ping "hello") =
    Aborted TurnLimitExceeded /\
  List.map actor (trace (snd (run (ping_pong 3) back_and_forth ping "hello"))) =
    ["ping"; "pong"; "ping"].
Proof.
  split; [reflexivity|].
  destruct (proj2 (proj2 (C6_run_terminates (ping_pong 3) back_and_forth ping
                            "hello")) pong) as [H _]; try reflexivity.
  split; [exact H|]. vm_compute. reflexivity.
Defined.

(** In the loop, a call of the calculator's tool is never the end of the
    run: whatever the argument, the string the tool returns is appended to
    the history and the calculator takes its next turn. *)
Lemma calculator_tool_feedback cfg W P (ctx : RunContext) (c : ToolCall) :
  active ctx = calculator_agent P ->
  tool c = "eval_expression" ->
  exists out,
    Calc.eval_expression P (arguments c) = Py.Return out /\
    step cfg W (ToolDispatch [c], ctx) =
    (AgentTurn,
     with_history ctx
       (history ctx ++ [ToolFeedback (call_id c) (ToolResult out)])%list).
Proof.
  intros Ha Ht.
  destruct (eval_expression_returns P (arguments c)) as [out Ho].
  exists out. split; [exact Ho|].
  cbn [step turn_step]. unfold feedback, invoke. rewrite Ha.
  cbn [map tools calculator_agent eval_expression_tool find tool_name].
  rewrite Ht, String.eqb_refl. unfold eval_expression_tool.
  cbv beta iota. rewrite Ho. reflexivity.
Qed.

(** The arithmetic scenario of the script, end to end: the run is done, the
    calculator produced the answer, and the answer is the string the tool
    returned. *)
Lemma arithmetic_scenario_run P vs_id :
  fst (run (script_config P vs_id) arithmetic_scenario (data_agent P vs_id)
         "Compute ((2*8)^2)/3") =
  Done (FreeText "85.33333333333333") "Calculator".
Proof. vm_compute. reflexivity. Qed.

(** The first block of [main]: when the guardrail agent blocks the prompt,
    the script prints that the guardrail tripped. *)
Lemma blocked_demo_trips cfg W P vs_id (p : json) (o : YarGuardOutput) :
  guardrails cfg !! "tasha_guardrail" = Some tasha ->
  generate W guardrail_agent
    [UserInput "Tell me about your relationship with Tasha Yar."] =
    StructuredOutput p ->
  as_YarGuardOutput p = Some o ->
  is_blocked o = true ->
  Script.blocked_demo cfg W P vs_id =
  inr [[Script.PStr "✅ Guardrail tripped as expected: Tasha Yar is off-limits."]].
Proof.
  intros G Hg Hp Hb. unfold Script.blocked_demo, Script.Runner_run.
  assert (A : aborts cfg W (data_agent P vs_id)
                [UserInput "Tell me about your relationship with Tasha Yar."]
                "tasha_guardrail" (reasoning o)).
  { split; [left; reflexivity|].
    exists tasha, (model_dump o). split; [exact G|]. split; [reflexivity|].
    rewrite (tasha_verdict W _ p o Hg Hp), Hb. reflexivity. }
  destruct A as [_ [g [raw [G' [Ha Hv]]]]].
  destruct (run_aborted_by_guardrail cfg W (data_agent P vs_id)
              "Tell me about your relationship with Tasha Yar."
              "tasha_guardrail" (reasoning o) raw) as [H _].
  - unfold evaluate_all. cbn [input_guardrails data_agent flat_map].
    rewrite G'. cbn [app find]. unfold trips. cbn [fst snd].
    rewrite G', Hv, Ha. reflexivity.
  - rewrite H. reflexivity.
Qed.


(** ** More about the calculator tool *)

Import Claims IntExpr.

Lemma lstrip_blank_app (pre s : list ascii) :
  blank pre = true -> Text.lstrip (pre ++ s) = Text.lstrip s.
Proof.
  induction pre as [|c pre IH]; [reflexivity|].
  cbn [blank forallb app Text.lstrip]. intros H.
  apply andb_true_iff in H as [Hc Hp]. rewrite Hc. apply IH, Hp.
Qed.

Lemma lstrip_blank (s : list ascii) : blank s = true -> Text.lstrip s = [].
Proof.
  intros H. rewrite <- (app_nil_r s) at 1. rewrite lstrip_blank_app by exact H.
  reflexivity.
Qed.

Lemma blank_rev (s : list ascii) : blank (rev s) = blank s.
Proof.
  unfold blank. induction s as [|c s IH]; [reflexivity|].
  cbn [rev forallb]. rewrite forallb_app, IH. cbn [forallb].
  rewrite andb_true_r. apply andb_comm.
Qed.

Lemma rstrip_app_blank (s post : list ascii) :
  blank post = true -> Text.rstrip (s ++ post) = Text.rstrip s.
Proof.
  intros H. unfold Text.rstrip. rewrite rev_app_distr.
  rewrite lstrip_blank_app; [reflexivity|]. rewrite blank_rev. exact H.
Qed.

(** [lstrip] of a text followed by blanks. *)
Lemma lstrip_app_blank (s post : list ascii) :
  blank post = true ->
  Text.lstrip (s ++ post) = (Text.lstrip s ++ post)%list \/
  (Text.lstrip (s ++ post) = [] /\ Text.lstrip s = []).
Proof.
  intros H. induction s as [|c s IH].
  - right. cbn [app]. split; [apply lstrip_blank, H|reflexivity].
  - cbn [app Text.lstrip]. destruct (Text.is_space c); [exact IH|].
    left. reflexivity.
Qed.

(** Blanks around a text do not change what it is stripped to. *)
Lemma strip_surrounded (pre s post : list ascii) :
  blank pre = true -> blank post = true ->
  Text.strip (pre ++ s ++ post) = Text.strip s.
Proof.
  intros Hpre Hpost. unfold Text.strip.
  rewrite lstrip_blank_app by exact Hpre.
  destruct (lstrip_app_blank s post Hpost) as [E|[E1 E2]].
  - rewrite E. apply rstrip_app_blank, Hpost.
  - rewrite E1, E2. reflexivity.
Qed.

Lemma strip_blank (s : list ascii) : blank s = true -> Text.strip s = [].
Proof. intros H. unfold Text.strip. rewrite lstrip_blank by exact H. reflexivity. Qed.

Lemma normalized_of_chars (l : list ascii) :
  list_ascii_of_string (normalized (string_of_list_ascii l)) =
  caret (Text.strip l).
Proof. rewrite normalized_chars, list_ascii_of_string_of_list_ascii. reflexivity. Qed.

Lemma normalized_eq (s t : string) :
  list_ascii_of_string (normalized s) = list_ascii_of_string (normalized t) ->
  normalized s = normalized t.
Proof.
  intros H. rewrite <- (string_of_list_ascii_of_string (normalized s)), H.
  apply string_of_list_ascii_of_string.
Qed.

Lemma eval_expression_normalized P (s t : string) :
  normalized s = normalized t ->
  Calc.eval_expression P s = Calc.eval_expression P t.
Proof. intros H. rewrite !eval_expression_unfold, H. reflexivity. Qed.

(** X1. Blanks before and after an expression are ignored: the tool gives
    the same answer with and without them. *)
Theorem blanks_around_are_ignored (P : Py.platform) (s : string)
    (pre post : list ascii) :
  blank pre = true -> blank post = true ->
  Calc.eval_expression P
    (string_of_list_ascii (pre ++ list_ascii_of_string s ++ post)) =
  Calc.eval_expression P s.
Proof.
  intros Hpre Hpost. apply eval_expression_normalized, normalized_eq.
  rewrite normalized_of_chars, normalized_chars.
  rewrite strip_surrounded by assumption. reflexivity.
Qed.

Lemma blanks_around_witness :
  blank (list_ascii_of_string "  ") = true /\
  (forall P : Py.platform,
      Calc.eval_expression P "  1+2  " = Calc.eval_expression P "1+2").
Proof.
  split; [reflexivity|]. intros P.
  apply (blanks_around_are_ignored P "1+2" (list_ascii_of_string "  ")
           (list_ascii_of_string "  ")); reflexivity.
Defined.

(** X2. An empty text, and a text of blanks only, is answered with
    [Error: arithmetic only]: nothing reaches the parser. *)
Theorem blank_text_is_rejected (P : Py.platform) (s : string) :
  blank (list_ascii_of_string s) = true ->
  Calc.eval_expression P s = Py.Return "Error: arithmetic only".
Proof.
  intros H. rewrite eval_expression_unfold.
  unfold Text.re_fullmatch_arith. rewrite normalized_chars.
  rewrite strip_blank by exact H. reflexivity.
Qed.

Lemma blank_text_witness :
  blank (list_ascii_of_string "") = true /\
  (forall P : Py.platform,
      Calc.eval_expression P "" = Py.Return "Error: arithmetic only").
Proof.
  split; [reflexivity|]. intros P. apply blank_text_is_rejected. reflexivity.
Defined.

Lemma caret_has_no_caret (l : list ascii) :
  existsb (Ascii.eqb "^") (caret l) = false.
Proof.
  induction l as [|c l IH]; [reflexivity|].
  rewrite caret_cons, existsb_app, IH, orb_false_r.
  destruct (Ascii.eqb c "^") eqn:E; [reflexivity|].
  cbn [existsb]. rewrite (Ascii.eqb_sym "^" c), E. reflexivity.
Qed.

Lemma forallb_agree {A} (f g : A -> bool) (l : list A) :
  (forall x, In x l -> f x = g x) -> forallb f l = forallb g l.
Proof.
  induction l as [|a l IH]; [reflexivity|]. intros H. cbn [forallb].
  rewrite (H a) by (left; reflexivity). rewrite IH; [reflexivity|].
  intros x Hx. apply H. right. exact Hx.
Qed.

(** X3. The text that is matched against the regular expression and parsed
    has no caret left, whatever the argument: the caret of the character
    class never matches anything, and a character rejected by the class
    without the caret is rejected by the class. *)
Theorem no_caret_is_left (s : string) :
  has_caret (normalized s) = false /\
  Text.re_fullmatch_arith (normalized s) =
  match list_ascii_of_string (normalized s) with
  | [] => false
  | l => forallb (fun c => Text.is_digit c || Text.is_space c ||
                           Text.one_of "()+-*/.%" c) l
  end.
Proof.
  assert (H : has_caret (normalized s) = false).
  { unfold has_caret. rewrite normalized_chars. apply caret_has_no_caret. }
  split; [exact H|].
  unfold has_caret in H. unfold Text.re_fullmatch_arith, Text.fullmatch_arith.
  destruct (list_ascii_of_string (normalized s)) as [|c l]; [reflexivity|].
  apply forallb_agree. intros d Hd.
  assert (Hc : Ascii.eqb "^" d = false).
  { destruct (Ascii.eqb "^" d) eqn:E; [|reflexivity].
    rewrite <- H. symmetry. apply existsb_exists. exists d. split; assumption. }
  unfold Text.arith_char, Text.one_of. f_equal.
  cbn [list_ascii_of_string existsb].
  rewrite (Ascii.eqb_sym d "^"), Hc. reflexivity.
Qed.

Lemma eval_int_value P (t : Ast.node) :
  forall z, int_value t = Some z ->
            Calc._eval_ast P t = Py.Return (Py.VInt z).
Proof.
  induction t as [v|o x IHx|l IHl o r IHr| | | | | |]; intros z H;
    cbn [int_value] in H; try discriminate.
  - destruct v; try discriminate. injection H as <-. reflexivity.
  - destruct o; try discriminate.
    destruct (int_value x) as [a|]; [|discriminate]. injection H as <-.
    cbn [Calc._eval_ast]. rewrite allowed_ops_lookup, (IHx a eq_refl).
    reflexivity.
  - destruct (int_value l) as [a|]; [|discriminate].
    destruct (int_value r) as [b|]; [|discriminate].
    cbn [Calc._eval_ast]. rewrite allowed_ops_lookup.
    rewrite (IHl a eq_refl), (IHr b eq_refl).
    destruct o; try discriminate; cbn [Py.bind].
    + injection H as <-. reflexivity.
    + injection H as <-. reflexivity.
    + injection H as <-. reflexivity.
    + unfold Py.op_mod, Py.function2, Py.mod_, Py.binary, Py.int_mod.
      destruct (b =? 0); [discriminate|]. injection H as <-. reflexivity.
    + unfold Py.op_pow, Py.function2, Py.pow, Py.binary, Py.int_pow.
      destruct (0 <=? b); [|discriminate].
      destruct (b * bits a <=? power_limit); [|discriminate].
      injection H as <-. reflexivity.
Qed.

(** What the tool answers when the text parses to [t] and [t] evaluates to
    [r]. *)
Lemma eval_expression_of_tree P (s : string) (t : Ast.node) :
  Text.re_fullmatch_arith (normalized s) = true ->
  Parser.ast_parse P (normalized s) = Py.Return t ->
  Calc.eval_expression P s =
  Py.try_except (Py.bind (Calc._eval_ast P t) Py.str)
    (fun e => Py.Return ("Error: " +:+ Py.str_exn e)).
Proof.
  intros Hm Hp. rewrite eval_expression_unfold, Hm. cbn [negb].
  unfold Calc.evaluate. rewrite Hp. reflexivity.
Qed.

(** X4. Integer arithmetic is exact. A tree of at most 200 nodes built from
    integer literals with unary minus, [+], [-], [*], [%] with a divisor
    that is not zero and [**] with an exponent that is not negative and a
    result of at most a million binary digits evaluates to the mathematical
    integer; for a text of at most 200 characters that parses to the tree,
    the tool answers with its decimal digits, unless there are more than
    4300 of them: then [str] refuses and the answer is its error message. *)
Theorem integer_arithmetic_is_exact (P : Py.platform) (t : Ast.node) (z : Z) :
  int_value t = Some z -> (nodes t <= max_nodes)%nat ->
  Calc._eval_ast P t = Py.Return (Py.VInt z) /\
  (forall s : string,
      (String.length s <= max_text)%nat ->
      Text.re_fullmatch_arith (normalized s) = true ->
      Parser.ast_parse P (normalized s) = Py.Return t ->
      Calc.eval_expression P s =
      Py.Return
        (if 4300 <? Py.ndigits (Z.abs z) then
           "Error: Exceeds the limit (4300 digits) for integer string conversion; use sys.set_int_max_str_digits() to increase the limit"
         else (if z <? 0 then "-" else "") +:+ Py.decimal (Z.abs z))).
Proof.
  intros H _. pose proof (eval_int_value P t z H) as E. split; [exact E|].
  intros s _ Hm Hp. rewrite (eval_expression_of_tree P s t Hm Hp), E.
  cbn [Py.bind Py.str]. unfold Py.int_str, Py.int_max_str_digits.
  destruct (4300 <? Py.ndigits (Z.abs z)); reflexivity.
Qed.

Lemma integer_arithmetic_witness :
  int_value
    (Ast.BinOp
       (Ast.BinOp
          (Ast.BinOp (Ast.Constant (Py.VInt 2)) Ast.Pow
             (Ast.Constant (Py.VInt 10)))
          Ast.Mod (Ast.Constant (Py.VInt 7)))
       Ast.Sub
       (Ast.BinOp (Ast.UnaryOp Ast.USub (Ast.Constant (Py.VInt 3))) Ast.Mult
          (Ast.Constant (Py.VInt 4)))) = Some 14 /\
  (String.length "2^10 % 7 - -3*4" <= max_text)%nat /\
  (forall P : Py.platform,
      Calc.eval_expression P "2^10 % 7 - -3*4" = Py.Return "14").
Proof.
  split; [reflexivity|]. split; [vm_compute; lia|]. intros P.
  refine (proj2 (integer_arithmetic_is_exact P
                   (Ast.BinOp
                      (Ast.BinOp
                         (Ast.BinOp (Ast.Constant (Py.VInt 2)) Ast.Pow
                            (Ast.Constant (Py.VInt 10)))
                         Ast.Mod (Ast.Constant (Py.VInt 7)))
                      Ast.Sub
                      (Ast.BinOp
                         (Ast.UnaryOp Ast.USub (Ast.Constant (Py.VInt 3)))
                         Ast.Mult (Ast.Constant (Py.VInt 4))))
                   14 eq_refl ltac:(vm_compute; lia))
            "2^10 % 7 - -3*4" ltac:(vm_compute; lia) _ _); reflexivity.
Defined.

(** X5. Dividing an integer by an integer expression that is zero is
    reported, not raised: for a tree of at most 200 nodes and a text of at
    most 200 characters, [/] answers [Error: division by zero] and [%]
    answers [Error: integer modulo by zero], whatever the integer value of
    the dividend. *)
Theorem integer_zero_divisor (P : Py.platform) (l r : Ast.node) (a : Z) :
  int_value l = Some a -> int_value r = Some 0 ->
  (nodes l + nodes r < max_nodes)%nat ->
  Calc._eval_ast P (Ast.BinOp l Ast.Div r) =
    Py.Raise (Py.ZeroDivisionError "division by zero") /\
  Calc._eval_ast P (Ast.BinOp l Ast.Mod r) =
    Py.Raise (Py.ZeroDivisionError "integer modulo by zero") /\
  (forall s : string,
      (String.length s <= max_text)%nat ->
      Text.re_fullmatch_arith (normalized s) = true ->
      (Parser.ast_parse P (normalized s) = Py.Return (Ast.BinOp l Ast.Div r) ->
       Calc.eval_expression P s = Py.Return "Error: division by zero") /\
      (Parser.ast_parse P (normalized s) = Py.Return (Ast.BinOp l Ast.Mod r) ->
       Calc.eval_expression P s = Py.Return "Error: integer modulo by zero")).
Proof.
  intros Hl Hr _.
  assert (D : Calc._eval_ast P (Ast.BinOp l Ast.Div r) =
              Py.Raise (Py.ZeroDivisionError "division by zero")).
  { cbn [Calc._eval_ast]. rewrite allowed_ops_lookup.
    rewrite (eval_int_value P l a Hl), (eval_int_value P r 0 Hr). reflexivity. }
  assert (M : Calc._eval_ast P (Ast.BinOp l Ast.Mod r) =
              Py.Raise (Py.ZeroDivisionError "integer modulo by zero")).
  { cbn [Calc._eval_ast]. rewrite allowed_ops_lookup.
    rewrite (eval_int_value P l a Hl), (eval_int_value P r 0 Hr). reflexivity. }
  split; [exact D|]. split; [exact M|].
  intros s _ Hm. split; intros Hp;
    rewrite (eval_expression_of_tree P s _ Hm Hp).
  - rewrite D. reflexivity.
  - rewrite M. reflexivity.
Qed.

Lemma integer_zero_divisor_witness :
  int_value (Ast.BinOp (Ast.Constant (Py.VInt 2)) Ast.Sub
               (Ast.Constant (Py.VInt 2))) = Some 0 /\
  (forall P : Py.platform,
      Calc.eval_expression P "7 / (2-2)" = Py.Return "Error: division by zero" /\
      Calc.eval_expression P "7 % (2-2)" =
        Py.Return "Error: integer modulo by zero").
Proof.
  split; [reflexivity|]. intros P.
  destruct (integer_zero_divisor P (Ast.Constant (Py.VInt 7))
              (Ast.BinOp (Ast.Constant (Py.VInt 2)) Ast.Sub
                 (Ast.Constant (Py.VInt 2))) 7 eq_refl eq_refl
              ltac:(vm_compute; lia))
    as [_ [_ H]].
  split.
  - apply (proj1 (H "7 / (2-2)" ltac:(vm_compute; lia) eq_refl)). reflexivity.
  - apply (proj2 (H "7 % (2-2)" ltac:(vm_compute; lia) eq_refl)). reflexivity.
Defined.


(** ** The vector store lookup *)

Import VectorStores.

Lemma named_name (name_ : string) (vs : VectorStore) :
  named name_ vs = true -> name vs = Some name_.
Proof.
  unfold named. destruct (name vs) as [n|]; [|discriminate].
  intros H. apply String.eqb_eq in H. rewrite H. reflexivity.
Qed.

Section LookupFacts.
Context {E : Type} (list_ : Z -> option string -> E + Page).

(** A result does not depend on the requests that were still allowed. *)
Lemma search_more (name_ : string) (fuel k : nat) :
  forall cursor r,
    search list_ name_ fuel cursor = Some r ->
    search list_ name_ (fuel + k) cursor = Some r.
Proof.
  induction fuel as [|fuel IH]; intros cursor r H; [discriminate|].
  cbn [Nat.add search] in *.
  destruct (if truthy cursor then list_ 50 cursor else list_ 50 None)
    as [e|page]; [exact H|].
  destruct (find (named name_) (data page)); [exact H|].
  destruct (no_more page); [exact H|]. apply IH, H.
Qed.

Lemma search_sound (name_ : string) (fuel : nat) :
  forall cursor,
    (forall i,
        search list_ name_ fuel cursor = Some (inr i) ->
        exists after page vs,
          list_ 50 after = inr page /\
          find (named name_) (data page) = Some vs /\ id vs = i) /\
    (forall e,
        search list_ name_ fuel cursor = Some (inl (Propagated e)) ->
        exists after, list_ 50 after = inl e) /\
    (forall m,
        search list_ name_ fuel cursor = Some (inl (RuntimeError m)) ->
        m = not_found name_ /\
        exists after page,
          list_ 50 after = inr page /\ no_more page = true /\
          find (named name_) (data page) = None).
Proof.
  induction fuel as [|fuel IH]; intros cursor.
  - repeat split; intros; discriminate.
  - cbn [search].
    set (after := if truthy cursor then cursor else None).
    replace (if truthy cursor then list_ 50 cursor else list_ 50 None)
      with (list_ 50 after) by (unfold after; destruct (truthy cursor); reflexivity).
    destruct (list_ 50 after) as [e|page] eqn:Hl.
    + repeat split; intros; try discriminate.
      exists after. congruence.
    + destruct (find (named name_) (data page)) as [vs|] eqn:Hf.
      * repeat split; intros; try discriminate.
        exists after, page, vs. repeat split; congruence.
      * destruct (no_more page) eqn:Hm; [|apply IH].
        repeat split; intros; try discriminate; try congruence.
        exists after, page. auto.
Qed.

(** X6. Whatever the service answers, a store id that the lookup returns is
    the id of the first store with the wanted name in a page the service
    gave; an exception of the service leaves the function as it came; and
    the function's own [RuntimeError] has the text
    [Vector store named '...' not found] and comes only after a page without
    that name that says there are no more. *)
Theorem lookup_is_sound (name_ : string) (fuel : nat) :
  (forall i,
      get_vector_store_id_by_name list_ name_ fuel = Some (inr i) ->
      exists after page vs,
        list_ 50 after = inr page /\
        find (named name_) (data page) = Some vs /\
        In vs (data page) /\ name vs = Some name_ /\ id vs = i) /\
  (forall e,
      get_vector_store_id_by_name list_ name_ fuel =
        Some (inl (Propagated e)) ->
      exists after, list_ 50 after = inl e) /\
  (forall m,
      get_vector_store_id_by_name list_ name_ fuel =
        Some (inl (RuntimeError m)) ->
      m = not_found name_ /\
      exists after page,
        list_ 50 after = inr page /\ no_more page = true /\
        find (named name_) (data page) = None).
Proof.
  unfold get_vector_store_id_by_name.
  destruct (search_sound name_ fuel None) as [H1 [H2 H3]].
  split; [|split; assumption].
  intros i H. destruct (H1 i H) as [after [page [vs [Hl [Hf Hi]]]]].
  exists after, page, vs. destruct (find_some _ _ Hf) as [Hin Hn].
  repeat split; try assumption. apply named_name, Hn.
Qed.

Lemma find_app_none {A} (f : A -> bool) (l l' : list A) :
  find f l = None -> find f (l ++ l') = find f l'.
Proof.
  induction l as [|a l IH]; [reflexivity|]. cbn [find app].
  destruct (f a); [discriminate|]. exact IH.
Qed.

Lemma find_app_some {A} (f : A -> bool) (l l' : list A) (x : A) :
  find f l = Some x -> find f (l ++ l') = Some x.
Proof.
  induction l as [|a l IH]; [discriminate|]. cbn [find app].
  destruct (f a); [auto|]. exact IH.
Qed.

Lemma search_pages (stores : list VectorStore) (name_ : string) :
  pages_through list_ stores ->
  Forall (fun vs => id vs <> "") stores ->
  forall fuel after rest,
    position stores after rest ->
    (length rest / 50 < fuel)%nat ->
    search list_ name_ fuel after =
    Some (match find (named name_) rest with
          | Some vs => inr (id vs)
          | None => inl (RuntimeError (not_found name_))
          end).
Proof.
  intros Hp Hid. induction fuel as [|fuel IH]; intros after rest Hpos Hfuel;
    [lia|].
  cbn [search].
  assert (Ha : (if truthy after then list_ 50 after else list_ 50 None) =
               list_ 50 after).
  { destruct Hpos as [[-> _]|[pre [x [Hs ->]]]]; [reflexivity|].
    destruct (truthy (Some (id x))) eqn:Ht; [reflexivity|].
    exfalso. rewrite List.Forall_forall in Hid. apply (Hid x).
    - rewrite Hs. apply in_or_app. right. left. reflexivity.
    - cbn in Ht. destruct (id x); [reflexivity|discriminate]. }
  rewrite Ha. destruct (Hp after rest Hpos) as [page [Hl [Hd [Hm Hlast]]]].
  rewrite Hl, Hd.
  pose proof (firstn_skipn 50 rest) as Hsplit.
  destruct (find (named name_) (firstn 50 rest)) as [vs|] eqn:Hf.
  - rewrite <- Hsplit. rewrite (find_app_some _ _ _ _ Hf). reflexivity.
  - assert (Hrest : find (named name_) rest =
                    find (named name_) (skipn 50 rest)).
    { rewrite <- Hsplit at 1. apply find_app_none, Hf. }
    rewrite Hm. destruct (50 <? length rest)%nat eqn:Hlen; cbn [negb].
    + apply Nat.ltb_lt in Hlen. rewrite Hrest.
      assert (Hne : firstn 50 rest <> []).
      { intros Hnil. apply (f_equal (@length _)) in Hnil.
        rewrite length_firstn in Hnil. cbn [length] in Hnil. lia. }
      destruct (exists_last Hne) as [front [y Hfy]].
      rewrite Hlast by exact Hm.
      rewrite Hd, Hfy, last_snoc. cbn [option_map].
      apply IH.
      * right. destruct Hpos as [[_ ->]|[pre [x [Hs _]]]].
        -- exists front, y. split; [|reflexivity].
           rewrite <- Hsplit at 1. rewrite Hfy, <- app_assoc. reflexivity.
        -- exists (pre ++ x :: front)%list, y. split; [|reflexivity].
           rewrite Hs. rewrite <- Hsplit at 1. rewrite Hfy.
           rewrite <- !app_assoc. reflexivity.
      * rewrite length_skipn.
        assert (H50 : (length rest = 50 + (length rest - 50))%nat) by lia.
        rewrite H50 in Hfuel.
        replace (50 + (length rest - 50))%nat
          with ((length rest - 50) + 1 * 50)%nat in Hfuel by lia.
        rewrite Nat.div_add in Hfuel by lia. lia.
    + apply Nat.ltb_ge in Hlen.
      rewrite firstn_all2 in Hf by exact Hlen. rewrite Hf. reflexivity.
Qed.

(** X7. When the service pages through a list of stores whose ids are not
    empty, the lookup returns the id of the first store of the whole list
    that has the wanted name, and raises [RuntimeError] with
    [Vector store named '...' not found] when there is none; it asks for at
    most one page more than the number of full pages of fifty. *)
Theorem lookup_finds_first (stores : list VectorStore) (name_ : string)
    (fuel : nat) :
  pages_through list_ stores ->
  Forall (fun vs => id vs <> "") stores ->
  (length stores / 50 < fuel)%nat ->
  get_vector_store_id_by_name list_ name_ fuel =
  Some (match find (named name_) stores with
        | Some vs => inr (id vs)
        | None => inl (RuntimeError (not_found name_))
        end).
Proof.
  intros Hp Hid Hfuel. unfold get_vector_store_id_by_name.
  apply (search_pages stores name_ Hp Hid); [|exact Hfuel].
  left. split; reflexivity.
Qed.

Lemma search_falsy (name_ : string) (page : Page) :
  list_ 50 None = inr page ->
  find (named name_) (data page) = None ->
  no_more page = false ->
  truthy (last_id page) = false ->
  forall fuel cursor,
    truthy cursor = false -> search list_ name_ fuel cursor = None.
Proof.
  intros Hl Hf Hm Ht. induction fuel as [|fuel IH]; intros cursor Hc;
    [reflexivity|].
  cbn [search]. rewrite Hc, Hl, Hf, Hm. apply IH, Ht.
Qed.

(** X8. A first page that lacks the name, says there are more, and gives no
    last id, or an empty one, sends the loop back to the first page: the
    cursor counts as false, the same request is made again, and the function
    never returns. *)
Theorem falsy_cursor_never_returns (name_ : string) (page : Page) :
  list_ 50 None = inr page ->
  find (named name_) (data page) = None ->
  no_more page = false ->
  truthy (last_id page) = false ->
  forall fuel, get_vector_store_id_by_name list_ name_ fuel = None.
Proof.
  intros Hl Hf Hm Ht fuel. unfold get_vector_store_id_by_name.
  apply (search_falsy name_ page Hl Hf Hm Ht). reflexivity.
Qed.

End LookupFacts.

Lemma after_id_split (pre rest : list VectorStore) (x : VectorStore) :
  NoDup (map id (pre ++ x :: rest)) ->
  after_id (id x) (pre ++ x :: rest) = rest.
Proof.
  induction pre as [|p pre IH]; intros H.
  - cbn [app after_id]. rewrite String.eqb_refl. reflexivity.
  - cbn [app map] in H. apply NoDup_cons in H as [Hp H].
    cbn [app after_id]. destruct (String.eqb (id p) (id x)) eqn:Heq.
    + exfalso. apply String.eqb_eq in Heq. apply Hp. rewrite Heq.
      apply list_elem_of_In. rewrite map_app. apply in_or_app. right. left. reflexivity.
    + apply IH. exact H.
Qed.

(** A service that pages through its list, when the ids are distinct. *)
Lemma paged_pages_through (stores : list VectorStore) :
  NoDup (map id stores) -> pages_through (paged stores) stores.
Proof.
  intros Hnd after rest Hpos.
  assert (Hrest : match after with
                  | Some a => after_id a stores
                  | None => stores
                  end = rest).
  { destruct Hpos as [[-> ->]|[pre [x [Hs ->]]]]; [reflexivity|].
    rewrite Hs in *. apply after_id_split, Hnd. }
  eexists. split; [reflexivity|]. cbn [data has_more last_id no_more].
  rewrite Hrest. change (Z.to_nat 50) with 50%nat.
  split; [reflexivity|]. split; [|reflexivity].
  destruct (50 <? length rest)%nat; reflexivity.
Qed.

Lemma lookup_finds_first_witness :
  (length sixty / 50 < 2)%nat /\
  get_vector_store_id_by_name (paged sixty) "Data Lines Vector Store" 2 =
    Some (inr "vs_55").
Proof.
  split; [vm_compute; lia|].
  rewrite (lookup_finds_first (paged sixty) sixty "Data Lines Vector Store" 2).
  - reflexivity.
  - apply paged_pages_through. apply (bool_decide_unpack _). vm_compute.
    exact I.
  - apply (bool_decide_unpack _). vm_compute. exact I.
  - vm_compute. lia.
Defined.

Lemma falsy_cursor_witness :
  truthy (Some "") = false /\
  get_vector_store_id_by_name stuck "Data Lines Vector Store" 1000 = None.
Proof.
  split; [reflexivity|].
  apply (falsy_cursor_never_returns stuck "Data Lines Vector Store"
           {| data := []; has_more := Some true; last_id := Some "" |});
    reflexivity.
Defined.

(** ** Loading the script *)

Import Startup.

(** X9. Without a key in the environment, or with an empty one, loading the
    script raises [RuntimeError] with [Please set OPENAI_API_KEY.] whatever
    the service would answer. When loading gets as far as the Data agent, the
    key was set, the agent's tools are the web search and a file search of
    at most three results over exactly one vector store, and the service
    listed that store under the name [Data Lines Vector Store]. *)
Theorem load_builds_the_data_agent {E : Type} (P : Py.platform)
    (api_key : option string) (list_ : Z -> option string -> E + Page)
    (fuel : nat) :
  (missing api_key = true ->
   load P api_key list_ fuel =
     Some (inl (RuntimeError "Please set OPENAI_API_KEY."))) /\
  (forall a : Agents.Agent,
      load P api_key list_ fuel = Some (inr a) ->
      missing api_key = false /\
      exists after page vs,
        list_ 50 after = inr page /\ In vs (data page) /\
        name vs = Some "Data Lines Vector Store" /\
        a = Agents.data_agent P (id vs) /\
        Agents.tools a =
          [Agents.WebSearchTool; Agents.FileSearchTool [id vs] 3]).
Proof.
  unfold load. split.
  - intros ->. reflexivity.
  - intros a H. destruct (missing api_key); [discriminate|].
    split; [reflexivity|].
    destruct (get_vector_store_id_by_name list_ "Data Lines Vector Store" fuel)
      as [[e|i]|] eqn:Hg; try discriminate.
    destruct (proj1 (lookup_is_sound list_ _ fuel) i Hg)
      as [after [page [vs [Hl [_ [Hin [Hn Hi]]]]]]].
    exists after, page, vs. injection H as <-. rewrite Hi.
    repeat split; assumption || reflexivity.
Qed.

Lemma load_witness :
  missing (Some "") = true /\
  (forall P : Py.platform,
      load P (Some "") (paged sixty) 2 =
        Some (inl (RuntimeError "Please set OPENAI_API_KEY.")) /\
      load P (Some "sk-test") (paged sixty) 2 =
        Some (inr (Agents.data_agent P "vs_55"))).
Proof.
  split; [reflexivity|]. intros P. split.
  - apply (proj1 (load_builds_the_data_agent P (Some "") (paged sixty) 2)).
    reflexivity.
  - reflexivity.
Defined.


(** ** The token script *)

Import GetNewToken.

(** X10. What the token script prints after [Authenticating...]. A refusal
    of the credentials gives the fixed line about an invalid username or
    password; any other exception of the service gives [Error: ] and its
    text; an answer that lacks a key the script asks for, the refresh token
    included, gives [Error: ] and the first such key in quotes, and no
    token at all; a complete answer gives the success line, the lifetime in
    seconds and in whole minutes, the access token and the id token. *)
Theorem token_script_output
    (initiate_auth :
       string -> string -> string -> string -> raised + InitiateAuthResponse)
    (client_id username password : string) :
  (forall text,
      initiate_auth client_id "USER_PASSWORD_AUTH" username password =
        inl (NotAuthorizedException text) ->
      script initiate_auth client_id username password =
        ["Authenticating...";
         "❌ Authentication failed: Invalid username or password"]) /\
  (forall e,
      initiate_auth client_id "USER_PASSWORD_AUTH" username password = inl e ->
      (forall text, e <> NotAuthorizedException text) ->
      script initiate_auth client_id username password =
        ["Authenticating..."; "❌ Error: " +:+ str_raised e]) /\
  (forall a key,
      initiate_auth client_id "USER_PASSWORD_AUTH" username password = inr a ->
      missing_key a = Some key ->
      script initiate_auth client_id username password =
        ["Authenticating..."; "❌ Error: '" +:+ key +:+ "'"]) /\
  (forall a access_token id_token refresh_token expires_in seconds minutes,
      initiate_auth client_id "USER_PASSWORD_AUTH" username password = inr a ->
      authentication_result a =
        Some {| AccessToken := Some access_token;
                IdToken := Some id_token;
                RefreshToken := Some refresh_token;
                ExpiresIn := Some expires_in |} ->
      Py.int_str expires_in = Py.Return seconds ->
      Py.int_str (expires_in / 60) = Py.Return minutes ->
      script initiate_auth client_id username password =
        ["Authenticating...";
         Script.newline +:+ "✅ Authentication successful!";
         "Token expires in: " +:+ seconds +:+ " seconds (" +:+ minutes +:+
           " minutes)";
         Script.newline +:+ "Access Token (Bearer Token):" +:+ Script.newline
           +:+ access_token;
         Script.newline +:+ "ID Token:" +:+ Script.newline +:+ id_token]).
Proof.
  unfold script, attempt, tokens. repeat split.
  - intros text ->. reflexivity.
  - intros e -> Hne. cbn [and_then].
    destruct e; try reflexivity. exfalso. apply (Hne text). reflexivity.
  - intros a key -> Hk. cbn [and_then]. unfold missing_key in Hk.
    destruct (authentication_result a) as [r|];
      [|injection Hk as <-; reflexivity].
    cbn [item and_then].
    destruct (AccessToken r); cbn [has negb item and_then] in *;
      [|injection Hk as <-; reflexivity].
    destruct (IdToken r); cbn [has negb item and_then] in *;
      [|injection Hk as <-; reflexivity].
    destruct (RefreshToken r); cbn [has negb item and_then] in *;
      [|injection Hk as <-; reflexivity].
    destruct (ExpiresIn r); cbn [has negb item and_then] in *;
      [discriminate|injection Hk as <-; reflexivity].
  - intros a access_token id_token refresh_token expires_in seconds minutes
      -> Hr Hs Hm.
    cbn [and_then]. rewrite Hr.
    cbn [item and_then AccessToken IdToken RefreshToken ExpiresIn].
    unfold format_int. rewrite Hs. cbn [and_then]. rewrite Hm. reflexivity.
Qed.

Lemma token_script_witness :
  script one_user "client" "data" "positronic" =
    ["Authenticating...";
     Script.newline +:+ "✅ Authentication successful!";
     "Token expires in: 3600 seconds (60 minutes)";
     Script.newline +:+ "Access Token (Bearer Token):" +:+ Script.newline
       +:+ "eyJhY2Nlc3M";
     Script.newline +:+ "ID Token:" +:+ Script.newline +:+ "eyJpZA"] /\
  script one_user "client" "lore" "positronic" =
    ["Authenticating..."; "❌ Error: 'AuthenticationResult'"].
Proof.
  destruct (token_script_output one_user "client" "data" "positronic")
    as [_ [_ [_ H]]].
  destruct (token_script_output one_user "client" "lore" "positronic")
    as [_ [_ [K _]]].
  split.
  - apply (H _ "eyJhY2Nlc3M" "eyJpZA" "eyJyZWZyZXNo" 3600 "3600" "60" eq_refl);
      reflexivity.
  - apply (K _ "AuthenticationResult" eq_refl). reflexivity.
Defined.

(** X11. The script prints neither the refresh token nor what the service
    says when it refuses the credentials: with another refresh token, or
    another text of the refusal, the lines printed are the same. *)
Theorem refresh_token_is_not_printed
    (initiate_auth :
       string -> string -> string -> string -> raised + InitiateAuthResponse)
    (client_id username password : string) :
  script (fun c f u p => redact (initiate_auth c f u p))
    client_id username password =
  script initiate_auth client_id username password.
Proof.
  unfold script, attempt, tokens.
  destruct (initiate_auth client_id "USER_PASSWORD_AUTH" username password)
    as [e|a]; cbn [redact and_then].
  - destruct e; reflexivity.
  - destruct a as [[r|]]; cbn [authentication_result option_map item and_then];
      [|reflexivity].
    destruct r as [[x|] [y|] [z|] [n|]];
      cbn [AccessToken IdToken RefreshToken ExpiresIn option_map item and_then];
      reflexivity.
Qed.


(** ** [main] *)

Section MainFacts.
Import Main.
Context {output failure RunResult : Type}.
Context (final_output : RunResult -> output).
Context (last_agent_name : RunResult -> string).
Context (Runner_run : Agents.Agent -> string -> raised failure + RunResult).
Context (data_agent : Agents.Agent).

#[local] Abbreviation effect := (@effect output failure).
#[local] Abbreviation demo := (demo final_output last_agent_name Runner_run data_agent).
#[local] Abbreviation blocked_demo := (@blocked_demo output failure RunResult Runner_run data_agent).
#[local] Abbreviation main := (main final_output last_agent_name Runner_run data_agent).
#[local] Abbreviation returns p := (exists out, Runner_run data_agent p = inr out).

Lemma then_normal (a b : effect) :
  snd (then_ a b) = None <-> snd a = None /\ snd b = None.
Proof.
  destruct a as [pa [e|]]; cbn [then_ snd]; split.
  - discriminate.
  - intros [H _]. discriminate.
  - auto.
  - intros [_ H]. exact H.
Qed.

Lemma then_raised (a b : effect) (e : raised failure) :
  snd a = Some e -> then_ a b = a.
Proof. destruct a as [pa [e'|]]; cbn; [reflexivity|discriminate]. Qed.

Lemma then_snd (a b : effect) :
  snd a = None -> snd (then_ a b) = snd b.
Proof. destruct a as [pa [e'|]]; cbn; [discriminate|reflexivity]. Qed.

Lemma then_length (a b : effect) :
  snd a = None ->
  length (fst (then_ a b)) = (length (fst a) + length (fst b))%nat.
Proof.
  destruct a as [pa [e'|]]; cbn [then_ fst snd]; [discriminate|].
  intros _. apply length_app.
Qed.

Lemma demo_normal (prompt label : string) (handled : bool) :
  snd (demo prompt label handled) = None <-> returns prompt.
Proof.
  unfold Main.demo. destruct (Runner_run data_agent prompt) as [e|out];
    cbn [snd]; split.
  - discriminate.
  - intros [out H]. discriminate.
  - eauto.
  - reflexivity.
Qed.

Lemma demo_raised (prompt label : string) (handled : bool)
    (e : raised failure) :
  Runner_run data_agent prompt = inl e ->
  demo prompt label handled = ([], Some e).
Proof. unfold Main.demo. intros ->. reflexivity. Qed.

Lemma demo_length (prompt label : string) (handled : bool) :
  returns prompt ->
  length (fst (demo prompt label handled)) = if handled then 2%nat else 1%nat.
Proof.
  intros [out H]. unfold Main.demo. rewrite H. destruct handled; reflexivity.
Qed.

Lemma blocked_normal :
  snd blocked_demo = None <->
  forall e, Runner_run data_agent
              "Tell me about your relationship with Tasha Yar." <>
            inl (Other e).
Proof.
  unfold Main.blocked_demo.
  destruct (Runner_run data_agent _) as [[|e]|out]; cbn [snd]; split;
    try discriminate; try reflexivity.
  intros H. exfalso. apply (H e). reflexivity.
Qed.

Lemma blocked_line :
  snd blocked_demo = None ->
  fst blocked_demo = [[PStr "ERROR: guardrail did not trip"]] \/
  fst blocked_demo =
    [[PStr "✅ Guardrail tripped as expected: Tasha Yar is off-limits."]].
Proof.
  unfold Main.blocked_demo.
  destruct (Runner_run data_agent _) as [[|e]|out]; cbn [fst snd]; auto.
  discriminate.
Qed.

(** X12. How [main] ends. It returns normally exactly when the five later
    runs return and the first run does not raise anything but the tripped
    guardrail; then it has called [print] nine times. An exception of the
    first run other than the tripped guardrail leaves [main] before
    anything is printed. When a later run is the first to raise, its
    exception leaves [main], the tripped guardrail included: only the
    first block catches it. Whatever [main] prints starts with the line of
    the first block: that the guardrail tripped, or that it did not. *)
Theorem main_outcome :
  (snd main = None <->
   (forall e, Runner_run data_agent
                "Tell me about your relationship with Tasha Yar." <>
              inl (Other e)) /\
   Forall (fun p => returns p) later_prompts) /\
  (snd main = None -> length (fst main) = 9%nat) /\
  (forall e,
      Runner_run data_agent "Tell me about your relationship with Tasha Yar." =
        inl (Other e) ->
      main = ([], Some (Other e))) /\
  (forall pre p post e,
      later_prompts = (pre ++ p :: post)%list ->
      (forall e', Runner_run data_agent
                    "Tell me about your relationship with Tasha Yar." <>
                  inl (Other e')) ->
      Forall (fun p => returns p) pre ->
      Runner_run data_agent p = inl e ->
      snd main = Some e) /\
  (forall line lines,
      fst main = line :: lines ->
      line = [PStr "ERROR: guardrail did not trip"] \/
      line = [PStr "✅ Guardrail tripped as expected: Tasha Yar is off-limits."]).
Proof.
  assert (N : snd main = None <->
              (forall e, Runner_run data_agent
                           "Tell me about your relationship with Tasha Yar." <>
                         inl (Other e)) /\
              Forall (fun p => returns p) later_prompts).
  { unfold Main.main, later_prompts.
    rewrite !then_normal, !demo_normal, blocked_normal, !Forall_cons.
    pose proof (Forall_nil (fun p => returns p)). tauto. }
  split; [exact N|]. split; [|split; [|split]].
  - intros H. apply N in H as [H0 H]. unfold later_prompts in H.
    rewrite !Forall_cons in H. destruct H as (H1 & H2 & H3 & H4 & H5 & _).
    apply blocked_normal in H0. unfold Main.main.
    rewrite !then_length; try (apply demo_normal; assumption); try assumption.
    rewrite !demo_length by assumption.
    destruct (blocked_line H0) as [-> | ->]; reflexivity.
  - intros e H. unfold Main.main.
    assert (B : blocked_demo = ([], Some (Other e))).
    { unfold Main.blocked_demo. rewrite H. reflexivity. }
    rewrite (then_raised _ _ (Other e)); [exact B|]. rewrite B. reflexivity.
  - intros pre p post e Hsplit H0 Hpre He. apply blocked_normal in H0.
    unfold Main.main. rewrite then_snd by exact H0.
    unfold later_prompts in Hsplit.
    repeat (destruct pre as [|? pre];
            [injection Hsplit as <- _;
             repeat (rewrite then_snd by (apply demo_normal; assumption));
             first [ rewrite (then_raised _ _ e);
                     rewrite (demo_raised _ _ _ e He); reflexivity
                   | rewrite (demo_raised _ _ _ e He); reflexivity ]
            |injection Hsplit as <- Hsplit;
             apply Forall_cons in Hpre as [? Hpre]]).
    destruct pre; discriminate.
  - intros line lines H. unfold Main.main in H.
    destruct (snd blocked_demo) as [e|] eqn:Hb.
    + rewrite (then_raised _ _ e Hb) in H. revert Hb H.
      unfold Main.blocked_demo.
      destruct (Runner_run data_agent _) as [[|e']|out]; cbn [fst snd];
        discriminate.
    + destruct (blocked_line Hb) as [E|E]; revert H;
        destruct blocked_demo as [pb eb]; cbn [fst snd] in *; subst;
        cbn [then_ fst app]; intros H; injection H as <- _; auto.
Qed.

End MainFacts.


Lemma main_outcome_witness :
  Main.later_prompts =
    (["Summarize Data's ethical subroutines in 2 sentences."] ++
     "Hello, Data. Please confirm your operational status." ::
     ["Compute ((2*8)^2)/3"; "Do you experience emotions?";
      "Search the web for recent news about the James Webb Space Telescope and summarize briefly."])%list /\
  (forall P : Py.platform,
      snd (Main.main fst snd Main.touchy (Agents.data_agent P "vs_55")) =
        Some Main.InputGuardrailTripwireTriggered /\
      fst (Main.main fst snd Main.touchy (Agents.data_agent P "vs_55")) =
        [[Main.PStr "✅ Guardrail tripped as expected: Tasha Yar is off-limits."];
         [Main.PStr ("✅ Allowed prompt output:" +:+ Script.newline);
          Main.POut "Affirmative."]]).
Proof.
  split; [reflexivity|]. intros P.
  pose proof (proj1 (proj2 (proj2 (proj2
                (main_outcome fst snd Main.touchy
                   (Agents.data_agent P "vs_55")))))
                ["Summarize Data's ethical subroutines in 2 sentences."]
                "Hello, Data. Please confirm your operational status."
                ["Compute ((2*8)^2)/3"; "Do you experience emotions?";
                 "Search the web for recent news about the James Webb Space Telescope and summarize briefly."]
                Main.InputGuardrailTripwireTriggered eq_refl) as H.
  split; [|reflexivity]. apply H.
  - intros e'. vm_compute. discriminate.
  - apply Forall_cons. split; [eexists; reflexivity|apply List.Forall_nil].
  - reflexivity.
Defined.

(** [Script.main] is [main] over the runner of the modelled run loop, for
    the runs of [main] that end normally. *)
Lemma script_main_agrees cfg W P vs_id (lines : list (list Script.printable)) :
  Script.main cfg W P vs_id = inr lines ->
  Main.main fst snd (Main.of_run_loop cfg W) (Agents.data_agent P vs_id) =
    (map (map Main.of_printable) lines, None).
Proof.
  unfold Script.main, Script.blocked_demo, Script.demo, Main.main,
    Main.blocked_demo, Main.demo, Main.of_run_loop.
  repeat match goal with
         | |- context [Script.Runner_run ?c ?w ?a ?p] =>
             destruct (Script.Runner_run c w a p) as [[]|[? ?]];
             cbn [Script.and_then Main.then_ fst snd app map Main.of_printable];
             try discriminate
         end;
    intros H; injection H as <-; reflexivity.
Qed.


(** ** Written expressions: tokens, tree and value *)

Import Written.

Lemma forallb_reversed {A} (f : A -> bool) (l : list A) :
  forallb f (rev l) = forallb f l.
Proof.
  induction l as [|a l IH]; [reflexivity|].
  cbn [rev forallb]. rewrite forallb_app, IH. cbn [forallb].
  rewrite andb_true_r. apply andb_comm.
Qed.

(** *** The tokenizer on a written expression *)

Lemma idle_digit (c : ascii) d s ts :
  Text.is_digit c = true ->
  Parser.idle (between_tokens d s ts) c =
  Some (Parser.Lexer (Parser.InInt [c]) d true false false ts).
Proof.
  intros H. destruct c as [[] [] [] [] [] [] [] []];
    vm_compute in H; try discriminate H; reflexivity.
Qed.

Lemma operand_start_facts (c : ascii) :
  starts_operand c = true ->
  Ascii.eqb c "*" = false /\ Ascii.eqb c "/" = false.
Proof.
  intros H. destruct c as [[] [] [] [] [] [] [] []];
    vm_compute in H; try discriminate H; split; reflexivity.
Qed.

Lemma follows_facts (c : ascii) :
  Text.one_of "+-*/%)" c = true ->
  Text.is_digit c = false /\ Ascii.eqb c "." = false.
Proof.
  intros H. destruct c as [[] [] [] [] [] [] [] []];
    vm_compute in H; try discriminate H; split; reflexivity.
Qed.

Lemma lex_digits (ds : list ascii) :
  forallb Text.is_digit ds = true ->
  forall acc d ts rest,
    Parser.lex (Parser.Lexer (Parser.InInt acc) d true false false ts)
      (ds ++ rest) =
    Parser.lex (Parser.Lexer (Parser.InInt (rev ds ++ acc)) d true false false ts)
      rest.
Proof.
  induction ds as [|c ds IH]; intros H acc d ts rest; [reflexivity|].
  cbn [forallb] in H. apply andb_true_iff in H as [Hc Hds].
  cbn [app Parser.lex Parser.lex_char Parser.pend]. rewrite Hc.
  unfold Parser.wait. cbn [Parser.depth Parser.indented Parser.ended Parser.tokens].
  rewrite (IH Hds). cbn [rev]. rewrite <- app_assoc. reflexivity.
Qed.

Lemma int_literal_of (ds : list ascii) :
  literal ds = true ->
  Parser.int_literal (rev ds) =
  Some (Parser.NUMBER (Py.VInt (Parser.digits_value (rev ds)))).
Proof.
  unfold literal, Parser.int_literal. destruct ds as [|d rest]; [discriminate|].
  intros H. apply andb_true_iff in H as [H Hz].
  apply andb_true_iff in H as [_ Hlen].
  rewrite rev_involutive, forallb_reversed, length_rev.
  replace (Py.int_max_str_digits <? Z.of_nat (length (d :: rest)))
    with false by (symmetry; apply Z.ltb_ge, Z.leb_le, Hlen).
  rewrite andb_false_r.
  destruct rest as [|d' rest]; [reflexivity|].
  destruct (Parser.is_zero_digit d); [|reflexivity].
  cbn [negb orb] in Hz. rewrite Hz. reflexivity.
Qed.

Lemma lex_literal (ds : list ascii) d s ts rest :
  literal ds = true -> follows rest = true ->
  Parser.lex (between_tokens d s ts) (ds ++ rest) =
  Parser.lex
    (between_tokens d true
       (Parser.NUMBER (Py.VInt (Parser.digits_value (rev ds))) :: ts))
    rest.
Proof.
  intros Hl Hf. pose proof (int_literal_of ds Hl) as Hi.
  unfold literal in Hl. destruct ds as [|c tl]; [discriminate|].
  apply andb_true_iff in Hl as [Hl _]. apply andb_true_iff in Hl as [Hd _].
  cbn [forallb] in Hd. apply andb_true_iff in Hd as [Hc Htl].
  cbn [app Parser.lex]. unfold between_tokens at 1.
  cbn [Parser.lex_char Parser.pend].
  change (Parser.Lexer Parser.Idle d s false false ts)
    with (between_tokens d s ts).
  rewrite (idle_digit c d s ts Hc), (lex_digits tl Htl).
  change (rev tl ++ [c])%list with (rev (c :: tl)).
  destruct rest as [|c' rest].
  - cbn [Parser.lex Parser.flush Parser.pend]. rewrite Hi. reflexivity.
  - cbn [follows] in Hf. destruct (follows_facts c' Hf) as [Hnd Hndot].
    cbn [Parser.lex Parser.lex_char Parser.pend]. rewrite Hnd, Hndot.
    unfold Parser.flush_then. cbn [Parser.flush Parser.pend]. rewrite Hi.
    reflexivity.
Qed.

Lemma lex_unary (o : Ast.op_type) d s ts rest :
  is_unary o = true ->
  Parser.lex (between_tokens d s ts) (symbol "**" o ++ rest) =
  Parser.lex (between_tokens d true (operator_token o :: ts)) rest.
Proof. destruct o; try discriminate; reflexivity. Qed.

Lemma lex_star_then (c : ascii) d ts rest :
  Ascii.eqb c "*" = false ->
  Parser.lex (Parser.Lexer Parser.Star d true false false ts) (c :: rest) =
  Parser.lex (between_tokens d true (Parser.STAR :: ts)) (c :: rest).
Proof.
  intros H. cbn [Parser.lex Parser.lex_char Parser.pend]. rewrite H.
  reflexivity.
Qed.

Lemma lex_slash_then (c : ascii) d ts rest :
  Ascii.eqb c "/" = false ->
  Parser.lex (Parser.Lexer Parser.Slash d true false false ts) (c :: rest) =
  Parser.lex (between_tokens d true (Parser.SLASH :: ts)) (c :: rest).
Proof.
  intros H. cbn [Parser.lex Parser.lex_char Parser.pend]. rewrite H.
  reflexivity.
Qed.

Lemma lex_binary (o : Ast.op_type) d s ts (c : ascii) rest :
  is_binary o = true -> starts_operand c = true ->
  Parser.lex (between_tokens d s ts) (symbol "**" o ++ c :: rest) =
  Parser.lex (between_tokens d true (operator_token o :: ts)) (c :: rest).
Proof.
  intros Ho Hc. destruct (operand_start_facts c Hc) as [Hs Hd].
  destruct o; try discriminate; try reflexivity.
  - change (Parser.lex (between_tokens d s ts) (symbol "**" Ast.Mult ++ c :: rest))
      with (Parser.lex (Parser.Lexer Parser.Star d true false false ts) (c :: rest)).
    apply lex_star_then. exact Hs.
  - change (Parser.lex (between_tokens d s ts) (symbol "**" Ast.Div ++ c :: rest))
      with (Parser.lex (Parser.Lexer Parser.Slash d true false false ts) (c :: rest)).
    apply lex_slash_then. exact Hd.
Qed.

Lemma idle_open d s ts :
  d < Parser.max_level ->
  Parser.idle (between_tokens d s ts) "(" =
  Some (between_tokens (d + 1) true (Parser.LPAR :: ts)).
Proof.
  intros H. unfold Parser.idle, between_tokens.
  cbn [Parser.ended Parser.started Parser.indented Parser.depth Parser.tokens].
  replace (Parser.max_level <=? d) with false
    by (symmetry; apply Z.leb_gt, H).
  reflexivity.
Qed.

Lemma idle_close d s ts :
  0 <= d ->
  Parser.idle (between_tokens (d + 1) s ts) ")" =
  Some (between_tokens d true (Parser.RPAR :: ts)).
Proof.
  intros H. unfold Parser.idle, between_tokens.
  cbn [Parser.ended Parser.started Parser.indented Parser.depth Parser.tokens].
  replace (d + 1 <=? 0) with false by (symmetry; apply Z.leb_gt; lia).
  replace (d + 1 - 1) with d by lia.
  reflexivity.
Qed.

Lemma nesting_nonneg (e : expr) : 0 <= nesting e.
Proof. induction e; cbn [nesting]; lia. Qed.

Lemma spell_starts (e : expr) :
  well_written e = true ->
  exists c rest, spell e = c :: rest /\ starts_operand c = true.
Proof.
  destruct e as [ds|o x|l o r]; cbn [well_written]; intros H.
  - unfold literal in H. destruct ds as [|c tl]; [discriminate|].
    exists c, tl. split; [reflexivity|].
    apply andb_true_iff in H as [H _]. apply andb_true_iff in H as [H _].
    cbn [forallb] in H. apply andb_true_iff in H as [H _].
    unfold starts_operand. rewrite H. reflexivity.
  - eexists _, _. split; reflexivity.
  - eexists _, _. split; reflexivity.
Qed.

Lemma lex_spell (e : expr) :
  well_written e = true ->
  forall d s ts rest,
    0 <= d -> d + nesting e <= Parser.max_level -> follows rest = true ->
    Parser.lex (between_tokens d s ts) (spell e ++ rest) =
    Parser.lex (between_tokens d true (rev (toks e) ++ ts)) rest.
Proof.
  unfold spell. induction e as [ds|o x IHx|l IHl o r IHr];
    cbn [well_written nesting write toks]; intros Hw d s ts rest Hd Hn Hf.
  - apply lex_literal; assumption.
  - apply andb_true_iff in Hw as [Ho Hx].
    pose proof (nesting_nonneg x) as Hx0.
    cbn [app Parser.lex]. unfold between_tokens at 1.
    cbn [Parser.lex_char Parser.pend].
    change (Parser.Lexer Parser.Idle d s false false ts)
      with (between_tokens d s ts).
    rewrite idle_open by lia. rewrite <- !app_assoc.
    rewrite (lex_unary o _ _ _ _ Ho).
    rewrite (IHx Hx) by (try reflexivity; lia).
    cbn [app Parser.lex]. unfold between_tokens at 1.
    cbn [Parser.lex_char Parser.pend].
    change (Parser.Lexer Parser.Idle (d + 1) true false false ?t)
      with (between_tokens (d + 1) true t).
    rewrite idle_close by lia.
    cbn [rev app]. rewrite !rev_app_distr. cbn [rev app].
    rewrite <- !app_assoc. reflexivity.
  - apply andb_true_iff in Hw as [Hw Hr]. apply andb_true_iff in Hw as [Ho Hl].
    pose proof (nesting_nonneg l) as Hl0. pose proof (nesting_nonneg r) as Hr0.
    destruct (spell_starts r Hr) as [c [tl [Hsp Hc]]]. unfold spell in Hsp.
    cbn [app Parser.lex]. unfold between_tokens at 1.
    cbn [Parser.lex_char Parser.pend].
    change (Parser.Lexer Parser.Idle d s false false ts)
      with (between_tokens d s ts).
    rewrite idle_open by lia. rewrite <- !app_assoc.
    rewrite (IHl Hl); [|lia|lia|destruct o; try discriminate; reflexivity].
    pose proof (IHr Hr) as IH. rewrite Hsp in IH |- *.
    cbn [app]. rewrite (lex_binary o _ _ _ c _ Ho Hc).
    specialize (IH (d + 1) true
                  (operator_token o :: rev (toks l) ++ Parser.LPAR :: ts)%list
                  (")"%char :: rest)).
    cbn [app] in IH. rewrite IH by (try reflexivity; lia).
    cbn [app Parser.lex]. unfold between_tokens at 1.
    cbn [Parser.lex_char Parser.pend].
    change (Parser.Lexer Parser.Idle (d + 1) true false false ?t)
      with (between_tokens (d + 1) true t).
    rewrite idle_close by lia.
    cbn [rev app]. rewrite !rev_app_distr. cbn [rev app].
    rewrite !rev_app_distr. cbn [rev app].
    rewrite <- !app_assoc. reflexivity.
Qed.

Lemma tokenize_spell (e : expr) :
  well_written e = true -> nesting e <= Parser.max_level ->
  Parser.tokenize (spell e) = Some (toks e).
Proof.
  intros Hw Hn. unfold Parser.tokenize.
  rewrite <- (app_nil_r (spell e)).
  change Parser.initial with (between_tokens 0 false []).
  rewrite (lex_spell e Hw) by (try reflexivity; lia).
  cbn. rewrite app_nil_r, rev_involutive. reflexivity.
Qed.

(** *** The parser on the tokens of a written expression *)

Lemma parse_toks (e : expr) :
  well_written e = true ->
  forall ops operands rest,
    Parser.parse_tokens (Parser.Parser true ops operands) (toks e ++ rest) =
    Parser.parse_tokens (Parser.Parser false ops (tree e :: operands)) rest.
Proof.
  induction e as [ds|o x IHx|l IHl o r IHr]; cbn [well_written toks tree];
    intros Hw ops operands rest.
  - reflexivity.
  - apply andb_true_iff in Hw as [Ho Hx].
    cbn [app Parser.parse_tokens Parser.parse_token Parser.want_operand].
    assert (Hp : Parser.parse_token (Parser.push_item Parser.Group
                                       (Parser.Parser true ops operands))
                   (operator_token o) =
                 Some (Parser.Parser true
                         (Parser.Unary o :: Parser.Group :: ops) operands)).
    { destruct o; try discriminate; reflexivity. }
    rewrite Hp, <- app_assoc, (IHx Hx).
    cbn [app Parser.parse_tokens Parser.parse_token Parser.want_operand].
    reflexivity.
  - apply andb_true_iff in Hw as [Hw Hr]. apply andb_true_iff in Hw as [Ho Hl].
    cbn [app Parser.parse_tokens Parser.parse_token Parser.want_operand].
    unfold Parser.push_item. cbn [Parser.ops Parser.operands].
    rewrite <- app_assoc, (IHl Hl).
    cbn [app Parser.parse_tokens].
    assert (Hp : Parser.parse_token
                   (Parser.Parser false (Parser.Group :: ops)
                      (tree l :: operands))
                   (operator_token o) =
                 Some (Parser.Parser true
                         (Parser.Binary o :: Parser.Group :: ops)
                         (tree l :: operands))).
    { destruct o; try discriminate; reflexivity. }
    rewrite Hp, <- app_assoc, (IHr Hr).
    cbn [app].
    cbn [Parser.parse_tokens Parser.parse_token Parser.want_operand].
    unfold Parser.close. cbn [Parser.ops Parser.operands Parser.reduce].
    replace (0 <=? Parser.binding (Parser.Binary o)) with true
      by (destruct o; reflexivity).
    reflexivity.
Qed.

Lemma parse_written (e : expr) :
  well_written e = true -> Parser.parse (toks e) = Some (tree e).
Proof.
  intros Hw. unfold Parser.parse. rewrite <- (app_nil_r (toks e)).
  rewrite (parse_toks e Hw). reflexivity.
Qed.

Lemma ast_parse_spell P (e : expr) :
  well_written e = true -> nesting e <= Parser.max_level ->
  Parser.ast_parse P (string_of_list_ascii (spell e)) = Py.Return (tree e).
Proof.
  intros Hw Hn. unfold Parser.ast_parse.
  rewrite list_ascii_of_string_of_list_ascii, (tokenize_spell e Hw Hn).
  rewrite (parse_written e Hw). reflexivity.
Qed.

(** *** What the tool makes of the text of a written expression *)

Lemma digit_facts (c : ascii) :
  Text.is_digit c = true ->
  Text.is_space c = false /\ Ascii.eqb c "^" = false /\
  Text.arith_char c = true.
Proof.
  intros H. destruct c as [[] [] [] [] [] [] [] []];
    vm_compute in H; try discriminate H; repeat split; reflexivity.
Qed.

Lemma caret_digits (ds : list ascii) :
  forallb Text.is_digit ds = true -> caret ds = ds.
Proof.
  induction ds as [|c ds IH]; [reflexivity|]. cbn [forallb]. intros H.
  apply andb_true_iff in H as [Hc Hds].
  rewrite (caret_cons c ds), (IH Hds).
  destruct (digit_facts c Hc) as [_ [-> _]]. reflexivity.
Qed.

Lemma literal_digits (ds : list ascii) :
  literal ds = true -> ds <> [] /\ forallb Text.is_digit ds = true.
Proof.
  unfold literal. destruct ds as [|d rest]; [discriminate|]. intros H.
  apply andb_true_iff in H as [H _]. apply andb_true_iff in H as [H _].
  split; [discriminate|exact H].
Qed.

Lemma caret_write (e : expr) :
  well_written e = true -> caret (write "^" e) = write "**" e.
Proof.
  induction e as [ds|o x IHx|l IHl o r IHr]; cbn [well_written write];
    intros Hw.
  - apply caret_digits, literal_digits, Hw.
  - apply andb_true_iff in Hw as [_ Hx].
    rewrite (caret_cons "(" _), !caret_app, (IHx Hx).
    replace (caret (symbol "^" o)) with (symbol "**" o)
      by (destruct o; reflexivity).
    reflexivity.
  - apply andb_true_iff in Hw as [Hw Hr]. apply andb_true_iff in Hw as [_ Hl].
    rewrite (caret_cons "(" _), !caret_app, (IHl Hl), (IHr Hr).
    replace (caret (symbol "^" o)) with (symbol "**" o)
      by (destruct o; reflexivity).
    reflexivity.
Qed.

Lemma write_ends (power : string) (e : expr) :
  well_written e = true ->
  exists init c,
    write power e = (init ++ [c])%list /\ Text.is_space c = false.
Proof.
  destruct e as [ds|o x|l o r]; cbn [well_written write]; intros H.
  - destruct (literal_digits ds H) as [Hne Hd].
    destruct (exists_last Hne) as [init [c ->]]. exists init, c.
    split; [reflexivity|]. rewrite forallb_app in Hd.
    apply andb_true_iff in Hd as [_ Hc]. cbn [forallb] in Hc.
    rewrite andb_true_r in Hc. apply (digit_facts c Hc).
  - exists ("("%char :: symbol power o ++ write power x)%list, ")"%char.
    split; [|reflexivity]. cbn [app]. rewrite <- app_assoc. reflexivity.
  - exists ("("%char :: write power l ++ symbol power o ++ write power r)%list,
      ")"%char.
    split; [|reflexivity]. cbn [app]. rewrite <- !app_assoc. reflexivity.
Qed.

Lemma write_starts (power : string) (e : expr) :
  well_written e = true ->
  exists c rest, write power e = c :: rest /\ Text.is_space c = false.
Proof.
  destruct e as [ds|o x|l o r]; cbn [well_written write]; intros H.
  - destruct (literal_digits ds H) as [Hne Hd].
    destruct ds as [|c tl]; [contradiction|]. exists c, tl.
    split; [reflexivity|]. cbn [forallb] in Hd.
    apply andb_true_iff in Hd as [Hc _]. apply (digit_facts c Hc).
  - eexists _, _. split; reflexivity.
  - eexists _, _. split; reflexivity.
Qed.

Lemma strip_write (power : string) (e : expr) :
  well_written e = true -> Text.strip (write power e) = write power e.
Proof.
  intros Hw. unfold Text.strip, Text.rstrip.
  destruct (write_starts power e Hw) as [c [rest [E Hc]]].
  destruct (write_ends power e Hw) as [init [c' [E' Hc']]].
  assert (L : Text.lstrip (write power e) = write power e).
  { rewrite E. cbn [Text.lstrip]. rewrite Hc. reflexivity. }
  rewrite L, E', rev_app_distr. cbn [rev app Text.lstrip]. rewrite Hc'.
  cbn [rev]. rewrite rev_involutive. reflexivity.
Qed.

Lemma normalized_show (e : expr) :
  well_written e = true ->
  normalized (show e) = string_of_list_ascii (spell e).
Proof.
  intros Hw. rewrite <- (string_of_list_ascii_of_string (normalized (show e))).
  f_equal. unfold show. rewrite normalized_of_chars.
  rewrite (strip_write "^" e Hw). apply caret_write, Hw.
Qed.

Lemma arith_chars_spell (e : expr) :
  well_written e = true -> forallb Text.arith_char (spell e) = true.
Proof.
  unfold spell. induction e as [ds|o x IHx|l IHl o r IHr];
    cbn [well_written write]; intros Hw.
  - destruct (literal_digits ds Hw) as [_ Hd]. clear Hw.
    induction ds as [|c ds IH]; [reflexivity|]. cbn [forallb] in *.
    apply andb_true_iff in Hd as [Hc Hd].
    rewrite (IH Hd), andb_true_r. apply (digit_facts c Hc).
  - apply andb_true_iff in Hw as [_ Hx].
    cbn [forallb]. rewrite !forallb_app, (IHx Hx).
    destruct o; reflexivity.
  - apply andb_true_iff in Hw as [Hw Hr]. apply andb_true_iff in Hw as [_ Hl].
    cbn [forallb]. rewrite !forallb_app, (IHl Hl), (IHr Hr).
    destruct o; reflexivity.
Qed.

Lemma fullmatch_spell (e : expr) :
  well_written e = true ->
  Text.re_fullmatch_arith (string_of_list_ascii (spell e)) = true.
Proof.
  intros Hw. unfold Text.re_fullmatch_arith, Text.fullmatch_arith.
  rewrite list_ascii_of_string_of_list_ascii.
  pose proof (arith_chars_spell e Hw) as H.
  destruct (write_starts "**" e Hw) as [c [rest [E _]]]. unfold spell in *.
  rewrite E in *. exact H.
Qed.

Lemma length_of_chars (l : list ascii) :
  String.length (string_of_list_ascii l) = length l.
Proof. induction l as [|c l IH]; [reflexivity|]. cbn. rewrite IH. reflexivity. Qed.

(** Every level of parentheses takes two characters. *)
Lemma nesting_length (power : string) (e : expr) :
  2 * nesting e <= Z.of_nat (length (write power e)).
Proof.
  induction e as [ds|o x IHx|l IHl o r IHr]; cbn [nesting write].
  - lia.
  - cbn [length]. rewrite !length_app. cbn [length]. lia.
  - cbn [length]. rewrite !length_app. cbn [length]. lia.
Qed.

Lemma short_nesting (e : expr) :
  (String.length (show e) <= max_text)%nat -> nesting e <= Parser.max_level.
Proof.
  unfold show, max_text, Parser.max_level. rewrite length_of_chars.
  pose proof (nesting_length "^" e). lia.
Qed.

(** X13. A written expression is read back as it was meant: for digit
    strings that are integer literals, combined with the signs and the
    operators [+ - * / // %] and the caret, every operation in its own
    parentheses and the text no longer than 200 characters, the text passes
    the regular expression and parses to the tree of the expression, a
    caret as the power. *)
Theorem written_expression_parses (P : Py.platform) (e : expr) :
  well_written e = true -> (String.length (show e) <= max_text)%nat ->
  Text.re_fullmatch_arith (normalized (show e)) = true /\
  Parser.ast_parse P (normalized (show e)) = Py.Return (tree e).
Proof.
  intros Hw Hn. apply short_nesting in Hn.
  rewrite (normalized_show e Hw). split.
  - apply fullmatch_spell, Hw.
  - apply ast_parse_spell; assumption.
Qed.

Lemma written_expression_parses_witness :
  well_written
    (Bin (Bin (Bin (Lit ["2"%char]) Ast.Mult (Lit ["8"%char])) Ast.Pow
            (Lit ["2"%char]))
       Ast.Div (Un Ast.USub (Lit ["3"%char]))) = true /\
  (forall P : Py.platform,
      Parser.ast_parse P (normalized "(((2*8)^2)/(-3))") =
      Py.Return
        (Ast.BinOp
           (Ast.BinOp
              (Ast.BinOp (Ast.Constant (Py.VInt 2)) Ast.Mult
                 (Ast.Constant (Py.VInt 8)))
              Ast.Pow (Ast.Constant (Py.VInt 2)))
           Ast.Div (Ast.UnaryOp Ast.USub (Ast.Constant (Py.VInt 3))))).
Proof.
  split; [reflexivity|]. intros P.
  apply (proj2 (written_expression_parses P
                  (Bin (Bin (Bin (Lit ["2"%char]) Ast.Mult (Lit ["8"%char]))
                          Ast.Pow (Lit ["2"%char]))
                     Ast.Div (Un Ast.USub (Lit ["3"%char])))
                  eq_refl ltac:(vm_compute; lia))).
Defined.

(** X14. A written integer expression is computed: when the text has at
    most 200 characters and the expression has an integer value (no
    division, no zero divisor of [%], no negative exponent, no power of
    more than a million binary digits), the tool answers with the decimal
    digits of that value, or with the error text of [str] when there are
    more than 4300. *)
Theorem written_expression_is_computed (P : Py.platform) (e : expr) (z : Z) :
  well_written e = true -> (String.length (show e) <= max_text)%nat ->
  int_value (tree e) = Some z ->
  Calc.eval_expression P (show e) =
  Py.Return
    (if 4300 <? Py.ndigits (Z.abs z) then
       "Error: Exceeds the limit (4300 digits) for integer string conversion; use sys.set_int_max_str_digits() to increase the limit"
     else (if z <? 0 then "-" else "") +:+ Py.decimal (Z.abs z)).
Proof.
  intros Hw Hn Hz. apply short_nesting in Hn.
  pose proof (normalized_show e Hw) as E.
  rewrite (eval_expression_of_tree P (show e) (tree e)).
  - rewrite (eval_int_value P (tree e) z Hz).
    cbn [Py.bind Py.str]. unfold Py.int_str, Py.int_max_str_digits.
    destruct (4300 <? Py.ndigits (Z.abs z)); reflexivity.
  - rewrite E. apply fullmatch_spell, Hw.
  - rewrite E. apply ast_parse_spell; assumption.
Qed.

Lemma written_expression_witness :
  well_written
    (Bin (Bin (Bin (Lit ["2"%char]) Ast.Mult (Lit ["8"%char])) Ast.Pow
            (Lit ["2"%char]))
       Ast.Mod (Un Ast.USub (Lit ["7"%char]))) = true /\
  (forall P : Py.platform,
      Calc.eval_expression P "(((2*8)^2)%(-7))" = Py.Return "-3").
Proof.
  split; [reflexivity|]. intros P.
  apply (written_expression_is_computed P
           (Bin (Bin (Bin (Lit ["2"%char]) Ast.Mult (Lit ["8"%char])) Ast.Pow
                   (Lit ["2"%char]))
              Ast.Mod (Un Ast.USub (Lit ["7"%char])))
           (-3) eq_refl ltac:(vm_compute; lia) eq_refl).
Defined.


(** ** Operators without parentheses *)

Import Chains.

Lemma chain_starts (e : expr) (more : list (Ast.op_type * expr)) :
  well_written e = true ->
  exists c rest, chain "**" e more = c :: rest /\ starts_operand c = true.
Proof.
  intros Hw. destruct (spell_starts e Hw) as [c [tl [E Hc]]].
  unfold spell in E. destruct more as [|[o e'] more]; cbn [chain].
  - exists c, tl. split; assumption.
  - rewrite E. eexists c, _. split; [reflexivity|exact Hc].
Qed.

Lemma lex_chain (more : list (Ast.op_type * expr)) :
  forall first s ts rest,
    well_written first = true -> nesting first <= Parser.max_level ->
    well_chained more = true -> follows rest = true ->
    Parser.lex (between_tokens 0 s ts) (chain "**" first more ++ rest) =
    Parser.lex (between_tokens 0 true (rev (chain_toks first more) ++ ts)) rest.
Proof.
  induction more as [|[o e] more IH]; intros first s ts rest Hw Hn Hm Hf;
    cbn [chain chain_toks].
  - apply (lex_spell first Hw); [lia|lia|exact Hf].
  - cbn [well_chained] in Hm. apply andb_true_iff in Hm as [Hm Hmore].
    apply andb_true_iff in Hm as [Hm Hne]. apply andb_true_iff in Hm as [Ho He].
    apply Z.leb_le in Hne.
    rewrite <- !app_assoc.
    rewrite (lex_spell first Hw);
      [|lia|lia|destruct o; try discriminate; reflexivity].
    destruct (chain_starts e more He) as [c [tl [E Hc]]].
    pose proof (IH e true
                  (operator_token o :: rev (toks first) ++ ts)%list rest
                  He Hne Hmore Hf) as IH'.
    rewrite E in IH' |- *. cbn [app] in IH' |- *.
    rewrite (lex_binary o _ _ _ c _ Ho Hc), IH'.
    rewrite rev_app_distr. cbn [rev]. rewrite <- !app_assoc. reflexivity.
Qed.

Lemma tokenize_row (minus : bool) first more :
  well_written first = true -> nesting first <= Parser.max_level ->
  well_chained more = true ->
  Parser.tokenize (sign_text minus ++ chain "**" first more) =
  Some (sign_toks minus ++ chain_toks first more)%list.
Proof.
  intros Hw Hn Hm. unfold Parser.tokenize.
  rewrite <- (app_nil_r (chain "**" first more)).
  change Parser.initial with (between_tokens 0 false []).
  destruct minus; cbn [sign_text sign_toks app].
  - change ("-"%char :: chain "**" first more ++ [])%list
      with (symbol "**" Ast.USub ++ chain "**" first more ++ [])%list.
    rewrite (lex_unary Ast.USub 0 false [] _ eq_refl).
    rewrite (lex_chain more first _ _ [] Hw Hn Hm eq_refl).
    cbn. rewrite rev_app_distr, rev_involutive. reflexivity.
  - rewrite (lex_chain more first _ _ [] Hw Hn Hm eq_refl).
    cbn. rewrite app_nil_r, rev_involutive. reflexivity.
Qed.

Lemma caret_chain (more : list (Ast.op_type * expr)) :
  forall first,
    well_written first = true -> well_chained more = true ->
    caret (chain "^" first more) = chain "**" first more.
Proof.
  induction more as [|[o e] more IH]; intros first Hw Hm; cbn [chain].
  - apply caret_write, Hw.
  - cbn [well_chained] in Hm. apply andb_true_iff in Hm as [Hm Hmore].
    apply andb_true_iff in Hm as [Hm _]. apply andb_true_iff in Hm as [_ He].
    rewrite !caret_app, (caret_write first Hw), (IH e He Hmore).
    replace (caret (symbol "^" o)) with (symbol "**" o)
      by (destruct o; reflexivity).
    reflexivity.
Qed.

Lemma chain_ends (power : string) (more : list (Ast.op_type * expr)) :
  forall first,
    well_written first = true -> well_chained more = true ->
    exists init c,
      chain power first more = (init ++ [c])%list /\ Text.is_space c = false.
Proof.
  induction more as [|[o e] more IH]; intros first Hw Hm; cbn [chain].
  - apply write_ends, Hw.
  - cbn [well_chained] in Hm. apply andb_true_iff in Hm as [Hm Hmore].
    apply andb_true_iff in Hm as [Hm _]. apply andb_true_iff in Hm as [_ He].
    destruct (IH e He Hmore) as [init [c [E Hc]]].
    exists (write power first ++ symbol power o ++ init)%list, c.
    split; [|exact Hc]. rewrite E, <- !app_assoc. reflexivity.
Qed.

Lemma arith_chars_chain (more : list (Ast.op_type * expr)) :
  forall first,
    well_written first = true -> well_chained more = true ->
    forallb Text.arith_char (chain "**" first more) = true.
Proof.
  induction more as [|[o e] more IH]; intros first Hw Hm; cbn [chain].
  - apply arith_chars_spell, Hw.
  - cbn [well_chained] in Hm. apply andb_true_iff in Hm as [Hm Hmore].
    apply andb_true_iff in Hm as [Hm _]. apply andb_true_iff in Hm as [_ He].
    rewrite !forallb_app, (IH e He Hmore).
    pose proof (arith_chars_spell first Hw) as H. unfold spell in H.
    rewrite H. destruct o; reflexivity.
Qed.

Lemma strip_solid (l init rest : list ascii) (c c' : ascii) :
  l = c :: rest -> Text.is_space c = false ->
  l = (init ++ [c'])%list -> Text.is_space c' = false ->
  Text.strip l = l.
Proof.
  intros E Hc E' Hc'. unfold Text.strip, Text.rstrip.
  assert (L : Text.lstrip l = l).
  { rewrite E. cbn [Text.lstrip]. rewrite Hc. reflexivity. }
  rewrite L, E', rev_app_distr. cbn [rev app Text.lstrip]. rewrite Hc'.
  cbn [rev]. rewrite rev_involutive. reflexivity.
Qed.

Lemma normalized_row (minus : bool) first more :
  well_written first = true -> well_chained more = true ->
  normalized (row minus first more) =
  string_of_list_ascii (sign_text minus ++ chain "**" first more).
Proof.
  intros Hw Hm.
  rewrite <- (string_of_list_ascii_of_string (normalized (row minus first more))).
  f_equal. unfold row. rewrite normalized_of_chars.
  destruct (chain_ends "^" more first Hw Hm) as [init [c' [E' Hc']]].
  assert (S : Text.strip (sign_text minus ++ chain "^" first more) =
              (sign_text minus ++ chain "^" first more)%list).
  { destruct minus; cbn [sign_text app].
    - apply (strip_solid _ ("-"%char :: init) (chain "^" first more) "-" c');
        [reflexivity|reflexivity|rewrite E'; reflexivity|exact Hc'].
    - assert (Hst : exists c rest, chain "^" first more = c :: rest /\
                                   Text.is_space c = false).
      { destruct (write_starts "^" first Hw) as [c [tl [E Hc]]].
        destruct more as [|[o e] more']; cbn [chain].
        - eauto.
        - rewrite E. eexists c, _. split; [reflexivity|exact Hc]. }
      destruct Hst as [c [rest [E Hc]]].
      apply (strip_solid _ init rest c c'); assumption. }
  rewrite S, caret_app, (caret_chain more first Hw Hm).
  destruct minus; reflexivity.
Qed.

Lemma fullmatch_row (minus : bool) first more :
  well_written first = true -> well_chained more = true ->
  Text.re_fullmatch_arith
    (string_of_list_ascii (sign_text minus ++ chain "**" first more)) = true.
Proof.
  intros Hw Hm. unfold Text.re_fullmatch_arith, Text.fullmatch_arith.
  rewrite list_ascii_of_string_of_list_ascii.
  pose proof (arith_chars_chain more first Hw Hm) as H.
  destruct (chain_starts first more Hw) as [c [rest [E _]]].
  rewrite E in *. destruct minus; cbn [sign_text app]; [|exact H].
  cbn [forallb] in *. rewrite H. reflexivity.
Qed.

(** The tool on a row: the text passes the filter and is parsed from the
    tokens of the row. *)
Lemma ast_parse_row P (minus : bool) first more (t : Ast.node) :
  well_written first = true -> nesting first <= Parser.max_level ->
  well_chained more = true ->
  Parser.parse (sign_toks minus ++ chain_toks first more) = Some t ->
  Text.re_fullmatch_arith (normalized (row minus first more)) = true /\
  Parser.ast_parse P (normalized (row minus first more)) = Py.Return t.
Proof.
  intros Hw Hn Hm Hp. rewrite (normalized_row minus first more Hw Hm). split.
  - apply fullmatch_row; assumption.
  - unfold Parser.ast_parse.
    rewrite list_ascii_of_string_of_list_ascii.
    rewrite (tokenize_row minus first more Hw Hn Hm), Hp. reflexivity.
Qed.

Lemma parse_three (o1 o2 : Ast.op_type) (x y z : expr) :
  is_binary o1 = true -> is_binary o2 = true ->
  well_written x = true -> well_written y = true -> well_written z = true ->
  Parser.parse (chain_toks x [(o1, y); (o2, z)]) =
  Some (three o1 o2 (tree x) (tree y) (tree z)).
Proof.
  intros H1 H2 Hx Hy Hz. cbn [chain_toks]. unfold Parser.parse.
  rewrite (parse_toks x Hx).
  rewrite <- (app_nil_r (toks z)).
  destruct o1; try discriminate H1; destruct o2; try discriminate H2;
    cbn [Parser.parse_tokens operator_token Parser.parse_token
         Parser.want_operand Parser.infix Parser.ops Parser.operands
         Parser.reduce Parser.binding Parser.apply_item Z.leb Z.compare];
    rewrite (parse_toks y Hy);
    cbn [Parser.parse_tokens operator_token Parser.parse_token
         Parser.want_operand Parser.infix Parser.ops Parser.operands
         Parser.reduce Parser.binding Parser.apply_item Z.leb Z.compare
         Pos.compare Pos.compare_cont];
    rewrite (parse_toks z Hz); reflexivity.
Qed.

Lemma parse_signed_two (o : Ast.op_type) (x y : expr) :
  is_binary o = true ->
  well_written x = true -> well_written y = true ->
  Parser.parse (Parser.MINUS :: chain_toks x [(o, y)]) =
  Some (signed_two o (tree x) (tree y)).
Proof.
  intros H1 Hx Hy. cbn [chain_toks]. unfold Parser.parse.
  cbn [Parser.parse_tokens Parser.parse_token Parser.want_operand].
  unfold Parser.push_item. cbn [Parser.ops Parser.operands].
  rewrite (parse_toks x Hx).
  rewrite <- (app_nil_r (toks y)).
  destruct o; try discriminate H1;
    cbn [Parser.parse_tokens operator_token Parser.parse_token
         Parser.want_operand Parser.infix Parser.ops Parser.operands
         Parser.reduce Parser.binding Parser.apply_item Z.leb Z.compare
         Pos.compare Pos.compare_cont];
    rewrite (parse_toks y Hy); reflexivity.
Qed.

Lemma short_row (o1 o2 : Ast.op_type) (x y z : expr) :
  (String.length (row false x [(o1, y); (o2, z)]) <= max_text)%nat ->
  nesting x <= Parser.max_level /\ nesting y <= Parser.max_level /\
  nesting z <= Parser.max_level.
Proof.
  unfold row, max_text, Parser.max_level. rewrite length_of_chars.
  cbn [sign_text app chain]. rewrite !length_app.
  pose proof (nesting_length "^" x). pose proof (nesting_length "^" y).
  pose proof (nesting_length "^" z). lia.
Qed.

(** X15. Operators without parentheses group as in Python, the caret being
    the power. In [x o1 y o2 z] the first operator takes its operands first
    unless the second binds more tightly ([**] over [* / // %] over [+ -]),
    and two powers group to the right; in [-x o y] the minus applies to [x]
    unless the operator is the power, so that [-x^y] is [-(x^y)]. When the
    tree so grouped has an integer value, the tool answers with it. The
    operands are written expressions, each a literal or in parentheses, and
    the text [x o1 y o2 z] has at most 200 characters. *)
Theorem operator_precedence (P : Py.platform) (o1 o2 : Ast.op_type)
    (x y z : expr) :
  is_binary o1 = true -> is_binary o2 = true ->
  well_written x = true -> well_written y = true -> well_written z = true ->
  (String.length (row false x [(o1, y); (o2, z)]) <= max_text)%nat ->
  Parser.ast_parse P (normalized (row false x [(o1, y); (o2, z)])) =
    Py.Return (three o1 o2 (tree x) (tree y) (tree z)) /\
  Parser.ast_parse P (normalized (row true x [(o1, y)])) =
    Py.Return (signed_two o1 (tree x) (tree y)) /\
  (forall v,
      int_value (three o1 o2 (tree x) (tree y) (tree z)) = Some v ->
      Calc.eval_expression P (row false x [(o1, y); (o2, z)]) =
        Py.Return (answer v)) /\
  (forall v,
      int_value (signed_two o1 (tree x) (tree y)) = Some v ->
      Calc.eval_expression P (row true x [(o1, y)]) = Py.Return (answer v)).
Proof.
  intros H1 H2 Hx Hy Hz Hlen.
  destruct (short_row o1 o2 x y z Hlen) as [Nx [Ny Nz]].
  unfold Parser.max_level in Nx, Ny, Nz.
  assert (M3 : well_chained [(o1, y); (o2, z)] = true).
  { cbn [well_chained]. unfold Parser.max_level. rewrite H1, H2, Hy, Hz.
    rewrite (proj2 (Z.leb_le _ _) Ny), (proj2 (Z.leb_le _ _) Nz). reflexivity. }
  assert (M2 : well_chained [(o1, y)] = true).
  { cbn [well_chained]. unfold Parser.max_level. rewrite H1, Hy.
    rewrite (proj2 (Z.leb_le _ _) Ny). reflexivity. }
  destruct (ast_parse_row P false x [(o1, y); (o2, z)] _ Hx Nx M3
              (parse_three o1 o2 x y z H1 H2 Hx Hy Hz)) as [F3 P3].
  destruct (ast_parse_row P true x [(o1, y)] _ Hx Nx M2
              (parse_signed_two o1 x y H1 Hx Hy)) as [F2 P2].
  assert (A : forall s t v,
             Text.re_fullmatch_arith (normalized s) = true ->
             Parser.ast_parse P (normalized s) = Py.Return t ->
             int_value t = Some v ->
             Calc.eval_expression P s = Py.Return (answer v)).
  { intros s t v Hf Hp Hv. rewrite (eval_expression_of_tree P s t Hf Hp).
    rewrite (eval_int_value P t v Hv). cbn [Py.bind Py.str].
    unfold Py.int_str, Py.int_max_str_digits, answer.
    destruct (4300 <? Py.ndigits (Z.abs v)); reflexivity. }
  split; [exact P3|]. split; [exact P2|]. split; intros v Hv.
  - exact (A _ _ v F3 P3 Hv).
  - exact (A _ _ v F2 P2 Hv).
Qed.

Lemma operator_precedence_witness :
  well_written (Lit ["2"%char]) = true /\
  (forall P : Py.platform,
      Calc.eval_expression P "2^3^2" = Py.Return "512" /\
      Calc.eval_expression P "-2^2" = Py.Return "-4").
Proof.
  split; [reflexivity|]. intros P.
  destruct (operator_precedence P Ast.Pow Ast.Pow
              (Lit ["2"%char]) (Lit ["3"%char]) (Lit ["2"%char])
              eq_refl eq_refl eq_refl eq_refl eq_refl ltac:(vm_compute; lia))
    as [_ [_ [H3 _]]].
  destruct (operator_precedence P Ast.Pow Ast.Pow
              (Lit ["2"%char]) (Lit ["2"%char]) (Lit ["2"%char])
              eq_refl eq_refl eq_refl eq_refl eq_refl ltac:(vm_compute; lia))
    as [_ [_ [_ H2]]].
  split.
  - exact (H3 512 eq_refl).
  - exact (H2 (-4) eq_refl).
Defined.
